(** * TrailerTech: folder classification, sidecar metadata and the
    trailer-acquisition state machine

    A shallow embedding of [src/media/movieFolder.py] and of
    [TrailerTech.get_Trailer] and [TrailerTech.scanLibrary]
    ([src/TrailerTech.py]), followed by the properties established about
    them.  [scanLibraryThreaded] (a thread pool) and [main] (command line
    and environment) are not embedded.

    Conventions of the embedding.
    - A Python [str] is a [string]; its characters are read as the code
      points 0..255 (Latin-1), which is where [str.lower], [str.isdigit]
      and the regular expression class [\d] are defined below.
    - An attribute that holds [None] or a [str] is an [option string].
    - A call that can raise returns a [result]; the exceptions are the
      ones the two source files can produce by themselves.
    - The operating system (directory listing, file tests, file sizes,
      ffprobe, the XML parser) is a record of functions, [OS].
    - The three collaborators of the orchestrator (catalog lookup, trailer
      scraper, downloader) are a record of operations over an abstract
      collaborator state.
    - The calls into the operating system and into the collaborators are
      taken not to raise, and the collaborators to return lists and truth
      values.  Logging is left out: it does not affect control flow. *)

From Stdlib Require Import ZArith String Ascii List Bool Lia.
From Stdlib Require Import Floats.PrimFloat.
From stdpp Require Import gmap strings.
Import ListNotations.
Local Open Scope string_scope.

(* ================================================================== *)
(** ** Python values, exceptions and [str] methods *)
(* ================================================================== *)

Module Py.

(** The exceptions raised by the modelled code. *)
Inductive exn : Type :=
| NameError        (* a global name that the module never bound *)
| AttributeError   (* attribute access on None *)
| TypeError        (* len() of a method, re.match on None *)
| KeyError.        (* dict subscript with a missing key *)

Inductive result (A : Type) : Type :=
| Ok (a : A)
| Raise (e : exn).
Arguments Ok {A} a.
Arguments Raise {A} e.

Definition bind {A B} (m : result A) (f : A -> result B) : result B :=
  match m with
  | Ok a => f a
  | Raise e => Raise e
  end.

(** The values that reach [NFO.__parse_releaseDate]: [None], a [str],
    or (line 114 of movieFolder.py) a bound method. *)
Inductive value : Type :=
| VNone
| VStr (s : string)
| VMethod (name : string).

Definition of_option (o : option string) : value :=
  match o with
  | Some s => VStr s
  | None => VNone
  end.

(** Truth value of an object: [None] and the empty string are false,
    a bound method is true. *)
Definition truthy (v : value) : bool :=
  match v with
  | VNone => false
  | VStr s => negb (s =? "")
  | VMethod _ => true
  end.

(** [bool(x)] for an attribute holding [None] or a [str]. *)
Definition truthy_opt (o : option string) : bool := truthy (of_option o).

(** [len(x)]: defined on strings only. *)
Definition len (v : value) : result nat :=
  match v with
  | VStr s => Ok (String.length s)
  | _ => Raise TypeError
  end.

Definition ord (c : ascii) : N := N_of_ascii c.

Definition in_range (lo hi n : N) : bool := ((lo <=? n) && (n <=? hi))%N.

(** [c.lower()] on the code points 0..255: A-Z and the upper-case
    letters U+00C0..U+00DE (without the multiplication sign U+00D7). *)
Definition chr_lower (c : ascii) : ascii :=
  let n := ord c in
  if in_range 65 90 n || (in_range 192 222 n && negb (n =? 215)%N)
  then ascii_of_N (n + 32)
  else c.

Fixpoint lower (s : string) : string :=
  match s with
  | EmptyString => EmptyString
  | String c t => String (chr_lower c) (lower t)
  end.

(** [c.isdigit()] on the code points 0..255: 0-9 and the superscripts
    U+00B2, U+00B3, U+00B9. *)
Definition chr_isdigit (c : ascii) : bool :=
  let n := ord c in
  in_range 48 57 n || (n =? 178)%N || (n =? 179)%N || (n =? 185)%N.

Fixpoint all_chars (p : ascii -> bool) (s : string) : bool :=
  match s with
  | EmptyString => true
  | String c t => p c && all_chars p t
  end.

(** [s.isdigit()]: every character is a digit and there is at least one. *)
Definition isdigit (s : string) : bool :=
  negb (s =? "") && all_chars chr_isdigit s.

(** [s.startswith(p)] *)
Definition startswith (s p : string) : bool := String.prefix p s.

(** [s.endswith(p)] *)
Definition endswith (s p : string) : bool :=
  let n := String.length s in
  let m := String.length p in
  (m <=? n)%nat && (substring (n - m) m s =? p).

(** [needle in hay] for two strings. *)
Fixpoint contains (needle hay : string) : bool :=
  String.prefix needle hay
  || match hay with
     | EmptyString => false
     | String _ t => contains needle t
     end.

(** [x in xs] for a list of strings. *)
Definition in_list (x : string) (xs : list string) : bool :=
  existsb (String.eqb x) xs.

(** [d[k]] on a dict with string keys. *)
Definition getitem (d : gmap string string) (k : string) : result string :=
  match d !! k with
  | Some v => Ok v
  | None => Raise KeyError
  end.

End Py.

Import Py.

Notation "x <- m ;; k" := (Py.bind m (fun x => k))
  (at level 100, m at next level, right associativity).

(* ================================================================== *)
(** ** Regular expressions: what [re.match] decides *)
(* ================================================================== *)

Module Re.

(** The fragment of Python's pattern language that the three compiled
    patterns of movieFolder.py use. *)
Inductive regex : Type :=
| Void
| Eps
| Cls (p : ascii -> bool)
| Cat (r s : regex)
| Alt (r s : regex).

(** [\d] on the code points 0..255 is 0-9 (Unicode category Nd). *)
Definition digit : regex := Cls (fun c => in_range 48 57 (ord c)).

Definition range (lo hi : ascii) : regex :=
  Cls (fun c => in_range (ord lo) (ord hi) (ord c)).

Definition chr (a : ascii) : regex := Cls (Ascii.eqb a).

Fixpoint lit (s : string) : regex :=
  match s with
  | EmptyString => Eps
  | String c t => Cat (chr c) (lit t)
  end.

(** [r?] *)
Definition opt (r : regex) : regex := Alt r Eps.

(** [r{n}] *)
Fixpoint times (n : nat) (r : regex) : regex :=
  match n with
  | O => Eps
  | S k => Cat r (times k r)
  end.

(** [r{0,n}] *)
Fixpoint upto (n : nat) (r : regex) : regex :=
  match n with
  | O => Eps
  | S k => opt (Cat r (upto k r))
  end.

(** [r{m,n}] *)
Definition between (m n : nat) (r : regex) : regex :=
  Cat (times m r) (upto (n - m) r).

Fixpoint nullable (r : regex) : bool :=
  match r with
  | Void => false
  | Eps => true
  | Cls _ => false
  | Cat r s => nullable r && nullable s
  | Alt r s => nullable r || nullable s
  end.

(** Brzozowski derivative. *)
Fixpoint deriv (c : ascii) (r : regex) : regex :=
  match r with
  | Void => Void
  | Eps => Void
  | Cls p => if p c then Eps else Void
  | Cat r s =>
      if nullable r then Alt (Cat (deriv c r) s) (deriv c s)
      else Cat (deriv c r) s
  | Alt r s => Alt (deriv c r) (deriv c s)
  end.

(** [bool(re.match(r, s))]: some prefix of [s] is a word of [r]
    ([re.match] anchors at the start of the string only). *)
Fixpoint matches_prefix (r : regex) (s : string) : bool :=
  nullable r
  || match s with
     | EmptyString => false
     | String c t => matches_prefix (deriv c r) t
     end.

(** [re.match(pattern, x)] as a truth value; [x] must be a string. *)
Definition re_match (r : regex) (x : value) : result bool :=
  match x with
  | VStr s => Ok (matches_prefix r s)
  | _ => Raise TypeError
  end.

(** The words of a pattern, for the correctness of [matches_prefix]. *)
Inductive lang : regex -> string -> Prop :=
| L_eps : lang Eps ""
| L_cls p c : p c = true -> lang (Cls p) (String c "")
| L_cat r s u v : lang r u -> lang s v -> lang (Cat r s) (u ++ v)
| L_alt_l r s u : lang r u -> lang (Alt r s) u
| L_alt_r r s u : lang s u -> lang (Alt r s) u.

End Re.

(* ================================================================== *)
(** ** [os.path] (POSIX flavour) *)
(* ================================================================== *)

Module OsPath.

Definition sep : ascii := "/"%char.
Definition extsep : ascii := "."%char.

(** [os.path.join(a, b)] *)
Definition join (a b : string) : string :=
  if startswith b "/" then b
  else if (a =? "") || endswith a "/" then a ++ b
  else a ++ "/" ++ b.

(** [(p[:i], p[i:])] for [i = p.rfind(c) + 1], when [c] occurs in [p]. *)
Fixpoint rsplit_after (c : ascii) (p : string) : option (string * string) :=
  match p with
  | EmptyString => None
  | String a t =>
      match rsplit_after c t with
      | Some (h, b) => Some (String a h, b)
      | None => if Ascii.eqb a c then Some (String a "", t) else None
      end
  end.

(** [(p[:i], p[i:])] for [i = p.rfind(c)], when [c] occurs in [p]. *)
Fixpoint rsplit_before (c : ascii) (p : string) : option (string * string) :=
  match p with
  | EmptyString => None
  | String a t =>
      match rsplit_before c t with
      | Some (h, b) => Some (String a h, b)
      | None => if Ascii.eqb a c then Some ("", p) else None
      end
  end.

(** [s.rstrip('/')] *)
Fixpoint rstrip_sep (s : string) : string :=
  match s with
  | EmptyString => EmptyString
  | String a t =>
      match rstrip_sep t with
      | EmptyString => if Ascii.eqb a sep then EmptyString else String a ""
      | t' => String a t'
      end
  end.

(** [head, tail] with [i = p.rfind('/') + 1], [head = p[:i]],
    [tail = p[i:]] (before [head] is stripped). *)
Definition split_raw (p : string) : string * string :=
  match rsplit_after sep p with
  | Some ht => ht
  | None => ("", p)
  end.

(** [os.path.basename(p)] *)
Definition basename (p : string) : string := snd (split_raw p).

(** [os.path.dirname(p)] *)
Definition dirname (p : string) : string :=
  let head := fst (split_raw p) in
  if negb (head =? "") && negb (all_chars (Ascii.eqb sep) head)
  then rstrip_sep head
  else head.

(** [os.path.splitext(p)]: the extension starts at the last dot of the
    last path component, unless only dots precede it there. *)
Definition splitext (p : string) : string * string :=
  let '(head, tail) := split_raw p in
  match rsplit_before extsep tail with
  | Some (stem, ext) =>
      if all_chars (Ascii.eqb extsep) stem then (p, "")
      else (head ++ stem, ext)
  | None => (p, "")
  end.

End OsPath.

(* ================================================================== *)
(** ** The operating system, as movieFolder.py sees it *)
(* ================================================================== *)

(** One top-level child of the XML root: [item.tag], [item.attrib],
    [item.text]. *)
Record Element : Type := {
  tag : string;
  attrib : gmap string string;
  text : option string;
}.

(** What [et.parse(path).getroot()] does: raise [IOError], raise
    [et.ParseError], or give a root whose children are iterated.  (The
    parser's other failures, on a declared encoding that it does not
    support, are not caught at line 155 and are not part of the
    embedding.) *)
Inductive xml : Type :=
| XmlIOError
| XmlParseError
| XmlRoot (children : list Element).

Record OS : Type := {
  abspath : string -> string;          (* os.path.abspath *)
  isdir : string -> bool;              (* os.path.isdir *)
  isfile : string -> bool;             (* os.path.isfile *)
  listdir : string -> list string;     (* entry names of os.scandir / os.listdir, in their order *)
  getsize : string -> Z;               (* os.path.getsize *)
  ffprobe : string -> option float;    (* float(result.stdout); None when it raises ValueError *)
  et_parse : string -> xml;            (* et.parse(path).getroot() *)
}.

(* ================================================================== *)
(** ** src/media/movieFolder.py *)
(* ================================================================== *)

Definition MIN_MOVIE_DURATION : float := 600%float.

Definition VIDEO_EXTENSIONS : list string :=
  [".mkv"; ".iso"; ".wmv"; ".avi"; ".mp4"; ".m4v"; ".img"; ".divx"; ".mov"; ".flv"; ".m2ts"].

Definition NFO_EXTENSIONS : list string := [".nfo"; ".xml"].

Definition ID_TAGS : list string :=
  ["imdb"; "tmdb"; "imdbid"; "tmdbid"; "tmdb_id"; "imdb_id"; "id"].

(** [ev\d{7,8}\/\d{4}(-\d)?|(ch|co|ev|nm|tt)\d{7,8}] *)
Definition IMDB_ID_PATTERN : Re.regex :=
  Re.Alt
    (Re.Cat (Re.lit "ev")
       (Re.Cat (Re.between 7 8 Re.digit)
          (Re.Cat (Re.chr "/")
             (Re.Cat (Re.times 4 Re.digit)
                (Re.opt (Re.Cat (Re.chr "-") Re.digit))))))
    (Re.Cat
       (Re.Alt (Re.lit "ch")
          (Re.Alt (Re.lit "co")
             (Re.Alt (Re.lit "ev")
                (Re.Alt (Re.lit "nm") (Re.lit "tt")))))
       (Re.between 7 8 Re.digit)).

(** [[1-9]\d{1,10}] *)
Definition TMDB_ID_PATTERN : Re.regex :=
  Re.Cat (Re.range "1" "9") (Re.between 1 10 Re.digit).

(** [\d{4}] *)
Definition YEAR_PATTERN : Re.regex := Re.times 4 Re.digit.

(** The names bound in the global namespace of movieFolder.py: its
    imports, constants and classes.  [datetime] is not among them (and
    is no builtin). *)
Definition module_globals : list string :=
  ["os"; "json"; "subprocess"; "re"; "logger"; "et";
   "MIN_MOVIE_DURATION"; "VIDEO_EXTENSIONS"; "NFO_EXTENSIONS"; "ID_TAGS";
   "IMDB_ID_PATTERN"; "TMDB_ID_PATTERN"; "YEAR_PATTERN";
   "log"; "File"; "Video"; "NFO"; "MovieFolder"].

(** Evaluating a global name inside the module. *)
Definition load_global (name : string) : result string :=
  if in_list name module_globals then Ok name else Raise NameError.

(** *** class Video *)

Record Video : Type := {
  v_path : string;
  duration : float;
}.

Module Video.

Definition fileName (self : Video) : string := OsPath.basename (v_path self).

(** [Video.get_duration]: the probed duration, or the fallback taken
    from the file name when ffprobe's output is no number. *)
Definition get_duration (os : OS) (path : string) : float :=
  match ffprobe os path with
  | Some d => d
  | None =>
      if endswith (fst (OsPath.splitext (OsPath.basename path))) "-trailer"
      then 1%float
      else (MIN_MOVIE_DURATION + 1)%float
  end.

(** [Video(path, skip_processing, is_trailer)].  [calls] is the list
    of paths handed to ffprobe so far; the constructor extends it
    exactly when it probes. *)
Definition init (os : OS) (path : string) (skip_processing is_trailer : bool)
    (calls : list string) : Video * list string :=
  if skip_processing then
    if is_trailer
    then ({| v_path := path; duration := (MIN_MOVIE_DURATION - 1)%float |}, calls)
    else ({| v_path := path; duration := (MIN_MOVIE_DURATION + 1)%float |}, calls)
  else
    ({| v_path := path; duration := get_duration os path |}, (calls ++ [path])%list).

Definition isMovie (self : Video) : bool :=
  (MIN_MOVIE_DURATION <=? duration self)%float.

End Video.

(** *** class NFO *)

Record NFO : Type := {
  n_path : string;
  __originaltitle : option string;
  __title : option string;
  __localtitle : option string;
  __year : option string;
  __releasedate : option string;
  __premiered : option string;
  __productionyear : option string;
  __imdb : option string;
  __tmdb : option string;
  __unique_id_imdb : option string;
  __unique_id_tmdb : option string;
  __id : option string;
}.

Module NFO.

(** The object as [__init__] leaves it before [__parse_nfo] runs. *)
Definition blank (path : string) : NFO :=
  {| n_path := path;
     __originaltitle := None; __title := None; __localtitle := None;
     __year := None; __releasedate := None; __premiered := None;
     __productionyear := None; __imdb := None; __tmdb := None;
     __unique_id_imdb := None; __unique_id_tmdb := None; __id := None |}.

Definition set_originaltitle (v : option string) (n : NFO) : NFO :=
  {| n_path := n_path n; __originaltitle := v; __title := __title n;
     __localtitle := __localtitle n; __year := __year n;
     __releasedate := __releasedate n; __premiered := __premiered n;
     __productionyear := __productionyear n; __imdb := __imdb n;
     __tmdb := __tmdb n; __unique_id_imdb := __unique_id_imdb n;
     __unique_id_tmdb := __unique_id_tmdb n; __id := __id n |}.

Definition set_title (v : option string) (n : NFO) : NFO :=
  {| n_path := n_path n; __originaltitle := __originaltitle n; __title := v;
     __localtitle := __localtitle n; __year := __year n;
     __releasedate := __releasedate n; __premiered := __premiered n;
     __productionyear := __productionyear n; __imdb := __imdb n;
     __tmdb := __tmdb n; __unique_id_imdb := __unique_id_imdb n;
     __unique_id_tmdb := __unique_id_tmdb n; __id := __id n |}.

Definition set_localtitle (v : option string) (n : NFO) : NFO :=
  {| n_path := n_path n; __originaltitle := __originaltitle n;
     __title := __title n; __localtitle := v; __year := __year n;
     __releasedate := __releasedate n; __premiered := __premiered n;
     __productionyear := __productionyear n; __imdb := __imdb n;
     __tmdb := __tmdb n; __unique_id_imdb := __unique_id_imdb n;
     __unique_id_tmdb := __unique_id_tmdb n; __id := __id n |}.

Definition set_year (v : option string) (n : NFO) : NFO :=
  {| n_path := n_path n; __originaltitle := __originaltitle n;
     __title := __title n; __localtitle := __localtitle n; __year := v;
     __releasedate := __releasedate n; __premiered := __premiered n;
     __productionyear := __productionyear n; __imdb := __imdb n;
     __tmdb := __tmdb n; __unique_id_imdb := __unique_id_imdb n;
     __unique_id_tmdb := __unique_id_tmdb n; __id := __id n |}.

Definition set_releasedate (v : option string) (n : NFO) : NFO :=
  {| n_path := n_path n; __originaltitle := __originaltitle n;
     __title := __title n; __localtitle := __localtitle n;
     __year := __year n; __releasedate := v; __premiered := __premiered n;
     __productionyear := __productionyear n; __imdb := __imdb n;
     __tmdb := __tmdb n; __unique_id_imdb := __unique_id_imdb n;
     __unique_id_tmdb := __unique_id_tmdb n; __id := __id n |}.

Definition set_premiered (v : option string) (n : NFO) : NFO :=
  {| n_path := n_path n; __originaltitle := __originaltitle n;
     __title := __title n; __localtitle := __localtitle n;
     __year := __year n; __releasedate := __releasedate n; __premiered := v;
     __productionyear := __productionyear n; __imdb := __imdb n;
     __tmdb := __tmdb n; __unique_id_imdb := __unique_id_imdb n;
     __unique_id_tmdb := __unique_id_tmdb n; __id := __id n |}.

Definition set_productionyear (v : option string) (n : NFO) : NFO :=
  {| n_path := n_path n; __originaltitle := __originaltitle n;
     __title := __title n; __localtitle := __localtitle n;
     __year := __year n; __releasedate := __releasedate n;
     __premiered := __premiered n; __productionyear := v;
     __imdb := __imdb n; __tmdb := __tmdb n;
     __unique_id_imdb := __unique_id_imdb n;
     __unique_id_tmdb := __unique_id_tmdb n; __id := __id n |}.

Definition set_imdb (v : option string) (n : NFO) : NFO :=
  {| n_path := n_path n; __originaltitle := __originaltitle n;
     __title := __title n; __localtitle := __localtitle n;
     __year := __year n; __releasedate := __releasedate n;
     __premiered := __premiered n; __productionyear := __productionyear n;
     __imdb := v; __tmdb := __tmdb n;
     __unique_id_imdb := __unique_id_imdb n;
     __unique_id_tmdb := __unique_id_tmdb n; __id := __id n |}.

Definition set_tmdb (v : option string) (n : NFO) : NFO :=
  {| n_path := n_path n; __originaltitle := __originaltitle n;
     __title := __title n; __localtitle := __localtitle n;
     __year := __year n; __releasedate := __releasedate n;
     __premiered := __premiered n; __productionyear := __productionyear n;
     __imdb := __imdb n; __tmdb := v;
     __unique_id_imdb := __unique_id_imdb n;
     __unique_id_tmdb := __unique_id_tmdb n; __id := __id n |}.

Definition set_unique_id_imdb (v : option string) (n : NFO) : NFO :=
  {| n_path := n_path n; __originaltitle := __originaltitle n;
     __title := __title n; __localtitle := __localtitle n;
     __year := __year n; __releasedate := __releasedate n;
     __premiered := __premiered n; __productionyear := __productionyear n;
     __imdb := __imdb n; __tmdb := __tmdb n; __unique_id_imdb := v;
     __unique_id_tmdb := __unique_id_tmdb n; __id := __id n |}.

Definition set_unique_id_tmdb (v : option string) (n : NFO) : NFO :=
  {| n_path := n_path n; __originaltitle := __originaltitle n;
     __title := __title n; __localtitle := __localtitle n;
     __year := __year n; __releasedate := __releasedate n;
     __premiered := __premiered n; __productionyear := __productionyear n;
     __imdb := __imdb n; __tmdb := __tmdb n;
     __unique_id_imdb := __unique_id_imdb n; __unique_id_tmdb := v;
     __id := __id n |}.

(** [File.fileSize] *)
Definition fileSize (os : OS) (self : NFO) : Z := getsize os (n_path self).

(** [str(datetime.strptime(releaseDate, '%Y-%m-%d').year)].  The name
    [datetime] is looked up first; were it bound to one of the module's
    globals, none of them has an attribute [strptime]. *)
Definition strptime_year (releaseDate : string) : result string :=
  _ <- load_global "datetime" ;;
  Raise AttributeError.

(** [NFO.__parse_releaseDate] (lines 189-199). *)
Definition __parse_releaseDate (releaseDate : value) : result (option string) :=
  if truthy releaseDate then
    n <- len releaseDate ;;
    match releaseDate with
    | VStr s =>
        if (n =? 4)%nat && isdigit s then Ok (Some s)
        else
          match strptime_year s with       (* try: *)
          | Ok year => Ok (Some year)
          | Raise _ => Ok None             (* except: return None *)
          end
    | _ => Raise AttributeError            (* not reached: len raised *)
    end
  else Ok None.

(** [NFO.__parse_id] (lines 201-207). *)
Definition __parse_id (movie_id : option string) (self : NFO) : NFO :=
  match movie_id with
  | Some s =>
      if truthy (VStr s) then
        if startswith (lower s) "tt" then set_imdb (Some s) self
        else if isdigit s then set_tmdb (Some s) self
        else self
      else self
  | None => self
  end.

(** The body of the loop of [NFO.__parse_nfo] (lines 159-187). *)
Definition parse_item (self : NFO) (item : Element) : result NFO :=
  let t := lower (tag item) in
  if t =? "uniqueid" then
    ty <- getitem (attrib item) "type" ;;
    if lower ty =? "tmdb" then Ok (set_unique_id_tmdb (text item) self)
    else if lower ty =? "imdb" then Ok (set_unique_id_imdb (text item) self)
    else Ok self
  else if in_list t ID_TAGS then Ok (__parse_id (text item) self)
  else if t =? "premiered" then
    y <- __parse_releaseDate (of_option (text item)) ;;
    Ok (set_premiered y self)
  else if t =? "release_date" then
    y <- __parse_releaseDate (of_option (text item)) ;;
    Ok (set_releasedate y self)
  else if t =? "year" then Ok (set_year (text item) self)
  else if t =? "productionyear" then Ok (set_productionyear (text item) self)
  else if t =? "title" then Ok (set_title (text item) self)
  else if t =? "originaltitle" then Ok (set_originaltitle (text item) self)
  else if t =? "localtitle" then Ok (set_localtitle (text item) self)
  else Ok self.

Fixpoint parse_items (self : NFO) (items : list Element) : result NFO :=
  match items with
  | [] => Ok self
  | item :: rest =>
      self' <- parse_item self item ;;
      parse_items self' rest
  end.

(** [NFO.__parse_nfo] (lines 151-187): only the two exceptions of
    [et.parse] are caught. *)
Definition __parse_nfo (os : OS) (self : NFO) : result NFO :=
  match et_parse os (n_path self) with
  | XmlIOError => Ok self
  | XmlParseError => Ok self
  | XmlRoot items => parse_items self items
  end.

(** [NFO(path)] *)
Definition init (os : OS) (path : string) : result NFO :=
  __parse_nfo os (blank path).

(** [NFO.title] (lines 94-103). *)
Definition title (self : NFO) : option string :=
  match __originaltitle self with
  | Some s => Some s
  | None =>
      match __title self with
      | Some s => Some s
      | None => __localtitle self
      end
  end.

(** One [if] block of [NFO.year]: [Some y] when the block returns [y],
    [None] when control falls through to the next block. *)
Definition or_else (block rest : result (option string)) : result (option string) :=
  r <- block ;;
  match r with
  | Some y => Ok (Some y)
  | None => rest
  end.

(** [NFO.year] (lines 105-129).  In the second block the argument of
    [__parse_releaseDate] is the bound method itself. *)
Definition year (self : NFO) : result (option string) :=
  or_else
    (if truthy_opt (__premiered self) then
       year <- __parse_releaseDate (of_option (__premiered self)) ;;
       m <- Re.re_match YEAR_PATTERN (of_option year) ;;
       Ok (if m then year else None)
     else Ok None)
 (or_else
    (if truthy_opt (__releasedate self) then
       year <- __parse_releaseDate (VMethod "_NFO__parse_releaseDate") ;;
       m <- Re.re_match YEAR_PATTERN (of_option year) ;;
       Ok (if m then year else None)
     else Ok None)
 (or_else
    (if truthy_opt (__year self) then
       m <- Re.re_match YEAR_PATTERN (of_option (__year self)) ;;
       Ok (if m then __year self else None)
     else Ok None)
 (or_else
    (if truthy_opt (__productionyear self) then
       m <- Re.re_match YEAR_PATTERN (of_option (__productionyear self)) ;;
       Ok (if m then __productionyear self else None)
     else Ok None)
    (Ok None)))).

(** [x and re.match(pattern, x)] for an attribute [x]. *)
Definition guard (pattern : Re.regex) (x : option string) : bool :=
  match x with
  | Some s => truthy (VStr s) && Re.matches_prefix pattern s
  | None => false
  end.

(** [NFO.imdb] (lines 131-139). *)
Definition imdb (self : NFO) : option string :=
  if guard IMDB_ID_PATTERN (__unique_id_imdb self) then __unique_id_imdb self
  else if guard IMDB_ID_PATTERN (__imdb self) then __imdb self
  else if guard IMDB_ID_PATTERN (__id self) then __id self
  else None.

(** [NFO.tmdb] (lines 141-149). *)
Definition tmdb (self : NFO) : option string :=
  if guard TMDB_ID_PATTERN (__unique_id_tmdb self) then __unique_id_tmdb self
  else if guard TMDB_ID_PATTERN (__tmdb self) then __tmdb self
  else if guard TMDB_ID_PATTERN (__id self) then __id self
  else None.

(** [NFO.is_complete] (lines 85-92). *)
Definition is_complete (self : NFO) : result bool :=
  if truthy_opt (imdb self) || truthy_opt (tmdb self) then Ok true
  else if truthy_opt (title self) then
    y <- year self ;;
    Ok (truthy_opt y)
  else Ok false.

End NFO.

(** *** class MovieFolder *)

Record MovieFolder : Type := {
  rootDir : string;
  movie : option Video;
  trailer : option Video;
  nfo : option NFO;
}.

Module MovieFolder.

Definition set_movie (v : Video) (f : MovieFolder) : MovieFolder :=
  {| rootDir := rootDir f; movie := Some v; trailer := trailer f; nfo := nfo f |}.

Definition set_trailer (v : Video) (f : MovieFolder) : MovieFolder :=
  {| rootDir := rootDir f; movie := movie f; trailer := Some v; nfo := nfo f |}.

Definition set_nfo (n : NFO) (f : MovieFolder) : MovieFolder :=
  {| rootDir := rootDir f; movie := movie f; trailer := trailer f; nfo := Some n |}.

(** [MovieFolder.hasTrailer], [MovieFolder.hasMovie] *)
Definition hasTrailer (self : MovieFolder) : bool :=
  match trailer self with Some _ => true | None => false end.

Definition hasMovie (self : MovieFolder) : bool :=
  match movie self with Some _ => true | None => false end.

(** [MovieFolder.trailerName], [MovieFolder.trailerDirectory]: [None]
    when the folder has no movie. *)
Definition trailerName (self : MovieFolder) : option string :=
  match movie self with
  | Some m => Some (fst (OsPath.splitext (Video.fileName m)) ++ "-trailer.mp4")
  | None => None
  end.

Definition trailerDirectory (self : MovieFolder) : option string :=
  match movie self with
  | Some m => Some (OsPath.dirname (v_path m))
  | None => None
  end.

(** The object being scanned, with the list of paths handed to ffprobe
    so far. *)
Record Scan : Type := {
  folder : MovieFolder;
  probed : list string;
}.

(** The condition of line 249:
    [(nfo.is_complete and not self.nfo) or
     (nfo.is_complete and nfo.fileSize > self.nfo.fileSize)].
    An [NFO] object is always true, so [not self.nfo] tests for [None]. *)
Definition nfo_condition (os : OS) (new : NFO) (kept : option NFO) : result bool :=
  c <- NFO.is_complete new ;;
  if c && negb (match kept with Some _ => true | None => false end) then Ok true
  else
    c' <- NFO.is_complete new ;;
    if c' then
      match kept with
      | Some old => Ok (NFO.fileSize os old <? NFO.fileSize os new)%Z
      | None => Raise AttributeError
      end
    else Ok false.

(** Lines 238-251: an entry that is a file. *)
Definition scan_file (os : OS) (path : string) (st : Scan) : result Scan :=
  let ext := snd (OsPath.splitext path) in
  if in_list ext VIDEO_EXTENSIONS then
    let '(video, calls) := Video.init os path false false (probed st) in
    if Video.isMovie video
    then Ok {| folder := set_movie video (folder st); probed := calls |}
    else Ok {| folder := set_trailer video (folder st); probed := calls |}
  else if in_list ext NFO_EXTENSIONS then
    new <- NFO.init os path ;;
    replace <- nfo_condition os new (nfo (folder st)) ;;
    if replace
    then Ok {| folder := set_nfo new (folder st); probed := probed st |}
    else Ok st
  else Ok st.

(** Lines 265-269 (and 281-285): one entry of a disc-image directory. *)
Definition scan_disc_entry (os : OS) (dir marker : string) (st : Scan)
    (entry : string) : Scan :=
  if contains marker (lower entry) then
    let '(video, calls) := Video.init os (OsPath.join dir entry) false false (probed st) in
    if negb (Video.isMovie video)
    then {| folder := set_trailer video (folder st); probed := calls |}
    else {| folder := folder st; probed := calls |}
  else st.

(** Lines 258-269 (with "index.bdmv", "index-trailer") and lines 274-285
    (with "VIDEO_TS.IFO", "video_ts-trailer"): the two blocks differ in
    these two strings only. *)
Definition scan_disc (os : OS) (dir index_file marker : string) (st : Scan) : Scan :=
  let disc_file := OsPath.join dir index_file in
  if isfile os disc_file then
    let '(video, calls) := Video.init os disc_file true false (probed st) in
    fold_left (scan_disc_entry os dir marker) (listdir os dir)
      {| folder := set_movie video (folder st); probed := calls |}
  else st.

(** The body of the loop of [MovieFolder.scan] (lines 237-285). *)
Definition scan_item (os : OS) (st : Scan) (name : string) : result Scan :=
  let path := OsPath.join (rootDir (folder st)) name in
  if isfile os path then scan_file os path st
  else if isdir os path then
    if contains "bdmv" (lower path) && isdir os path
    then Ok (scan_disc os path "index.bdmv" "index-trailer" st)
    else if contains "video_ts" (lower path) && isdir os path
    then Ok (scan_disc os path "VIDEO_TS.IFO" "video_ts-trailer" st)
    else Ok st
  else Ok st.

Fixpoint scan_items (os : OS) (st : Scan) (names : list string) : result Scan :=
  match names with
  | [] => Ok st
  | name :: rest =>
      st' <- scan_item os st name ;;
      scan_items os st' rest
  end.

(** [MovieFolder.scan] *)
Definition scan (os : OS) (st : Scan) : result Scan :=
  scan_items os st (listdir os (rootDir (folder st))).

(** [MovieFolder(directory)] *)
Definition init (os : OS) (directory : string) : result Scan :=
  scan os {| folder := {| rootDir := abspath os directory; movie := None;
                          trailer := None; nfo := None |};
             probed := [] |}.

End MovieFolder.

(* ================================================================== *)
(** ** src/TrailerTech.py *)
(* ================================================================== *)

(** The counters of a [TrailerTech] object. *)
Record TrailerTech : Type := {
  directoriesScanned : Z;
  trailersDownloaded : Z;
  trailersFound : Z;
}.

(** The collaborators held by a [TrailerTech] object ([self.tmdb],
    [self.apple], [self.downloader]); their code is outside the two
    modelled files, so they are operations over a state [W] of their own.
    The configured languages and minimum resolution are constants of a run
    and part of [get_trailer_links]. *)
Record Collaborators (W : Type) : Type := {
  get_movie_details : option string -> option string -> option string -> option string -> W -> W;
  getLinks : option string -> option string -> W -> list string * W;
  get_trailer_links : W -> list string * W;
  downloadApple : option string -> option string -> string -> W -> bool * W;
  downloadYouTube : option string -> option string -> string -> W -> bool * W;
}.
Arguments get_movie_details {W} _ _ _ _ _ _.
Arguments getLinks {W} _ _ _ _.
Arguments get_trailer_links {W} _ _.
Arguments downloadApple {W} _ _ _ _ _.
Arguments downloadYouTube {W} _ _ _ _ _.

(** One call of the downloader: which method, and its three arguments. *)
Inductive attempt : Type :=
| AppleAttempt (name dir : option string) (link : string)
| YouTubeAttempt (name dir : option string) (link : string).

(** A downloader call together with the truth value it returned. *)
Abbreviation attempted := (attempt * bool)%type.

(** Where an invocation of [get_Trailer] ends: one constructor per
    [return] of the function (lines 43, 48, 55, 72/80, 84), and two for an
    exception that leaves it, raised while the folder is classified
    (line 45) or while the metadata is read (line 62-63). *)
Inductive outcome : Type :=
| InvalidPath
| NoMovie
| TrailerPresent
| Downloaded (link : string)
| NotFound
| RaisedInClassify (e : exn)
| RaisedInResolve (e : exn).

Module TrailerTech.

Definition init : TrailerTech :=
  {| directoriesScanned := 0; trailersDownloaded := 0; trailersFound := 0 |}.

(** [missingTrailers] of [printStats] (line 28). *)
Definition missingTrailers (self : TrailerTech) : Z :=
  directoriesScanned self - (trailersDownloaded self + trailersFound self).

Definition incr_scanned (self : TrailerTech) : TrailerTech :=
  {| directoriesScanned := directoriesScanned self + 1;
     trailersDownloaded := trailersDownloaded self;
     trailersFound := trailersFound self |}.

Definition incr_downloaded (self : TrailerTech) : TrailerTech :=
  {| directoriesScanned := directoriesScanned self;
     trailersDownloaded := trailersDownloaded self + 1;
     trailersFound := trailersFound self |}.

Definition incr_found (self : TrailerTech) : TrailerTech :=
  {| directoriesScanned := directoriesScanned self;
     trailersDownloaded := trailersDownloaded self;
     trailersFound := trailersFound self + 1 |}.

Section WithCollaborators.

Context {W : Type} (c : Collaborators W).

(** The state an invocation works on: the counters, the collaborators'
    state, and the downloader calls made so far with their results. *)
Record Run : Type := {
  app : TrailerTech;
  world : W;
  attempts : list attempted;
}.

(** One of the two [for link in ...] loops (lines 68-74, 76-82):
    [Some link] when the loop returns after a successful download. *)
Fixpoint try_links
    (download : option string -> option string -> string -> W -> bool * W)
    (mk : option string -> option string -> string -> attempt)
    (name dir : option string) (links : list string)
    (w : W) (log : list attempted) : option string * W * list attempted :=
  match links with
  | [] => (None, w, log)
  | link :: rest =>
      let '(ok, w') := download name dir link w in
      let log' := (log ++ [(mk name dir link, ok)])%list in
      if ok then (Some link, w', log')
      else try_links download mk name dir rest w' log'
  end.

(** Lines 58-64: the two candidate lists, from the overrides or from
    the sidecar record. *)
Definition fetch_candidates (folder : MovieFolder)
    (tmdbid imdbid title year : option string) (w : W)
  : result (list string * list string * W) :=
  if (truthy_opt tmdbid || truthy_opt imdbid) || (truthy_opt title && truthy_opt year)
  then
    let w1 := get_movie_details c tmdbid imdbid title year w in
    let '(appleLinks, w2) := getLinks c title year w1 in
    let '(ytLinks, w3) := get_trailer_links c w2 in
    Ok (appleLinks, ytLinks, w3)
  else
    match nfo folder with
    | None => Raise AttributeError        (* folder.nfo.tmdb on None *)
    | Some n =>
        y <- NFO.year n ;;
        let w1 := get_movie_details c (NFO.tmdb n) (NFO.imdb n) (NFO.title n) y w in
        y' <- NFO.year n ;;
        let '(appleLinks, w2) := getLinks c (NFO.title n) y' w1 in
        let '(ytLinks, w3) := get_trailer_links c w2 in
        Ok (appleLinks, ytLinks, w3)
    end.

(** Lines 68-84: the two loops and the final "not found".  [self] holds
    the counters after line 50. *)
Definition try_downloads (self : TrailerTech) (name dir : option string)
    (appleLinks ytLinks : list string) (w : W) (log : list attempted)
  : outcome * Run :=
  match try_links (downloadApple c) AppleAttempt name dir appleLinks w log with
  | (Some link, w', log') =>
      (Downloaded link,
       {| app := incr_downloaded self; world := w'; attempts := log' |})
  | (None, w', log') =>
      match try_links (downloadYouTube c) YouTubeAttempt name dir ytLinks w' log' with
      | (Some link, w'', log'') =>
          (Downloaded link,
           {| app := incr_downloaded self; world := w''; attempts := log'' |})
      | (None, w'', log'') =>
          (NotFound, {| app := self; world := w''; attempts := log'' |})
      end
  end.

(** [TrailerTech.get_Trailer] (lines 40-84). *)
Definition get_Trailer (os : OS) (movieDir : string)
    (tmdbid imdbid title year : option string) (st : Run) : outcome * Run :=
  if negb (isdir os (abspath os movieDir)) then (InvalidPath, st)
  else
    match MovieFolder.init os movieDir with
    | Raise e => (RaisedInClassify e, st)
    | Ok scanned =>
        let folder := MovieFolder.folder scanned in
        if negb (MovieFolder.hasMovie folder) then (NoMovie, st)
        else
          let self1 := incr_scanned (app st) in
          if MovieFolder.hasTrailer folder then
            (TrailerPresent,
             {| app := incr_found self1; world := world st; attempts := attempts st |})
          else
            match fetch_candidates folder tmdbid imdbid title year (world st) with
            | Raise e =>
                (RaisedInResolve e,
                 {| app := self1; world := world st; attempts := attempts st |})
            | Ok (appleLinks, ytLinks, w) =>
                try_downloads self1 (MovieFolder.trailerName folder)
                  (MovieFolder.trailerDirectory folder) appleLinks ytLinks
                  w (attempts st)
            end
    end.

(** One call [get_Trailer(movieDir, tmdbid, imdbid, title, year)],
    with the file system as it is when the call is made. *)
Record Invocation : Type := {
  i_os : OS;
  i_movieDir : string;
  i_tmdbid : option string;
  i_imdbid : option string;
  i_title : option string;
  i_year : option string;
}.

Definition invoke (i : Invocation) (st : Run) : outcome * Run :=
  get_Trailer (i_os i) (i_movieDir i) (i_tmdbid i) (i_imdbid i) (i_title i) (i_year i) st.

(** A sequence of invocations on the same [TrailerTech] object; an
    invocation that raises leaves the object as it was at that point. *)
Fixpoint run (calls : list Invocation) (st : Run) : list outcome * Run :=
  match calls with
  | [] => ([], st)
  | i :: rest =>
      let '(o, st1) := invoke i st in
      let '(outs, st2) := run rest st1 in
      (o :: outs, st2)
  end.

(** An exception has left [get_Trailer]. *)
Definition raised (o : outcome) : bool :=
  match o with
  | RaisedInClassify _ | RaisedInResolve _ => true
  | _ => false
  end.

(** The loop of [scanLibrary] (lines 92-96) over the names that
    [os.listdir] returned.  [view w] is the file system as it is when the
    collaborators are in state [w]: a download changes it, so each
    [os.path.isdir] and each [get_Trailer] reads it anew.  An exception
    that leaves [get_Trailer] leaves the loop: the list of outcomes then
    ends with it. *)
Fixpoint scan_entries (view : W -> OS) (libraryDir : string)
    (items : list string) (st : Run) : list outcome * Run :=
  match items with
  | [] => ([], st)
  | item :: rest =>
      let os := view (world st) in
      let path := abspath os (OsPath.join libraryDir item) in
      if isdir os path then
        let '(o, st1) := get_Trailer os path None None None None st in
        if raised o then ([o], st1)
        else
          let '(outs, st2) := scan_entries view libraryDir rest st1 in
          (o :: outs, st2)
      else scan_entries view libraryDir rest st
  end.

(** [TrailerTech.scanLibrary] (lines 86-96). *)
Definition scanLibrary (view : W -> OS) (directory : string) (st : Run)
  : list outcome * Run :=
  let os := view (world st) in
  let libraryDir := abspath os directory in
  if negb (isdir os libraryDir) then ([], st)
  else scan_entries view libraryDir (listdir os libraryDir) st.

End WithCollaborators.

Arguments Run : clear implicits.

End TrailerTech.

(* ================================================================== *)
(** * Notions used in the statements *)
(* ================================================================== *)

Local Open Scope string_scope.
Import MovieFolder.
Import TrailerTech.

(** ** Sidecar records *)

(** What [__parse_nfo] stores in [__premiered] and [__releasedate]: a
    result of [__parse_releaseDate], that is [None] or four digits. *)
Definition parsed_date (x : option string) : Prop :=
  match x with
  | None => True
  | Some s => String.length s = 4 /\ isdigit s = true
  end.

Definition dates_parsed (self : NFO) : Prop :=
  parsed_date (__premiered self) /\ parsed_date (__releasedate self).

(** The priority chain in the words of the specification: the first
    source, in order, that is present, non-empty and matches the pattern. *)
Fixpoint first_valid (pattern : Re.regex) (sources : list (option string)) : option string :=
  match sources with
  | [] => None
  | Some s :: rest =>
      if negb (s =? "") && Re.matches_prefix pattern s then Some s
      else first_valid pattern rest
  | None :: rest => first_valid pattern rest
  end.

(** The whole of [s] is a word of [r]: what "the string matches the
    pattern" asks for, and what [re.fullmatch] decides. *)
Fixpoint matches_whole (r : Re.regex) (s : string) : bool :=
  match s with
  | EmptyString => Re.nullable r
  | String c t => matches_whole (Re.deriv c r) t
  end.

(** The kept record after a candidate [new] whose completeness test gave
    [complete], in the words of the specification: an incomplete
    candidate changes nothing; a complete one is kept when nothing is kept
    yet, or when its file is strictly larger than the kept one's. *)
Definition keep (os : OS) (new : NFO) (complete : bool) (st : Scan) : Scan :=
  if complete then
    match nfo (folder st) with
    | None => {| folder := set_nfo new (folder st); probed := probed st |}
    | Some old =>
        if (NFO.fileSize os old <? NFO.fileSize os new)%Z
        then {| folder := set_nfo new (folder st); probed := probed st |}
        else st
    end
  else st.

(** The kept record, if any, passed the completeness test. *)
Definition kept_complete (st : Scan) : Prop :=
  forall k, nfo (folder st) = Some k -> NFO.is_complete k = Ok true.

(** The entry [name] of the scanned directory is a sidecar file that
    parses to the record [new]. *)
Definition sidecar (os : OS) (st : Scan) (name : string) (new : NFO) : Prop :=
  let path := OsPath.join (rootDir (folder st)) name in
  isfile os path = true
  /\ in_list (snd (OsPath.splitext path)) NFO_EXTENSIONS = true
  /\ NFO.init os path = Ok new.

(** A complete record at least as large as [n] is kept. *)
Definition keeps_at_least (os : OS) (n : NFO) (st : Scan) : Prop :=
  exists k, nfo (folder st) = Some k
            /\ NFO.is_complete k = Ok true
            /\ (NFO.fileSize os n <= NFO.fileSize os k)%Z.

(** ** File extensions *)

(** How lines 239 and 247 of [scan] sort a file entry. *)
Inductive file_class : Type := VideoFile | SidecarFile | Ignored.

Definition ext_of (path : string) : string := snd (OsPath.splitext path).

Definition classify (path : string) : file_class :=
  if in_list (ext_of path) VIDEO_EXTENSIONS then VideoFile
  else if in_list (ext_of path) NFO_EXTENSIONS then SidecarFile
  else Ignored.

(** The scan step on the file [path] hands it to ffprobe: what line 240
    does with a file whose extension is found in [VIDEO_EXTENSIONS]. *)
Definition handed_to_ffprobe (os : OS) (st : Scan) (path : string) : Prop :=
  exists st', scan_file os path st = Ok st'
              /\ probed st' = (probed st ++ [path])%list.

(** C4 as the claim states it: two files whose extensions differ in
    letter case only are classified alike, so that the scan step hands
    both of them to ffprobe or neither. *)
Definition extension_case_insensitive : Prop :=
  forall os st path1 path2,
    lower (ext_of path1) = lower (ext_of path2) ->
    classify path1 = classify path2
    /\ (handed_to_ffprobe os st path1 <-> handed_to_ffprobe os st path2).

(** ** Disc-image directories *)

(** [Video(path)]: the object whose duration ffprobe (or the fallback)
    gives. *)
Definition probe (os : OS) (path : string) : Video :=
  {| v_path := path; duration := Video.get_duration os path |}.

(** The children of a disc-image directory whose name carries the
    trailer marker, in listing order. *)
Definition marked_children (os : OS) (dir marker : string) : list string :=
  List.filter (fun e => contains marker (lower e)) (listdir os dir).

(** Those of them that probing classifies as non-movies. *)
Definition disc_trailers (os : OS) (dir marker : string) : list Video :=
  List.filter (fun v => negb (Video.isMovie v))
    (map (fun e => probe os (OsPath.join dir e)) (marked_children os dir marker)).

(** The entry sets [self.movie] when the scan processes it. *)
Definition sets_movie (os : OS) (root name : string) : bool :=
  let path := OsPath.join root name in
  if isfile os path then
    in_list (ext_of path) VIDEO_EXTENSIONS && Video.isMovie (probe os path)
  else if isdir os path then
    if contains "bdmv" (lower path) then isfile os (OsPath.join path "index.bdmv")
    else if contains "video_ts" (lower path) then isfile os (OsPath.join path "VIDEO_TS.IFO")
    else false
  else false.

(** C9 as the claim states it: whenever a scanned folder has such a
    subdirectory, the movie of the classification result is the Video of
    its index file. *)
Definition disc_movie_is_result : Prop :=
  forall (os : OS) (directory name : string) (st' : Scan),
    MovieFolder.init os directory = Ok st' ->
    In name (listdir os (abspath os directory)) ->
    let sub := OsPath.join (abspath os directory) name in
    isfile os sub = false ->
    isdir os sub = true ->
    contains "bdmv" (lower sub) = true ->
    isfile os (OsPath.join sub "index.bdmv") = true ->
    movie (folder st')
    = Some {| v_path := OsPath.join sub "index.bdmv"; duration := 601%float |}.

(** ** The orchestrator *)

(** The downloader calls that the two candidate lists stand for, in the
    order of the specification: the scraper's list, then the catalog's. *)
Definition candidates (name dir : option string) (appleLinks ytLinks : list string)
  : list attempt :=
  (map (AppleAttempt name dir) appleLinks ++ map (YouTubeAttempt name dir) ytLinks)%list.

Definition link_of (a : attempt) : string :=
  match a with
  | AppleAttempt _ _ link => link
  | YouTubeAttempt _ _ link => link
  end.

Definition failed (a : attempted) : Prop := snd a = false.

(** One call of the downloader, as lines 69 and 77 make it. *)
Definition download {W : Type} (c : Collaborators W) (a : attempt) (w : W) : bool * W :=
  match a with
  | AppleAttempt name dir link => downloadApple c name dir link w
  | YouTubeAttempt name dir link => downloadYouTube c name dir link w
  end.

(** The downloader called on each of [calls] in turn, from the state
    [w]: every call with the truth value that the downloader returned for
    it, and the state after the last one. *)
Fixpoint answers {W : Type} (c : Collaborators W) (calls : list attempt) (w : W)
  : list attempted * W :=
  match calls with
  | [] => ([], w)
  | a :: rest =>
      let '(ok, w1) := download c a w in
      let '(log, w') := answers c rest w1 in
      ((a, ok) :: log, w')
  end.

(** What an invocation that ends in [o] does to the counters. *)
Definition counters_after (o : outcome) (self : TrailerTech) : TrailerTech :=
  match o with
  | InvalidPath | NoMovie | RaisedInClassify _ => self
  | TrailerPresent => incr_found (incr_scanned self)
  | Downloaded _ => incr_downloaded (incr_scanned self)
  | NotFound | RaisedInResolve _ => incr_scanned self
  end.

Definition tally (p : outcome -> bool) (outs : list outcome) : Z :=
  Z.of_nat (length (List.filter p outs)).

Definition classified (o : outcome) : bool :=
  match o with
  | InvalidPath | NoMovie | RaisedInClassify _ => false
  | _ => true
  end.

Definition is_downloaded (o : outcome) : bool :=
  match o with Downloaded _ => true | _ => false end.

Definition is_present (o : outcome) : bool :=
  match o with TrailerPresent => true | _ => false end.

Definition without_trailer (o : outcome) : bool :=
  match o with NotFound | RaisedInResolve _ => true | _ => false end.

(** ** Notions used in the further properties *)

(** A "uniqueid" element (tag compared in lower case) that has no "type"
    attribute. *)
Definition lacks_type (item : Element) : Prop :=
  lower (tag item) = "uniqueid" /\ attrib item !! "type" = None.

(** What [__parse_id] leaves in the generic-tag fields, and what
    [__parse_nfo] leaves in [__id]. *)
Definition ids_parsed (self : NFO) : Prop :=
  __id self = None
  /\ (forall s, __imdb self = Some s -> s <> "" /\ startswith (lower s) "tt" = true)
  /\ (forall s, __tmdb self = Some s -> isdigit s = true /\ startswith (lower s) "tt" = false).

(** ** The result of a classification *)

(** [new] when there is one, else what was there. *)
Definition or_kept {A : Type} (new old : option A) : option A :=
  match new with
  | Some v => Some v
  | None => old
  end.

(** The Video that lines 258-262 or 274-278 store in [self.movie] for the
    directory [path]: the first marker found in the path decides which
    index file is looked for. *)
Definition disc_movie (os : OS) (path : string) : option Video :=
  if contains "bdmv" (lower path) then
    if isfile os (OsPath.join path "index.bdmv")
    then Some {| v_path := OsPath.join path "index.bdmv"; duration := 601%float |}
    else None
  else if contains "video_ts" (lower path) then
    if isfile os (OsPath.join path "VIDEO_TS.IFO")
    then Some {| v_path := OsPath.join path "VIDEO_TS.IFO"; duration := 601%float |}
    else None
  else None.

(** The Video that the entry [name] of the scanned directory stores in
    [self.movie], if it stores one. *)
Definition entry_movie (os : OS) (root name : string) : option Video :=
  let path := OsPath.join root name in
  if isfile os path then
    if in_list (ext_of path) VIDEO_EXTENSIONS && Video.isMovie (probe os path)
    then Some (probe os path)
    else None
  else if isdir os path then disc_movie os path
  else None.

(** The Videos that the entry [name] stores in [self.trailer], one after
    the other. *)
Definition entry_trailers (os : OS) (root name : string) : list Video :=
  let path := OsPath.join root name in
  if isfile os path then
    if in_list (ext_of path) VIDEO_EXTENSIONS && negb (Video.isMovie (probe os path))
    then [probe os path]
    else []
  else if isdir os path then
    if contains "bdmv" (lower path) then
      if isfile os (OsPath.join path "index.bdmv")
      then disc_trailers os path "index-trailer"
      else []
    else if contains "video_ts" (lower path) then
      if isfile os (OsPath.join path "VIDEO_TS.IFO")
      then disc_trailers os path "video_ts-trailer"
      else []
    else []
  else [].

Definition listed_movies (os : OS) (root : string) (names : list string) : list Video :=
  flat_map (fun name => match entry_movie os root name with
                        | Some v => [v]
                        | None => []
                        end) names.

Definition listed_trailers (os : OS) (root : string) (names : list string) : list Video :=
  flat_map (entry_trailers os root) names.

(** The entry is a file with a sidecar extension. *)
Definition sidecar_file (os : OS) (root name : string) : bool :=
  isfile os (OsPath.join root name)
  && in_list (ext_of (OsPath.join root name)) NFO_EXTENSIONS.

(** The entry is a sidecar file whose constructor or whose completeness
    test raises. *)
Definition sidecar_raises (os : OS) (root name : string) : Prop :=
  sidecar_file os root name = true
  /\ exists e,
      NFO.init os (OsPath.join root name) = Raise e
      \/ exists n, NFO.init os (OsPath.join root name) = Ok n
                   /\ NFO.is_complete n = Raise e.

(** The entry is a sidecar file whose constructor or whose completeness
    test raises [e]. *)
Definition sidecar_raises_with (os : OS) (root name : string) (e : exn) : Prop :=
  sidecar_file os root name = true
  /\ (NFO.init os (OsPath.join root name) = Raise e
      \/ exists n, NFO.init os (OsPath.join root name) = Ok n
                   /\ NFO.is_complete n = Raise e).

(** The character [c] does not occur in [s]. *)
Definition free_of (c : ascii) (s : string) : Prop :=
  all_chars (fun a => negb (Ascii.eqb a c)) s = true.

(** ** Invocations *)

(** The test of line 58 on the four optional arguments. *)
Definition overrides_given (tmdbid imdbid title year : option string) : bool :=
  (truthy_opt tmdbid || truthy_opt imdbid) || (truthy_opt title && truthy_opt year).

(** The invocation came to the download loops. *)
Definition tried_downloads (o : outcome) : bool :=
  match o with
  | Downloaded _ | NotFound => true
  | _ => false
  end.

(** The outcomes up to the first exception, that one included. *)
Fixpoint until_raised (outs : list outcome) : list outcome :=
  match outs with
  | [] => []
  | o :: rest => if raised o then [o] else o :: until_raised rest
  end.

(** The invocation that line 96 makes for the entry [item] of the
    library directory. *)
Definition library_call (os : OS) (libraryDir item : string) : Invocation :=
  {| i_os := os;
     i_movieDir := abspath os (OsPath.join libraryDir item);
     i_tmdbid := None; i_imdbid := None; i_title := None; i_year := None |}.

(** The invocations of a library scan that no exception ends: one for
    each listed entry that is a directory, in listing order. *)
Definition library_calls (os : OS) (libraryDir : string) : list Invocation :=
  map (library_call os libraryDir)
    (List.filter (fun item => isdir os (abspath os (OsPath.join libraryDir item)))
       (listdir os libraryDir)).

(** Counters that a run can have reached from zero. *)
Definition sane (self : TrailerTech) : Prop :=
  (0 <= trailersDownloaded self)%Z
  /\ (0 <= trailersFound self)%Z
  /\ (trailersDownloaded self + trailersFound self <= directoriesScanned self)%Z.

(** The five fields that [__parse_nfo] fills with the text of an element
    as it is, and the tag of each. *)
Inductive raw_field : Type :=
| FYear | FProductionYear | FTitle | FOriginalTitle | FLocalTitle.

Definition field_tag (f : raw_field) : string :=
  match f with
  | FYear => "year"
  | FProductionYear => "productionyear"
  | FTitle => "title"
  | FOriginalTitle => "originaltitle"
  | FLocalTitle => "localtitle"
  end.

Definition field_of (f : raw_field) (self : NFO) : option string :=
  match f with
  | FYear => __year self
  | FProductionYear => __productionyear self
  | FTitle => __title self
  | FOriginalTitle => __originaltitle self
  | FLocalTitle => __localtitle self
  end.

(** The elements whose tag is the one of [f], letter case apart. *)
Definition tagged (f : raw_field) (items : list Element) : list Element :=
  List.filter (fun item => lower (tag item) =? field_tag f) items.

(** The paths that the entry [name] hands to ffprobe. *)
Definition entry_probes (os : OS) (root name : string) : list string :=
  let path := OsPath.join root name in
  if isfile os path then
    if in_list (ext_of path) VIDEO_EXTENSIONS then [path] else []
  else if isdir os path then
    if contains "bdmv" (lower path) then
      if isfile os (OsPath.join path "index.bdmv")
      then map (OsPath.join path) (marked_children os path "index-trailer")
      else []
    else if contains "video_ts" (lower path) then
      if isfile os (OsPath.join path "VIDEO_TS.IFO")
      then map (OsPath.join path) (marked_children os path "video_ts-trailer")
      else []
    else []
  else [].


(* ================================================================== *)
(** * Concrete folders, sidecar files and collaborators *)
(* ================================================================== *)

(** The scan state [MovieFolder.__init__] starts from. *)
Definition start (os : OS) (directory : string) : Scan :=
  {| folder := {| rootDir := abspath os directory; movie := None;
                  trailer := None; nfo := None |};
     probed := [] |}.

(** The sidecar  <movie><title>Film</title><release_date>2019</release_date></movie>. *)
Definition release_date_sidecar : list Element :=
  [ {| tag := "title"; attrib := ∅; text := Some "Film" |};
    {| tag := "release_date"; attrib := ∅; text := Some "2019" |} ].

(** /lib/Film holds movie.mkv (1800 s) and nothing else. *)
Definition os_movie_only : OS :=
  {| abspath := fun p => p;
     isdir := fun p => p =? "/lib/Film";
     isfile := fun p => p =? "/lib/Film/movie.mkv";
     listdir := fun p => if p =? "/lib/Film" then ["movie.mkv"] else [];
     getsize := fun _ => 700000000%Z;
     ffprobe := fun p => if p =? "/lib/Film/movie.mkv" then Some 1800%float else None;
     et_parse := fun _ => XmlIOError |}.

(** /lib/Film holds Film.MKV (1800 s) and nothing else. *)
Definition os_upper_case : OS :=
  {| abspath := fun p => p;
     isdir := fun p => p =? "/lib/Film";
     isfile := fun p => p =? "/lib/Film/Film.MKV";
     listdir := fun p => if p =? "/lib/Film" then ["Film.MKV"] else [];
     getsize := fun _ => 700000000%Z;
     ffprobe := fun p => if p =? "/lib/Film/Film.MKV" then Some 1800%float else None;
     et_parse := fun _ => XmlIOError |}.

(** /lib/Film holds the directory BDMV with index.bdmv and
    index-trailer.mp4 (90 s). *)
Definition os_bluray : OS :=
  {| abspath := fun p => p;
     isdir := fun p => (p =? "/lib/Film") || (p =? "/lib/Film/BDMV");
     isfile := fun p => (p =? "/lib/Film/BDMV/index.bdmv")
                        || (p =? "/lib/Film/BDMV/index-trailer.mp4");
     listdir := fun p => if p =? "/lib/Film" then ["BDMV"]
                         else if p =? "/lib/Film/BDMV"
                              then ["index.bdmv"; "index-trailer.mp4"]
                              else [];
     getsize := fun _ => 1000%Z;
     ffprobe := fun p => if p =? "/lib/Film/BDMV/index-trailer.mp4"
                         then Some 90%float else None;
     et_parse := fun _ => XmlIOError |}.

(** The same, with the file extras.mkv (1800 s) listed after BDMV. *)
Definition os_bluray_then_file : OS :=
  {| abspath := fun p => p;
     isdir := isdir os_bluray;
     isfile := fun p => isfile os_bluray p || (p =? "/lib/Film/extras.mkv");
     listdir := fun p => if p =? "/lib/Film" then ["BDMV"; "extras.mkv"]
                         else listdir os_bluray p;
     getsize := fun _ => 1000%Z;
     ffprobe := fun p => if p =? "/lib/Film/extras.mkv" then Some 1800%float
                         else ffprobe os_bluray p;
     et_parse := fun _ => XmlIOError |}.

(** /lib/Film holds three sidecar files: a.nfo (100 bytes, with a valid
    textual id), b.nfo (900 bytes, a title and nothing else) and c.xml
    (300 bytes, with a valid numeric id). *)
Definition os_sidecars : OS :=
  {| abspath := fun p => p;
     isdir := fun p => p =? "/lib/Film";
     isfile := fun p => (p =? "/lib/Film/a.nfo") || (p =? "/lib/Film/b.nfo")
                        || (p =? "/lib/Film/c.xml");
     listdir := fun p => if p =? "/lib/Film" then ["a.nfo"; "b.nfo"; "c.xml"] else [];
     getsize := fun p => if p =? "/lib/Film/a.nfo" then 100%Z
                         else if p =? "/lib/Film/b.nfo" then 900%Z
                         else 300%Z;
     ffprobe := fun _ => None;
     et_parse := fun p =>
       if p =? "/lib/Film/a.nfo" then
         XmlRoot [ {| tag := "uniqueid"; attrib := {[ "type" := "imdb" ]};
                      text := Some "tt0111161" |} ]
       else if p =? "/lib/Film/b.nfo" then
         XmlRoot [ {| tag := "title"; attrib := ∅; text := Some "Film" |} ]
       else if p =? "/lib/Film/c.xml" then
         XmlRoot [ {| tag := "tmdbid"; attrib := ∅; text := Some "278" |} ]
       else XmlIOError |}.

(** A "uniqueid" element without a "type" attribute. *)
Definition untyped_uniqueid : Element :=
  {| tag := "uniqueid"; attrib := ∅; text := Some "tt0111161" |}.

(** /lib/Film/movie.nfo is  <movie><title>Film</title><uniqueid>tt0111161</uniqueid></movie>. *)
Definition os_untyped_uniqueid : OS :=
  {| abspath := fun p => p;
     isdir := fun p => p =? "/lib/Film";
     isfile := fun p => p =? "/lib/Film/movie.nfo";
     listdir := fun p => if p =? "/lib/Film" then ["movie.nfo"] else [];
     getsize := fun _ => 64%Z;
     ffprobe := fun _ => None;
     et_parse := fun p =>
       if p =? "/lib/Film/movie.nfo" then
         XmlRoot ([ {| tag := "title"; attrib := ∅; text := Some "Film" |} ]
                  ++ untyped_uniqueid :: [])
       else XmlIOError |}.

(** /lib/Film/movie.nfo is
    <movie><tmdbid>123456789012345</tmdbid><imdbid>tt0111161 (1994)</imdbid></movie>. *)
Definition os_long_ids : OS :=
  {| abspath := fun p => p;
     isdir := fun p => p =? "/lib/Film";
     isfile := fun p => p =? "/lib/Film/movie.nfo";
     listdir := fun p => if p =? "/lib/Film" then ["movie.nfo"] else [];
     getsize := fun _ => 96%Z;
     ffprobe := fun _ => None;
     et_parse := fun p =>
       if p =? "/lib/Film/movie.nfo" then
         XmlRoot [ {| tag := "tmdbid"; attrib := ∅; text := Some "123456789012345" |};
                   {| tag := "imdbid"; attrib := ∅; text := Some "tt0111161 (1994)" |} ]
       else XmlIOError |}.

(** A record whose unique-id field fails the textual pattern and whose
    generic-tag field passes it. *)
Definition record_with_bad_uniqueid : NFO :=
  NFO.set_imdb (Some "tt0111161")
    (NFO.set_unique_id_imdb (Some "0111161") (NFO.blank "/lib/Film/movie.nfo")).

(** Collaborators that find nothing and download nothing. *)
Definition no_candidates : Collaborators unit :=
  {| get_movie_details := fun _ _ _ _ w => w;
     getLinks := fun _ _ w => ([], w);
     get_trailer_links := fun w => ([], w);
     downloadApple := fun _ _ _ w => (false, w);
     downloadYouTube := fun _ _ _ w => (false, w) |}.

(** The scraper finds nothing, the catalog gives two links, and only the
    second one can be downloaded. *)
Definition two_catalog_links : Collaborators unit :=
  {| get_movie_details := fun _ _ _ _ w => w;
     getLinks := fun _ _ w => ([], w);
     get_trailer_links := fun w => (["yt/first"; "yt/second"], w);
     downloadApple := fun _ _ _ w => (false, w);
     downloadYouTube := fun _ _ link w => (link =? "yt/second", w) |}.

Definition fresh_run : Run unit :=
  {| app := TrailerTech.init; world := tt; attempts := [] |}.

(** ** Further folders and records *)

(** /lib/Film holds the directory VIDEO_TS with VIDEO_TS.IFO and
    video_ts-trailer.mp4 (90 s). *)
Definition os_dvd : OS :=
  {| abspath := fun p => p;
     isdir := fun p => (p =? "/lib/Film") || (p =? "/lib/Film/VIDEO_TS");
     isfile := fun p => (p =? "/lib/Film/VIDEO_TS/VIDEO_TS.IFO")
                        || (p =? "/lib/Film/VIDEO_TS/video_ts-trailer.mp4");
     listdir := fun p => if p =? "/lib/Film" then ["VIDEO_TS"]
                         else if p =? "/lib/Film/VIDEO_TS"
                              then ["VIDEO_TS.IFO"; "video_ts-trailer.mp4"]
                              else [];
     getsize := fun _ => 1000%Z;
     ffprobe := fun p => if p =? "/lib/Film/VIDEO_TS/video_ts-trailer.mp4"
                         then Some 90%float else None;
     et_parse := fun _ => XmlIOError |}.

(** /bdmv/Film holds the directory VIDEO_TS with VIDEO_TS.IFO: a DVD image
    below a directory whose own name is the Blu-ray marker. *)
Definition os_dvd_under_bdmv : OS :=
  {| abspath := fun p => p;
     isdir := fun p => (p =? "/bdmv/Film") || (p =? "/bdmv/Film/VIDEO_TS");
     isfile := fun p => p =? "/bdmv/Film/VIDEO_TS/VIDEO_TS.IFO";
     listdir := fun p => if p =? "/bdmv/Film" then ["VIDEO_TS"]
                         else if p =? "/bdmv/Film/VIDEO_TS" then ["VIDEO_TS.IFO"]
                              else [];
     getsize := fun _ => 1000%Z;
     ffprobe := fun _ => None;
     et_parse := fun _ => XmlIOError |}.

(** /lib/Film holds Film.mkv, which ffprobe cannot read. *)
Definition os_unprobed : OS :=
  {| abspath := fun p => p;
     isdir := fun p => p =? "/lib/Film";
     isfile := fun p => p =? "/lib/Film/Film.mkv";
     listdir := fun p => if p =? "/lib/Film" then ["Film.mkv"] else [];
     getsize := fun _ => 700000000%Z;
     ffprobe := fun _ => None;
     et_parse := fun _ => XmlIOError |}.

(** The library /lib holds the folder Film and the file readme.txt;
    /lib/Film holds movie.mkv (1800 s) and movie.nfo, which is
    <movie><title>Film</title><year>1994</year><imdbid>tt0111161</imdbid></movie>. *)
Definition os_library : OS :=
  {| abspath := fun p => p;
     isdir := fun p => (p =? "/lib") || (p =? "/lib/Film");
     isfile := fun p => (p =? "/lib/readme.txt") || (p =? "/lib/Film/movie.mkv")
                        || (p =? "/lib/Film/movie.nfo");
     listdir := fun p => if p =? "/lib" then ["Film"; "readme.txt"]
                         else if p =? "/lib/Film" then ["movie.mkv"; "movie.nfo"]
                              else [];
     getsize := fun _ => 1000%Z;
     ffprobe := fun p => if p =? "/lib/Film/movie.mkv" then Some 1800%float else None;
     et_parse := fun p =>
       if p =? "/lib/Film/movie.nfo" then
         XmlRoot [ {| tag := "title"; attrib := ∅; text := Some "Film" |};
                   {| tag := "year"; attrib := ∅; text := Some "1994" |};
                   {| tag := "imdbid"; attrib := ∅; text := Some "tt0111161" |} ]
       else XmlIOError |}.

(** A record with a title and a four-digit release date, and no id. *)
Definition record_with_release_date : NFO :=
  NFO.set_releasedate (Some "2019")
    (NFO.set_title (Some "Film") (NFO.blank "/lib/Film/movie.nfo")).

(** <title>Film</title><TITLE>Film (1994)</TITLE> *)
Definition two_titles : list Element :=
  [ {| tag := "title"; attrib := ∅; text := Some "Film" |};
    {| tag := "TITLE"; attrib := ∅; text := Some "Film (1994)" |} ].

(** A classified folder whose movie is the index file of a Blu-ray image. *)
Definition bluray_folder : MovieFolder :=
  {| rootDir := "/lib/Film";
     movie := Some {| v_path := "/lib/Film/BDMV/index.bdmv"; duration := 601%float |};
     trailer := None;
     nfo := None |}.

(** A classified folder whose movie is a file of the folder. *)
Definition file_folder : MovieFolder :=
  {| rootDir := "/lib/Film";
     movie := Some {| v_path := "/lib/Film/movie.mkv"; duration := 1800%float |};
     trailer := None;
     nfo := None |}.

(** One call on /lib/Film of [os_movie_only], without optional arguments. *)
Definition call_movie_only : Invocation :=
  {| i_os := os_movie_only; i_movieDir := "/lib/Film";
     i_tmdbid := None; i_imdbid := None; i_title := None; i_year := None |}.

(* ================================================================== *)
(** * Properties *)
(* ================================================================== *)

(** ** The library models on examples *)

Example splitext_last_dot :
  OsPath.splitext "/lib/Film (2019)/Film.2019.mkv" = ("/lib/Film (2019)/Film.2019", ".mkv").
Proof. reflexivity. Qed.

Example splitext_leading_dot : OsPath.splitext "/lib/.nfo" = ("/lib/.nfo", "").
Proof. reflexivity. Qed.

Example splitext_dot_in_directory : OsPath.splitext "/lib.d/Film" = ("/lib.d/Film", "").
Proof. reflexivity. Qed.

Example join_relative : OsPath.join "/lib/Film" "BDMV" = "/lib/Film/BDMV".
Proof. reflexivity. Qed.

Example join_absolute : OsPath.join "/lib/Film" "/tmp/x" = "/tmp/x".
Proof. reflexivity. Qed.

Example dirname_basename :
  OsPath.dirname "/lib/Film/BDMV/index.bdmv" = "/lib/Film/BDMV"
  /\ OsPath.basename "/lib/Film/BDMV/index.bdmv" = "index.bdmv".
Proof. split; reflexivity. Qed.

Example imdb_pattern_examples :
  Re.matches_prefix IMDB_ID_PATTERN "tt0111161" = true
  /\ Re.matches_prefix IMDB_ID_PATTERN "ev0000003/1995-2" = true
  /\ Re.matches_prefix IMDB_ID_PATTERN "tt011116" = false
  /\ Re.matches_prefix IMDB_ID_PATTERN "TT0111161" = false.
Proof. repeat split; reflexivity. Qed.

Example tmdb_pattern_examples :
  Re.matches_prefix TMDB_ID_PATTERN "278" = true
  /\ Re.matches_prefix TMDB_ID_PATTERN "7" = false
  /\ Re.matches_prefix TMDB_ID_PATTERN "0278" = false.
Proof. repeat split; reflexivity. Qed.

(** [re.match] looks at the start of the string only. *)
Example year_pattern_examples :
  Re.matches_prefix YEAR_PATTERN "2019" = true
  /\ Re.matches_prefix YEAR_PATTERN "2019-05-03" = true
  /\ Re.matches_prefix YEAR_PATTERN "in 2019" = false.
Proof. repeat split; reflexivity. Qed.

(** ** The matcher decides prefix membership *)

Lemma string_app_nil_inv (u v : string) : u ++ v = "" -> u = "" /\ v = "".
Proof. destruct u; simpl; [auto | discriminate]. Qed.

Lemma string_app_cons_inv (u v : string) (c : ascii) (w : string) :
  u ++ v = String c w ->
  (u = "" /\ v = String c w) \/ (exists u', u = String c u' /\ w = u' ++ v).
Proof.
  destruct u as [|a u]; simpl; intros H.
  - left; auto.
  - right. injection H as -> <-. eauto.
Qed.

(** Inversion of a word of [Cat r s], splitting the concatenation that
    produced the empty word or a word with a first character. *)
Ltac split_cat :=
  match goal with
  | H : ?u ++ ?v = "" |- _ =>
      apply string_app_nil_inv in H as [-> ->]
  | H : ?u ++ ?v = String _ _ |- _ =>
      apply string_app_cons_inv in H as [[-> ->]|(? & -> & ->)]
  end.

Lemma nullable_lang (r : Re.regex) : Re.nullable r = true <-> Re.lang r "".
Proof.
  induction r as [| |p|r IHr s IHs|r IHr s IHs]; simpl.
  - split; [discriminate | inversion 1].
  - split; [constructor | reflexivity].
  - split; [discriminate | inversion 1].
  - rewrite andb_true_iff, IHr, IHs. split.
    + intros [Hr Hs]. change "" with ("" ++ ""). now constructor.
    + inversion 1; subst. split_cat. auto.
  - rewrite orb_true_iff, IHr, IHs. split.
    + intros [H|H]; [now apply Re.L_alt_l | now apply Re.L_alt_r].
    + inversion 1; subst; auto.
Qed.

Lemma lang_cat_cons (c : ascii) (r s : Re.regex) (u v : string) :
  Re.lang r (String c u) -> Re.lang s v -> Re.lang (Re.Cat r s) (String c (u ++ v)).
Proof.
  intros Hu Hv. change (String c (u ++ v)) with (String c u ++ v). now constructor.
Qed.

Lemma deriv_lang (c : ascii) (r : Re.regex) :
  forall w, Re.lang (Re.deriv c r) w <-> Re.lang r (String c w).
Proof.
  induction r as [| |p|r IHr s IHs|r IHr s IHs]; simpl; intros w.
  - split; inversion 1.
  - split; inversion 1.
  - destruct (p c) eqn:Hp; split.
    + inversion 1; subst. now constructor.
    + inversion 1; subst. constructor.
    + inversion 1.
    + inversion 1; subst. congruence.
  - assert (Hcat : Re.lang (Re.Cat (Re.deriv c r) s) w ->
                   Re.lang (Re.Cat r s) (String c w)).
    { inversion 1; subst. apply lang_cat_cons; [now apply IHr | assumption]. }
    destruct (Re.nullable r) eqn:Hn; split.
    + inversion 1; subst; [now apply Hcat|].
      apply nullable_lang in Hn.
      change (String c w) with ("" ++ String c w).
      constructor; [assumption | now apply IHs].
    + inversion 1; subst. split_cat.
      * apply Re.L_alt_r. now apply IHs.
      * apply Re.L_alt_l. constructor; [now apply IHr | assumption].
    + apply Hcat.
    + inversion 1; subst. split_cat.
      * match goal with H : Re.lang r "" |- _ => apply nullable_lang in H end.
        congruence.
      * constructor; [now apply IHr | assumption].
  - split.
    + inversion 1; subst; [apply Re.L_alt_l | apply Re.L_alt_r];
        [now apply IHr | now apply IHs].
    + inversion 1; subst; [apply Re.L_alt_l | apply Re.L_alt_r];
        [now apply IHr | now apply IHs].
Qed.

(** [re.match] succeeds exactly when some prefix of the string is a word
    of the pattern. *)
Lemma matches_prefix_lang (s : string) :
  forall r, Re.matches_prefix r s = true <->
            exists u v, s = u ++ v /\ Re.lang r u.
Proof.
  induction s as [|c s IH]; intros r; simpl.
  - rewrite orb_false_r, nullable_lang. split.
    + intros H. exists "", "". auto.
    + intros (u & v & Heq & Hu). symmetry in Heq.
      apply string_app_nil_inv in Heq as [-> _]. assumption.
  - rewrite orb_true_iff, nullable_lang, IH. split.
    + intros [H|(u & v & -> & Hu)].
      * exists "", (String c s). auto.
      * exists (String c u), v. split; [reflexivity | now apply deriv_lang].
    + intros (u & v & Heq & Hu). symmetry in Heq.
      apply string_app_cons_inv in Heq as [[-> _]|(u' & -> & ->)].
      * now left.
      * right. exists u', v. split; [reflexivity | now apply deriv_lang].
Qed.

Lemma matches_whole_lang (s : string) :
  forall r, matches_whole r s = true <-> Re.lang r s.
Proof.
  induction s as [|c s IH]; intros r; simpl.
  - apply nullable_lang.
  - rewrite IH. apply deriv_lang.
Qed.

(* ------------------------------------------------------------------ *)
(** ** Sidecar records: release dates, years and ids *)
(* ------------------------------------------------------------------ *)

Lemma strptime_year_raises (s : string) : NFO.strptime_year s = Raise NameError.
Proof. reflexivity. Qed.

(** What [__parse_releaseDate] returns on a string: the string itself when
    it has four characters that are all digits, and [None] otherwise. *)
Lemma parse_releaseDate_str (s : string) :
  NFO.__parse_releaseDate (VStr s)
  = Ok (if (String.length s =? 4)%nat && isdigit s then Some s else None).
Proof.
  unfold NFO.__parse_releaseDate. simpl.
  destruct (s =? "") eqn:He; simpl.
  - apply String.eqb_eq in He. subst. reflexivity.
  - destruct ((String.length s =? 4)%nat && isdigit s); reflexivity.
Qed.

Lemma parse_releaseDate_opt (t : option string) :
  exists y, NFO.__parse_releaseDate (of_option t) = Ok y.
Proof.
  destruct t as [s|]; simpl.
  - rewrite parse_releaseDate_str. eauto.
  - eauto.
Qed.

(** The bound method handed over at line 114 has no length. *)
Lemma parse_releaseDate_method (name : string) :
  NFO.__parse_releaseDate (VMethod name) = Raise TypeError.
Proof. reflexivity. Qed.

(** C2: of the three cases of the claim, the code has the first and the
    third: a four-digit string is returned unchanged, and every other
    string yields no year.  A full year-month-day date is among the
    "other" strings: [datetime] is never imported, the lookup raises
    [NameError] inside the [try], and the bare [except] returns [None],
    so "2019-05-03" is not reduced to "2019". *)
Theorem parse_releaseDate_full_date_lost :
  (forall s, NFO.__parse_releaseDate (VStr s)
             = Ok (if (String.length s =? 4)%nat && isdigit s then Some s else None))
  /\ NFO.__parse_releaseDate (VStr "2019") = Ok (Some "2019")
  /\ NFO.__parse_releaseDate (VStr "2019-05-03") = Ok None.
Proof.
  split; [exact parse_releaseDate_str|]. split; reflexivity.
Qed.

(** The second block of [NFO.year] raises as soon as it is entered. *)
Lemma year_release_date_raises (self : NFO) :
  truthy_opt (__premiered self) = false ->
  truthy_opt (__releasedate self) = true ->
  NFO.year self = Raise TypeError.
Proof.
  intros Hp Hr. unfold NFO.year. rewrite Hp, Hr. reflexivity.
Qed.

(** C3: a record whose only year source is a valid release date.  The
    claim has the accessor return "2019"; the code raises [TypeError],
    because line 114 passes the method [__parse_releaseDate] to itself
    instead of the stored release date.  The completeness test of the same
    record raises as well. *)
Theorem year_release_date_type_error :
  exists n,
    NFO.parse_items (NFO.blank "/lib/Film/movie.nfo") release_date_sidecar = Ok n
    /\ __releasedate n = Some "2019"
    /\ Re.matches_prefix YEAR_PATTERN "2019" = true
    /\ NFO.year n = Raise TypeError
    /\ NFO.is_complete n = Raise TypeError.
Proof.
  eexists. split; [vm_compute; reflexivity|].
  repeat split; vm_compute; reflexivity.
Qed.

Lemma guard_true (pattern : Re.regex) (x : option string) :
  NFO.guard pattern x = true ->
  exists s, x = Some s /\ s <> "" /\ Re.matches_prefix pattern s = true.
Proof.
  destruct x as [s|]; simpl; [|discriminate].
  rewrite andb_true_iff, negb_true_iff. intros [He Hm].
  exists s. repeat split; [|assumption].
  intros ->. discriminate.
Qed.

Lemma parse_releaseDate_parsed (t : option string) (y : option string) :
  NFO.__parse_releaseDate (of_option t) = Ok y -> parsed_date y.
Proof.
  destruct t as [s|]; simpl.
  - rewrite parse_releaseDate_str.
    destruct ((String.length s =? 4)%nat && isdigit s) eqn:Hc; intros [= <-]; simpl; [|exact I].
    apply andb_true_iff in Hc as [Hl Hd]. apply Nat.eqb_eq in Hl. auto.
  - intros [= <-]. exact I.
Qed.

Lemma parse_item_dates (self self' : NFO) (item : Element) :
  NFO.parse_item self item = Ok self' -> dates_parsed self -> dates_parsed self'.
Proof.
  unfold NFO.parse_item, getitem, dates_parsed. intros H [Hp Hr].
  destruct (NFO.__parse_releaseDate (of_option (text item))) as [y|e] eqn:Hy.
  2:{ destruct (parse_releaseDate_opt (text item)) as [y' Hy']. congruence. }
  apply parse_releaseDate_parsed in Hy.
  repeat (simpl in H;
          match type of H with
          | context [if ?b then _ else _] => destruct b
          | context [match ?o with Some _ => _ | None => _ end] => destruct o
          end);
    simpl in H; try discriminate H; injection H as <-; simpl; auto.
  all: unfold NFO.__parse_id;
    repeat match goal with
           | |- context [match ?o with Some _ => _ | None => _ end] => destruct o
           | |- context [if ?b then _ else _] => destruct b
           end; simpl; auto.
Qed.

Lemma parse_items_dates (items : list Element) :
  forall self self',
    NFO.parse_items self items = Ok self' -> dates_parsed self -> dates_parsed self'.
Proof.
  induction items as [|item items IH]; intros self self'; simpl.
  - now intros [= <-].
  - destruct (NFO.parse_item self item) as [self1|e] eqn:H1; simpl; [|discriminate].
    intros H Hd. eapply IH; [exact H|]. eapply parse_item_dates; eauto.
Qed.

(** Every record that the constructor returns has parsed dates. *)
Lemma init_dates (os : OS) (path : string) (n : NFO) :
  NFO.init os path = Ok n -> dates_parsed n.
Proof.
  unfold NFO.init, NFO.__parse_nfo. simpl.
  destruct (et_parse os path) as [| |items].
  - intros [= <-]. split; exact I.
  - intros [= <-]. split; exact I.
  - intros H. eapply parse_items_dates; [exact H|]. split; exact I.
Qed.

Lemma guard_parsed_date (x : option string) :
  parsed_date x ->
  (if truthy_opt x then
     year <- NFO.__parse_releaseDate (of_option x) ;;
     m <- Re.re_match YEAR_PATTERN (of_option year) ;;
     Ok (if m then year else None)
   else Ok None)
  = Ok (if NFO.guard YEAR_PATTERN x then x else None).
Proof.
  destruct x as [s|]; simpl; [|reflexivity].
  intros [Hl Hd]. unfold truthy_opt. simpl.
  destruct (s =? "") eqn:He.
  { apply String.eqb_eq in He. subst. discriminate. }
  simpl. rewrite parse_releaseDate_str, Hl, Hd. simpl.
  destruct (Re.matches_prefix YEAR_PATTERN s); reflexivity.
Qed.

(** [NFO.year] on every record with parsed dates, hence on every record
    the constructor returns: the premiered year when it is valid; else an
    exception as soon as a release date is stored; else the raw "year",
    then the raw "productionyear", when valid; else [None]. *)
Lemma year_of_parsed (self : NFO) :
  dates_parsed self ->
  NFO.year self
  = if NFO.guard YEAR_PATTERN (__premiered self) then Ok (__premiered self)
    else if truthy_opt (__releasedate self) then Raise TypeError
    else Ok (if NFO.guard YEAR_PATTERN (__year self) then __year self
             else if NFO.guard YEAR_PATTERN (__productionyear self)
                  then __productionyear self
                  else None).
Proof.
  intros [Hp Hr]. unfold NFO.year.
  rewrite (guard_parsed_date _ Hp). unfold NFO.or_else at 1. simpl.
  destruct (NFO.guard YEAR_PATTERN (__premiered self)) eqn:Hg.
  - apply guard_true in Hg as (s & -> & _). reflexivity.
  - destruct (truthy_opt (__releasedate self)) eqn:Ht; [reflexivity|].
    unfold NFO.or_else, NFO.guard, truthy_opt in *. simpl.
    destruct (__year self) as [y|]; simpl.
    + destruct (y =? ""); simpl.
      * destruct (__productionyear self) as [q|]; simpl; [|reflexivity].
        destruct (q =? ""); simpl; [reflexivity|].
        destruct (Re.matches_prefix YEAR_PATTERN q); reflexivity.
      * destruct (Re.matches_prefix YEAR_PATTERN y); simpl; [reflexivity|].
        destruct (__productionyear self) as [q|]; simpl; [|reflexivity].
        destruct (q =? ""); simpl; [reflexivity|].
        destruct (Re.matches_prefix YEAR_PATTERN q); reflexivity.
    + destruct (__productionyear self) as [q|]; simpl; [|reflexivity].
      destruct (q =? ""); simpl; [reflexivity|].
      destruct (Re.matches_prefix YEAR_PATTERN q); reflexivity.
Qed.

(** The other three blocks behave as the priority order says. *)
Lemma year_premiered_first (self : NFO) (y : string) :
  __premiered self = Some y ->
  String.length y = 4 -> isdigit y = true ->
  Re.matches_prefix YEAR_PATTERN y = true ->
  NFO.year self = Ok (Some y).
Proof.
  intros Hp Hl Hd Hm. unfold NFO.year, NFO.or_else.
  rewrite Hp. unfold truthy_opt. simpl.
  destruct (y =? "") eqn:He.
  { apply String.eqb_eq in He. subst. discriminate. }
  simpl. rewrite parse_releaseDate_str, Hl, Hd. simpl. rewrite Hm. reflexivity.
Qed.

Lemma year_without_dates (self : NFO) :
  truthy_opt (__premiered self) = false ->
  truthy_opt (__releasedate self) = false ->
  NFO.year self
  = Ok (if NFO.guard YEAR_PATTERN (__year self) then __year self
        else if NFO.guard YEAR_PATTERN (__productionyear self) then __productionyear self
        else None).
Proof.
  intros Hp Hr. unfold NFO.year, NFO.or_else, NFO.guard, truthy_opt in *.
  rewrite Hp, Hr. simpl.
  destruct (__year self) as [y|]; simpl.
  - destruct (y =? ""); simpl.
    + destruct (__productionyear self) as [q|]; simpl; [|reflexivity].
      destruct (q =? ""); simpl; [reflexivity|].
      destruct (Re.matches_prefix YEAR_PATTERN q); reflexivity.
    + destruct (Re.matches_prefix YEAR_PATTERN y); simpl; [reflexivity|].
      destruct (__productionyear self) as [q|]; simpl; [|reflexivity].
      destruct (q =? ""); simpl; [reflexivity|].
      destruct (Re.matches_prefix YEAR_PATTERN q); reflexivity.
  - destruct (__productionyear self) as [q|]; simpl; [|reflexivity].
    destruct (q =? ""); simpl; [reflexivity|].
    destruct (Re.matches_prefix YEAR_PATTERN q); reflexivity.
Qed.

(** *** The id accessors *)

Lemma first_valid_guard (pattern : Re.regex) (x : option string) (rest : list (option string)) :
  first_valid pattern (x :: rest)
  = if NFO.guard pattern x then x else first_valid pattern rest.
Proof.
  destruct x as [s|]; simpl; [|reflexivity].
  destruct (negb (s =? "") && Re.matches_prefix pattern s); reflexivity.
Qed.

Lemma first_valid_sound (pattern : Re.regex) (sources : list (option string)) (v : string) :
  first_valid pattern sources = Some v ->
  In (Some v) sources /\ v <> "" /\ Re.matches_prefix pattern v = true.
Proof.
  induction sources as [|x rest IH]; [discriminate|].
  rewrite first_valid_guard. destruct (NFO.guard pattern x) eqn:Hg.
  - intros ->. apply guard_true in Hg as (s & [= <-] & Hne & Hm).
    repeat split; [now left | assumption | assumption].
  - intros H. apply IH in H as (Hin & Hne & Hm).
    repeat split; [now right | assumption | assumption].
Qed.

Lemma imdb_first_valid (self : NFO) :
  NFO.imdb self
  = first_valid IMDB_ID_PATTERN [__unique_id_imdb self; __imdb self; __id self].
Proof.
  unfold NFO.imdb. rewrite !first_valid_guard. simpl.
  repeat match goal with |- context [if ?b then _ else _] => destruct b end;
    reflexivity.
Qed.

Lemma tmdb_first_valid (self : NFO) :
  NFO.tmdb self
  = first_valid TMDB_ID_PATTERN [__unique_id_tmdb self; __tmdb self; __id self].
Proof.
  unfold NFO.tmdb. rewrite !first_valid_guard. simpl.
  repeat match goal with |- context [if ?b then _ else _] => destruct b end;
    reflexivity.
Qed.

(** What the accessors do check: whatever the twelve raw fields of a
    record hold, the textual-id
    accessor returns only a non-empty value on which
    [re.match(IMDB_ID_PATTERN, _)] succeeds, and the numeric-id accessor
    only one on which [re.match(TMDB_ID_PATTERN, _)] succeeds ([re.match]
    succeeds when the value starts with a word of the pattern); each
    accessor is the first valid source in its priority order (unique-id
    field, generic-tag field, "id" field), so a raw value that fails the
    pattern is skipped and the next source is tried, and the result is
    [None] when no source is valid. *)
Theorem id_accessors_validated (self : NFO) :
  (forall v, NFO.imdb self = Some v ->
     Re.matches_prefix IMDB_ID_PATTERN v = true
     /\ (exists u w, v = u ++ w /\ Re.lang IMDB_ID_PATTERN u)
     /\ v <> ""
     /\ In (Some v) [__unique_id_imdb self; __imdb self; __id self])
  /\ (forall v, NFO.tmdb self = Some v ->
     Re.matches_prefix TMDB_ID_PATTERN v = true
     /\ (exists u w, v = u ++ w /\ Re.lang TMDB_ID_PATTERN u)
     /\ v <> ""
     /\ In (Some v) [__unique_id_tmdb self; __tmdb self; __id self])
  /\ NFO.imdb self
     = first_valid IMDB_ID_PATTERN [__unique_id_imdb self; __imdb self; __id self]
  /\ NFO.tmdb self
     = first_valid TMDB_ID_PATTERN [__unique_id_tmdb self; __tmdb self; __id self].
Proof.
  split; [|split; [|split; [apply imdb_first_valid | apply tmdb_first_valid]]].
  - intros v H. rewrite imdb_first_valid in H.
    apply first_valid_sound in H as (Hin & Hne & Hm).
    split; [exact Hm|]. split; [now apply matches_prefix_lang|]. auto.
  - intros v H. rewrite tmdb_first_valid in H.
    apply first_valid_sound in H as (Hin & Hne & Hm).
    split; [exact Hm|]. split; [now apply matches_prefix_lang|]. auto.
Qed.

(** *** Parsing a sidecar file *)

Lemma parse_item_raises (self : NFO) (item : Element) (e : exn) :
  NFO.parse_item self item = Raise e -> e = KeyError.
Proof.
  unfold NFO.parse_item, getitem.
  destruct (parse_releaseDate_opt (text item)) as [y Hy]. rewrite Hy.
  repeat (simpl;
          match goal with
          | |- context [if ?b then _ else _] => destruct b
          | |- context [match ?o with Some _ => _ | None => _ end] => destruct o
          end);
    simpl; congruence.
Qed.

Lemma parse_item_uniqueid_untyped (self : NFO) (item : Element) :
  lower (tag item) = "uniqueid" ->
  attrib item !! "type" = None ->
  NFO.parse_item self item = Raise KeyError.
Proof.
  intros Ht Ha. unfold NFO.parse_item, getitem. rewrite Ht, Ha. reflexivity.
Qed.

Lemma parse_items_uniqueid_untyped (pre post : list Element) (item : Element) :
  lower (tag item) = "uniqueid" ->
  attrib item !! "type" = None ->
  forall self, NFO.parse_items self (pre ++ item :: post) = Raise KeyError.
Proof.
  intros Ht Ha. induction pre as [|x pre IH]; intros self; simpl.
  - now rewrite parse_item_uniqueid_untyped.
  - destruct (NFO.parse_item self x) as [self'|e] eqn:Hx; simpl.
    + apply IH.
    + apply parse_item_raises in Hx. now subst.
Qed.

Lemma nfo_ext_not_video (ext : string) :
  in_list ext NFO_EXTENSIONS = true -> in_list ext VIDEO_EXTENSIONS = false.
Proof.
  unfold in_list. simpl. rewrite !orb_true_iff, !String.eqb_eq.
  intros [H|[H|H]]; try discriminate H; subst ext; reflexivity.
Qed.

(** C10: when the XML of a sidecar file parses and one of the root's
    children is a "uniqueid" element (tag compared in lower case) without
    a "type" attribute, the record constructor raises [KeyError]; nothing
    in the scan catches it, so classifying the file raises too.  The
    recovery to an all-unset record is there for an unreadable file and
    for an XML parse error only. *)
Theorem uniqueid_without_type_raises (os : OS) (path : string)
    (pre post : list Element) (item : Element) :
  et_parse os path = XmlRoot (pre ++ item :: post) ->
  lower (tag item) = "uniqueid" ->
  attrib item !! "type" = None ->
  NFO.init os path = Raise KeyError
  /\ (forall st, in_list (snd (OsPath.splitext path)) NFO_EXTENSIONS = true ->
                 MovieFolder.scan_file os path st = Raise KeyError)
  /\ (forall os', et_parse os' path = XmlIOError \/ et_parse os' path = XmlParseError ->
                  NFO.init os' path = Ok (NFO.blank path)).
Proof.
  intros Hx Ht Ha.
  assert (Hi : NFO.init os path = Raise KeyError).
  { unfold NFO.init, NFO.__parse_nfo. simpl. rewrite Hx.
    now apply parse_items_uniqueid_untyped. }
  split; [exact Hi|]. split.
  - intros st He. unfold MovieFolder.scan_file.
    rewrite (nfo_ext_not_video _ He), He, Hi. reflexivity.
  - intros os' [H|H]; unfold NFO.init, NFO.__parse_nfo; simpl; now rewrite H.
Qed.

(* ------------------------------------------------------------------ *)
(** ** Classifying a folder *)
(* ------------------------------------------------------------------ *)

(** *** Which sidecar record is kept *)

Lemma nfo_condition_eq (os : OS) (new : NFO) (kept : option NFO) (c : bool) :
  NFO.is_complete new = Ok c ->
  nfo_condition os new kept
  = Ok (c && match kept with
             | None => true
             | Some old => (NFO.fileSize os old <? NFO.fileSize os new)%Z
             end).
Proof.
  intros Hc. unfold nfo_condition. rewrite Hc. simpl.
  destruct c, kept; reflexivity.
Qed.

Lemma nfo_condition_raises (os : OS) (new : NFO) (kept : option NFO) (e : exn) :
  NFO.is_complete new = Raise e -> nfo_condition os new kept = Raise e.
Proof. intros Hc. unfold nfo_condition. now rewrite Hc. Qed.

Lemma scan_file_sidecar (os : OS) (path : string) (st : Scan) (new : NFO) (c : bool) :
  in_list (snd (OsPath.splitext path)) NFO_EXTENSIONS = true ->
  NFO.init os path = Ok new ->
  NFO.is_complete new = Ok c ->
  scan_file os path st = Ok (keep os new c st).
Proof.
  intros He Hn Hc. unfold scan_file, keep.
  rewrite (nfo_ext_not_video _ He), He, Hn. simpl.
  rewrite (nfo_condition_eq _ _ _ _ Hc).
  destruct c; simpl; [|reflexivity].
  destruct (nfo (folder st)) as [old|]; simpl; [|reflexivity].
  destruct (NFO.fileSize os old <? NFO.fileSize os new)%Z; reflexivity.
Qed.

Lemma scan_item_sidecar (os : OS) (st : Scan) (name : string) (new : NFO) (c : bool) :
  sidecar os st name new ->
  NFO.is_complete new = Ok c ->
  scan_item os st name = Ok (keep os new c st).
Proof.
  intros (Hf & He & Hn) Hc. unfold scan_item. rewrite Hf.
  now apply scan_file_sidecar.
Qed.

(** The disc-image blocks touch neither the kept record nor the root. *)
Lemma scan_disc_entry_frame (os : OS) (dir marker : string) (st : Scan) (entry : string) :
  let st' := scan_disc_entry os dir marker st entry in
  nfo (folder st') = nfo (folder st)
  /\ rootDir (folder st') = rootDir (folder st)
  /\ movie (folder st') = movie (folder st).
Proof.
  unfold scan_disc_entry. destruct (contains marker (lower entry)); [|auto].
  simpl. destruct (negb _); simpl; auto.
Qed.

Lemma scan_disc_entries_frame (os : OS) (dir marker : string) (entries : list string) :
  forall st,
    let st' := fold_left (scan_disc_entry os dir marker) entries st in
    nfo (folder st') = nfo (folder st)
    /\ rootDir (folder st') = rootDir (folder st)
    /\ movie (folder st') = movie (folder st).
Proof.
  induction entries as [|e entries IH]; intros st; simpl; [auto|].
  destruct (IH (scan_disc_entry os dir marker st e)) as (H1 & H2 & H3).
  destruct (scan_disc_entry_frame os dir marker st e) as (G1 & G2 & G3).
  simpl in *. rewrite H1, H2, H3. auto.
Qed.

Lemma scan_disc_frame (os : OS) (dir index_file marker : string) (st : Scan) :
  let st' := scan_disc os dir index_file marker st in
  nfo (folder st') = nfo (folder st) /\ rootDir (folder st') = rootDir (folder st).
Proof.
  unfold scan_disc. destruct (isfile os _); [|auto]. simpl.
  match goal with
  | |- context [fold_left _ _ ?s] =>
      destruct (scan_disc_entries_frame os dir marker (listdir os dir) s) as (H1 & H2 & _)
  end.
  simpl in *. auto.
Qed.

(** One step of the scan either leaves the kept record alone or replaces
    it by a complete sidecar record that is strictly larger than the one
    kept before. *)
Lemma scan_item_kept (os : OS) (st st' : Scan) (name : string) :
  scan_item os st name = Ok st' ->
  rootDir (folder st') = rootDir (folder st)
  /\ (nfo (folder st') = nfo (folder st)
      \/ exists new, sidecar os st name new
                     /\ NFO.is_complete new = Ok true
                     /\ nfo (folder st') = Some new
                     /\ forall old, nfo (folder st) = Some old ->
                                    (NFO.fileSize os old < NFO.fileSize os new)%Z).
Proof.
  unfold scan_item.
  destruct (isfile os (OsPath.join (rootDir (folder st)) name)) eqn:Hf.
  - unfold scan_file.
    destruct (in_list _ VIDEO_EXTENSIONS) eqn:Hv.
    + simpl. destruct (Video.isMovie _); intros [= <-]; simpl; auto.
    + destruct (in_list _ NFO_EXTENSIONS) eqn:He; [|intros [= <-]; auto].
      destruct (NFO.init os _) as [new|e] eqn:Hn; simpl; [|discriminate].
      destruct (NFO.is_complete new) as [c|e] eqn:Hc.
      2:{ rewrite (nfo_condition_raises _ _ _ _ Hc). discriminate. }
      rewrite (nfo_condition_eq _ _ _ _ Hc). simpl.
      destruct c; simpl; [|intros [= <-]; auto].
      destruct (nfo (folder st)) as [old|] eqn:Hk.
      * destruct (NFO.fileSize os old <? NFO.fileSize os new)%Z eqn:Hs;
          intros [= <-]; simpl; [|auto].
        split; [reflexivity|]. right. exists new.
        repeat split; try assumption.
        intros old' [= <-]. now apply Z.ltb_lt.
      * intros [= <-]. simpl. split; [reflexivity|]. right. exists new.
        repeat split; try assumption. intros old' [=].
  - destruct (isdir os _); [|intros [= <-]; auto].
    destruct (contains "bdmv" _); simpl.
    + intros [= <-]. destruct (scan_disc_frame os
        (OsPath.join (rootDir (folder st)) name) "index.bdmv" "index-trailer" st).
      auto.
    + destruct (contains "video_ts" _); simpl; intros [= <-]; [|auto].
      destruct (scan_disc_frame os
        (OsPath.join (rootDir (folder st)) name) "VIDEO_TS.IFO" "video_ts-trailer" st).
      auto.
Qed.

Lemma scan_item_kept_complete (os : OS) (st st' : Scan) (name : string) :
  scan_item os st name = Ok st' -> kept_complete st -> kept_complete st'.
Proof.
  intros Hs Hk. apply scan_item_kept in Hs as (_ & [Heq|(new & _ & Hc & Heq & _)]);
    unfold kept_complete; rewrite Heq; [exact Hk|].
  now intros k [= <-].
Qed.

Lemma scan_item_keeps_at_least (os : OS) (st st' : Scan) (name : string) (n : NFO) :
  scan_item os st name = Ok st' ->
  keeps_at_least os n st -> keeps_at_least os n st'.
Proof.
  intros Hs (k & Hk & Hc & Hle).
  apply scan_item_kept in Hs as (_ & [Heq|(new & _ & Hc' & Heq & Hlt)]).
  - exists k. rewrite Heq. auto.
  - exists new. repeat split; try assumption.
    specialize (Hlt k Hk). lia.
Qed.

Lemma keep_complete_keeps_at_least (os : OS) (st : Scan) (new : NFO) :
  kept_complete st ->
  NFO.is_complete new = Ok true ->
  keeps_at_least os new (keep os new true st).
Proof.
  intros Hk Hc. unfold keep, keeps_at_least.
  destruct (nfo (folder st)) as [old|] eqn:Ho; simpl.
  - destruct (NFO.fileSize os old <? NFO.fileSize os new)%Z eqn:Hs; simpl.
    + exists new. repeat split; [assumption | lia].
    + exists old. apply Z.ltb_ge in Hs. auto.
  - exists new. repeat split; [assumption | lia].
Qed.

Lemma scan_items_root (os : OS) (names : list string) :
  forall st st', scan_items os st names = Ok st' ->
                 rootDir (folder st') = rootDir (folder st).
Proof.
  induction names as [|name names IH]; intros st st'; simpl.
  - now intros [= <-].
  - destruct (scan_item os st name) as [st1|e] eqn:H1; simpl; [|discriminate].
    intros H. apply IH in H. apply scan_item_kept in H1 as [Hr _]. congruence.
Qed.

Lemma scan_items_kept_complete (os : OS) (names : list string) :
  forall st st', scan_items os st names = Ok st' ->
                 kept_complete st -> kept_complete st'.
Proof.
  induction names as [|name names IH]; intros st st'; simpl.
  - now intros [= <-].
  - destruct (scan_item os st name) as [st1|e] eqn:H1; simpl; [|discriminate].
    intros H Hk. eapply IH; [exact H|]. eapply scan_item_kept_complete; eauto.
Qed.

Lemma scan_items_keeps_at_least (os : OS) (n : NFO) (names : list string) :
  forall st st', scan_items os st names = Ok st' ->
                 keeps_at_least os n st -> keeps_at_least os n st'.
Proof.
  induction names as [|name names IH]; intros st st'; simpl.
  - now intros [= <-].
  - destruct (scan_item os st name) as [st1|e] eqn:H1; simpl; [|discriminate].
    intros H Hk. eapply IH; [exact H|]. eapply scan_item_keeps_at_least; eauto.
Qed.

Lemma sidecar_same_root (os : OS) (st st1 : Scan) (name : string) (new : NFO) :
  rootDir (folder st1) = rootDir (folder st) ->
  sidecar os st name new -> sidecar os st1 name new.
Proof. unfold sidecar. now intros ->. Qed.

Lemma scan_items_complete_seen (os : OS) (names : list string) :
  forall st st' name new,
    scan_items os st names = Ok st' ->
    kept_complete st ->
    In name names ->
    sidecar os st name new ->
    NFO.is_complete new = Ok true ->
    keeps_at_least os new st'.
Proof.
  induction names as [|x names IH]; intros st st' name new; simpl; [tauto|].
  destruct (scan_item os st x) as [st1|e] eqn:H1; simpl; [|discriminate].
  intros H Hk [->|Hin] Hs Hc.
  - rewrite (scan_item_sidecar _ _ _ _ _ Hs Hc) in H1. injection H1 as <-.
    eapply scan_items_keeps_at_least; [exact H|].
    now apply keep_complete_keeps_at_least.
  - eapply IH; eauto.
    + eapply scan_item_kept_complete; eauto.
    + apply scan_item_kept in H1 as [Hr _].
      eapply sidecar_same_root; eauto.
Qed.

(** C5: from a state whose kept record (if any) is complete, which is how
    every scan starts: (1) a sidecar entry is processed as the
    specification's rule [keep] says -- an incomplete candidate never
    replaces what is kept, a complete candidate is kept when nothing is
    kept, and it replaces a kept (complete) record exactly when its file
    is strictly larger -- and the kept record stays complete; (2) after any
    run of entries the kept record is still complete, and for every
    complete sidecar candidate among them a complete record at least as
    large is kept, so an incomplete record is never the one kept once a
    complete one was seen. *)
Theorem sidecar_selection (os : OS) (st : Scan) :
  kept_complete st ->
  (forall name new c,
      sidecar os st name new ->
      NFO.is_complete new = Ok c ->
      scan_item os st name = Ok (keep os new c st)
      /\ kept_complete (keep os new c st))
  /\ (forall names st',
         scan_items os st names = Ok st' ->
         kept_complete st'
         /\ forall name new,
             In name names ->
             sidecar os st name new ->
             NFO.is_complete new = Ok true ->
             keeps_at_least os new st').
Proof.
  intros Hk. split.
  - intros name new c Hs Hc.
    pose proof (scan_item_sidecar _ _ _ _ _ Hs Hc) as Hstep.
    split; [exact Hstep|]. eapply scan_item_kept_complete; eauto.
  - intros names st' Hrun. split.
    + eapply scan_items_kept_complete; eauto.
    + intros name new Hin Hs Hc. eapply scan_items_complete_seen; eauto.
Qed.

(** For a whole classification: the kept record of the result is complete,
    and at least as large as every complete sidecar record of the
    folder. *)
Corollary classification_keeps_complete_sidecar (os : OS) (directory : string)
    (st' : Scan) :
  MovieFolder.init os directory = Ok st' ->
  kept_complete st'
  /\ forall name new,
      In name (listdir os (abspath os directory)) ->
      sidecar os (start os directory) name new ->
      NFO.is_complete new = Ok true ->
      keeps_at_least os new st'.
Proof.
  intros Hi.
  assert (Hk : kept_complete (start os directory)) by (intros k Hn; discriminate Hn).
  split.
  - eapply scan_items_kept_complete; [exact Hi | exact Hk].
  - intros name new Hin Hs Hc.
    eapply scan_items_complete_seen; [exact Hi | exact Hk | exact Hin | exact Hs | exact Hc].
Qed.

(** *** File extensions *)

Lemma in_list_In (x : string) (xs : list string) : in_list x xs = true <-> In x xs.
Proof.
  unfold in_list. rewrite existsb_exists. split.
  - intros (y & Hy & He). apply String.eqb_eq in He. now subst.
  - intros H. exists x. split; [assumption | apply String.eqb_refl].
Qed.

Lemma scan_file_ignored (os : OS) (path : string) (st : Scan) :
  classify path = Ignored -> scan_file os path st = Ok st.
Proof.
  unfold classify, scan_file, ext_of.
  destruct (in_list _ VIDEO_EXTENSIONS); [discriminate|].
  destruct (in_list _ NFO_EXTENSIONS); [discriminate|]. reflexivity.
Qed.

Lemma scan_file_video (os : OS) (path : string) (st : Scan) :
  classify path = VideoFile ->
  scan_file os path st
  = let v := {| v_path := path; duration := Video.get_duration os path |} in
    Ok {| folder := (if Video.isMovie v then set_movie v else set_trailer v) (folder st);
          probed := (probed st ++ [path])%list |}.
Proof.
  unfold classify, scan_file, ext_of.
  destruct (in_list _ VIDEO_EXTENSIONS);
    [|destruct (in_list _ NFO_EXTENSIONS); discriminate].
  intros _. simpl. destruct (Video.isMovie _); reflexivity.
Qed.

Lemma recognized_extensions_lower :
  Forall (fun e => lower e = e) (VIDEO_EXTENSIONS ++ NFO_EXTENSIONS)%list.
Proof. repeat constructor. Qed.

Lemma scan_file_sidecar_eq (os : OS) (path : string) (st : Scan) :
  classify path = SidecarFile ->
  scan_file os path st
  = (new <- NFO.init os path ;;
     c <- NFO.is_complete new ;;
     Ok (keep os new c st)).
Proof.
  unfold classify, ext_of. intros Hc.
  destruct (in_list (snd (OsPath.splitext path)) VIDEO_EXTENSIONS) eqn:Hv;
    [discriminate|].
  destruct (in_list (snd (OsPath.splitext path)) NFO_EXTENSIONS) eqn:Hn;
    [|discriminate].
  destruct (NFO.init os path) as [new|e] eqn:Hi.
  - simpl. destruct (NFO.is_complete new) as [c|e] eqn:Hk; simpl.
    + now apply scan_file_sidecar.
    + unfold scan_file. rewrite Hv, Hn, Hi. simpl.
      now rewrite (nfo_condition_raises os new _ e Hk).
  - unfold scan_file. rewrite Hv, Hn, Hi. reflexivity.
Qed.

Lemma probed_keep (os : OS) (new : NFO) (c : bool) (st : Scan) :
  probed (keep os new c st) = probed st.
Proof.
  unfold keep. destruct c; [|reflexivity].
  destruct (nfo (folder st)) as [old|]; [|reflexivity].
  destruct (NFO.fileSize os old <? NFO.fileSize os new)%Z; reflexivity.
Qed.

Lemma handed_to_ffprobe_iff (os : OS) (st : Scan) (path : string) :
  handed_to_ffprobe os st path <-> classify path = VideoFile.
Proof.
  unfold handed_to_ffprobe. split.
  - intros (st' & Hs & Hp).
    assert (Hne : probed st' <> probed st).
    { rewrite Hp. intros H. apply (f_equal (@length string)) in H.
      rewrite length_app in H. simpl in H. lia. }
    destruct (classify path) eqn:Hc; [reflexivity | |].
    + rewrite (scan_file_sidecar_eq os path st Hc) in Hs.
      destruct (NFO.init os path) as [new|e]; simpl in Hs; [|discriminate Hs].
      destruct (NFO.is_complete new) as [c|e]; simpl in Hs; [|discriminate Hs].
      injection Hs as <-. now rewrite probed_keep in Hne.
    + rewrite (scan_file_ignored os path st Hc) in Hs.
      injection Hs as <-. now contradiction Hne.
  - intros Hc. rewrite (scan_file_video os path st Hc). cbv zeta.
    eexists. split; reflexivity.
Qed.

(** C4, as the code has it: the extension is looked up in the two lists
    as it is written in the file name.  A file is taken for a video
    exactly when its extension is literally one of the eleven listed, for
    a sidecar exactly when it is literally one of the two listed, and the
    scan step treats it accordingly: a video is handed to ffprobe and
    stored as the movie or the trailer, and no other file is handed to
    ffprobe; a sidecar is parsed and offered to the selection rule; a file
    of neither kind changes nothing.  All listed extensions are
    lower-case, so an extension that has an upper-case letter is
    recognized as neither and the entry is skipped. *)
Theorem extension_match_is_exact (path : string) :
  (classify path = VideoFile <-> In (ext_of path) VIDEO_EXTENSIONS)
  /\ (classify path = SidecarFile <-> In (ext_of path) NFO_EXTENSIONS)
  /\ (forall os st,
        scan_file os path st
        = match classify path with
          | VideoFile =>
              Ok {| folder := (if Video.isMovie (probe os path)
                               then set_movie (probe os path)
                               else set_trailer (probe os path)) (folder st);
                    probed := (probed st ++ [path])%list |}
          | SidecarFile =>
              new <- NFO.init os path ;;
              c <- NFO.is_complete new ;;
              Ok (keep os new c st)
          | Ignored => Ok st
          end)
  /\ (forall os st,
        handed_to_ffprobe os st path <-> In (ext_of path) VIDEO_EXTENSIONS)
  /\ (lower (ext_of path) <> ext_of path ->
      classify path = Ignored
      /\ forall os st, scan_file os path st = Ok st).
Proof.
  assert (Hv : classify path = VideoFile <-> In (ext_of path) VIDEO_EXTENSIONS).
  { rewrite <- in_list_In. unfold classify.
    destruct (in_list _ VIDEO_EXTENSIONS); [tauto|].
    destruct (in_list _ NFO_EXTENSIONS); split; discriminate. }
  assert (Hs : classify path = SidecarFile <-> In (ext_of path) NFO_EXTENSIONS).
  { rewrite <- in_list_In. unfold classify.
    destruct (in_list _ VIDEO_EXTENSIONS) eqn:E.
    - split; [discriminate|]. intros H. apply nfo_ext_not_video in H. congruence.
    - destruct (in_list _ NFO_EXTENSIONS); split; congruence. }
  split; [exact Hv|]. split; [exact Hs|].
  split.
  { intros os st. destruct (classify path) eqn:Hc.
    - now rewrite (scan_file_video os path st Hc).
    - now apply scan_file_sidecar_eq.
    - now apply scan_file_ignored. }
  split.
  { intros os st. now rewrite handed_to_ffprobe_iff. }
  intros Hl.
  assert (Hi : classify path = Ignored).
  { pose proof recognized_extensions_lower as Hlow.
    rewrite List.Forall_forall in Hlow.
    destruct (classify path) eqn:Hc; [| |reflexivity]; exfalso; apply Hl, Hlow, in_or_app.
    - left. now apply Hv.
    - right. now apply Hs. }
  split; [exact Hi|]. intros os st. now apply scan_file_ignored.
Qed.

(** *** Disc-image directories *)

Lemma contains_sep_startswith (e : string) :
  contains "/" e = false -> startswith e "/" = false.
Proof.
  destruct e as [|a e]; [reflexivity|]. simpl.
  intros H. apply orb_false_iff in H as [H _]. exact H.
Qed.

Lemma string_app_inv_head (p a b : string) : p ++ a = p ++ b -> a = b.
Proof.
  induction p as [|c p IH]; simpl; [auto|]. intros [= H]. auto.
Qed.

(** Two entry names of one directory give two paths. *)
Lemma join_inj_name (dir a b : string) :
  contains "/" a = false -> contains "/" b = false ->
  OsPath.join dir a = OsPath.join dir b -> a = b.
Proof.
  intros Ha Hb. unfold OsPath.join.
  rewrite (contains_sep_startswith _ Ha), (contains_sep_startswith _ Hb).
  destruct ((dir =? "") || endswith dir "/"); intros H.
  - now apply string_app_inv_head in H.
  - apply string_app_inv_head in H. now injection H.
Qed.

Arguments Py.in_list : simpl never.
Arguments Py.contains : simpl never.

Lemma scan_disc_entries_spec (os : OS) (dir marker : string) (entries : list string) :
  forall st,
    let st' := fold_left (scan_disc_entry os dir marker) entries st in
    let marked := List.filter (fun e => contains marker (lower e)) entries in
    probed st' = (probed st ++ map (OsPath.join dir) marked)%list
    /\ trailer (folder st')
       = match last (List.filter (fun v => negb (Video.isMovie v))
                       (map (fun e => probe os (OsPath.join dir e)) marked)) with
         | Some v => Some v
         | None => trailer (folder st)
         end.
Proof.
  induction entries as [|e entries IH]; intros st; simpl.
  - now rewrite app_nil_r.
  - destruct (IH (scan_disc_entry os dir marker st e)) as [Hp Ht].
    simpl in Hp, Ht. rewrite Hp, Ht. clear IH Hp Ht.
    unfold scan_disc_entry.
    destruct (contains marker (lower e)); simpl; [|auto].
    fold (probe os (OsPath.join dir e)).
    destruct (Video.isMovie (probe os (OsPath.join dir e))); simpl.
    + split; [now rewrite <- app_assoc|]. reflexivity.
    + split; [now rewrite <- app_assoc|].
      rewrite last_cons.
      destruct (last _); reflexivity.
Qed.

Lemma scan_item_movie_frame (os : OS) (st st' : Scan) (name : string) :
  scan_item os st name = Ok st' ->
  sets_movie os (rootDir (folder st)) name = false ->
  movie (folder st') = movie (folder st).
Proof.
  unfold scan_item, sets_movie.
  destruct (isfile os (OsPath.join (rootDir (folder st)) name)).
  - destruct (classify (OsPath.join (rootDir (folder st)) name)) eqn:Hc.
    + rewrite (scan_file_video _ _ _ Hc). simpl. fold (probe os
        (OsPath.join (rootDir (folder st)) name)).
      unfold classify in Hc. destruct (in_list _ VIDEO_EXTENSIONS).
      2:{ destruct (in_list _ NFO_EXTENSIONS); discriminate. }
      simpl. intros [= <-] ->. reflexivity.
    + unfold classify in Hc. unfold scan_file. fold (ext_of
        (OsPath.join (rootDir (folder st)) name)).
      destruct (in_list _ VIDEO_EXTENSIONS); [discriminate|].
      destruct (in_list _ NFO_EXTENSIONS); [|discriminate].
      destruct (NFO.init os _); simpl; [|discriminate].
      destruct (nfo_condition os _ _) as [[|]|]; simpl; try discriminate;
        now intros [= <-] _.
    + rewrite (scan_file_ignored _ _ _ Hc). now intros [= <-] _.
  - destruct (isdir os _); [|now intros [= <-]].
    destruct (contains "bdmv" _); simpl.
    + unfold scan_disc. now intros [= <-] ->.
    + destruct (contains "video_ts" _); simpl; [|now intros [= <-]].
      unfold scan_disc. now intros [= <-] ->.
Qed.

Lemma scan_items_movie_frame (os : OS) (names : list string) :
  forall st st',
    scan_items os st names = Ok st' ->
    Forall (fun name => sets_movie os (rootDir (folder st)) name = false) names ->
    movie (folder st') = movie (folder st).
Proof.
  induction names as [|name names IH]; intros st st'; simpl.
  - now intros [= <-].
  - destruct (scan_item os st name) as [st1|e] eqn:H1; simpl; [|discriminate].
    intros H Hall. inversion Hall as [|x xs Hx Hxs]; subst.
    pose proof (scan_item_kept _ _ _ _ H1) as [Hr _].
    rewrite (IH st1 st' H); [now apply (scan_item_movie_frame os st st1 name)|].
    now rewrite Hr.
Qed.

Lemma scan_item_bdmv (os : OS) (st : Scan) (name : string) :
  let sub := OsPath.join (rootDir (folder st)) name in
  isfile os sub = false ->
  isdir os sub = true ->
  contains "bdmv" (lower sub) = true ->
  isfile os (OsPath.join sub "index.bdmv") = true ->
  scan_item os st name
  = Ok (fold_left (scan_disc_entry os sub "index-trailer") (listdir os sub)
          {| folder := set_movie {| v_path := OsPath.join sub "index.bdmv";
                                    duration := 601%float |} (folder st);
             probed := probed st |}).
Proof.
  intros sub Hf Hd Hm Hi. unfold scan_item. fold sub.
  rewrite Hf, Hd, Hm. simpl. unfold scan_disc. rewrite Hi. reflexivity.
Qed.

Lemma index_not_probed (os : OS) (sub : string) :
  Forall (fun e => contains "/" e = false) (listdir os sub) ->
  ~ In (OsPath.join sub "index.bdmv")
       (map (OsPath.join sub) (marked_children os sub "index-trailer")).
Proof.
  intros Hall Hin. apply in_map_iff in Hin as (e & Heq & He).
  unfold marked_children in He. apply filter_In in He as [Hl Hm].
  rewrite List.Forall_forall in Hall.
  apply join_inj_name in Heq; [|now apply Hall | reflexivity].
  subst e. vm_compute in Hm. discriminate.
Qed.

(** C9, as the code has it.  When the scan comes to a subdirectory whose
    path contains "bdmv" (compared in lower case) and that holds the file
    index.bdmv, this one step (1) sets the movie to a Video of the index
    file with duration 601, above the threshold, (2) hands to ffprobe the
    children whose lower-cased name contains "index-trailer" and nothing
    else -- the index file is not probed -- and (3) sets the trailer to
    the last such child that probing classifies as a non-movie, leaving it
    as it was when there is none.  (4) That movie is the result's movie
    when no entry scanned afterwards sets the movie again: the last movie
    found wins. *)
Theorem disc_folder_bdmv (os : OS) (st : Scan) (name : string) :
  let sub := OsPath.join (rootDir (folder st)) name in
  let index := {| v_path := OsPath.join sub "index.bdmv"; duration := 601%float |} in
  isfile os sub = false ->
  isdir os sub = true ->
  contains "bdmv" (lower sub) = true ->
  isfile os (OsPath.join sub "index.bdmv") = true ->
  exists st',
    scan_item os st name = Ok st'
    /\ movie (folder st') = Some index
    /\ Video.isMovie index = true
    /\ probed st'
       = (probed st ++ map (OsPath.join sub) (marked_children os sub "index-trailer"))%list
    /\ (Forall (fun e => contains "/" e = false) (listdir os sub) ->
        ~ In (v_path index)
             (map (OsPath.join sub) (marked_children os sub "index-trailer")))
    /\ trailer (folder st')
       = match last (disc_trailers os sub "index-trailer") with
         | Some v => Some v
         | None => trailer (folder st)
         end
    /\ (forall rest st'',
           scan_items os st' rest = Ok st'' ->
           Forall (fun x => sets_movie os (rootDir (folder st)) x = false) rest ->
           movie (folder st'') = Some index).
Proof.
  intros sub index Hf Hd Hm Hi. eexists.
  split; [now apply scan_item_bdmv|].
  match goal with
  | |- context [fold_left ?f ?l ?s] =>
      destruct (scan_disc_entries_spec os sub "index-trailer" l s) as [Hp Ht];
      destruct (scan_disc_entries_frame os sub "index-trailer" l s) as (_ & Hr & Hmv)
  end.
  simpl in Hp, Ht, Hr, Hmv.
  split; [exact Hmv|]. split; [reflexivity|]. split; [exact Hp|].
  split; [apply index_not_probed|]. split; [exact Ht|].
  intros rest st'' Hrun Hall.
  rewrite (scan_items_movie_frame _ _ _ _ Hrun); [exact Hmv|].
  match goal with
  | |- Forall (fun _ => sets_movie _ ?r _ = _) _ =>
      replace r with (rootDir (folder st)) by (symmetry; exact Hr)
  end.
  exact Hall.
Qed.

(* ------------------------------------------------------------------ *)
(** ** The orchestrator *)
(* ------------------------------------------------------------------ *)

Section Orchestrator.

Context {W : Type} (c : Collaborators W).

Lemma try_links_spec
    (download : option string -> option string -> string -> W -> bool * W)
    (mk : option string -> option string -> string -> attempt)
    (name dir : option string) (links : list string) :
  forall w log r w' log',
    try_links download mk name dir links w log = (r, w', log') ->
    exists new,
      log' = (log ++ new)%list
      /\ map fst new = firstn (length new) (map (mk name dir) links)
      /\ match r with
         | Some link =>
             exists pre, new = (pre ++ [(mk name dir link, true)])%list
                         /\ Forall failed pre
         | None => length new = length links /\ Forall failed new
         end.
Proof.
  induction links as [|link rest IH]; intros w log r w' log'; simpl.
  - intros [= <- <- <-]. exists []. rewrite app_nil_r. repeat split. constructor.
  - destruct (download name dir link w) as [ok w1]. destruct ok.
    + intros [= <- <- <-]. exists [(mk name dir link, true)].
      repeat split. exists []. split; [reflexivity | constructor].
    + intros H. apply IH in H as (new & -> & Hmap & Hr).
      exists ((mk name dir link, false) :: new). split.
      { now rewrite <- app_assoc. }
      split; [simpl; now rewrite Hmap|].
      destruct r as [l|].
      * destruct Hr as (pre & -> & Hpre).
        exists ((mk name dir link, false) :: pre). split; [reflexivity|].
        constructor; [reflexivity | assumption].
      * destruct Hr as [Hlen Hall]. split; [simpl; now rewrite Hlen|].
        constructor; [reflexivity | assumption].
Qed.

Lemma try_downloads_spec (self : TrailerTech) (name dir : option string)
    (appleLinks ytLinks : list string) (w : W) (log : list attempted) :
  let res := try_downloads c self name dir appleLinks ytLinks w log in
  exists new,
    attempts (snd res) = (log ++ new)%list
    /\ map fst new = firstn (length new) (candidates name dir appleLinks ytLinks)
    /\ match fst res with
       | Downloaded link =>
           (exists pre a, new = (pre ++ [(a, true)])%list
                          /\ Forall failed pre /\ link_of a = link)
           /\ app (snd res) = incr_downloaded self
       | NotFound =>
           length new = length (candidates name dir appleLinks ytLinks)
           /\ Forall failed new
           /\ app (snd res) = self
       | _ => False
       end.
Proof.
  unfold try_downloads, candidates.
  destruct (try_links (downloadApple c) AppleAttempt name dir appleLinks w log)
    as [[r1 w1] log1] eqn:H1.
  apply try_links_spec in H1 as (new1 & -> & Hmap1 & Hr1).
  destruct r1 as [link|].
  - simpl. exists new1. split; [reflexivity|]. split.
    + rewrite firstn_app.
      assert (Hlen : (length new1 <= length (map (AppleAttempt name dir) appleLinks))%nat).
      { pose proof (f_equal (@length attempt) Hmap1) as Hl.
        rewrite length_map, length_firstn in Hl.
        symmetry in Hl. now apply Nat.min_l_iff in Hl. }
      replace (length new1 - length (map (AppleAttempt name dir) appleLinks))%nat
        with 0%nat by lia.
      simpl. now rewrite app_nil_r.
    + destruct Hr1 as (pre & -> & Hpre). split; [|reflexivity].
      exists pre, (AppleAttempt name dir link). auto.
  - destruct Hr1 as [Hlen1 Hall1].
    destruct (try_links (downloadYouTube c) YouTubeAttempt name dir ytLinks
                w1 (log ++ new1)) as [[r2 w2] log2] eqn:H2.
    apply try_links_spec in H2 as (new2 & -> & Hmap2 & Hr2).
    assert (Hfull : map fst new1 = map (AppleAttempt name dir) appleLinks).
    { rewrite Hmap1, Hlen1, <- (length_map (AppleAttempt name dir)).
      apply firstn_all. }
    assert (Hmap : map fst (new1 ++ new2)
                   = firstn (length (new1 ++ new2))
                       (map (AppleAttempt name dir) appleLinks
                        ++ map (YouTubeAttempt name dir) ytLinks)).
    { rewrite map_app, Hfull, Hmap2, length_app, Hlen1.
      rewrite <- (length_map (AppleAttempt name dir) appleLinks) at 1.
      now rewrite firstn_app_2. }
    destruct r2 as [link|]; simpl.
    + exists (new1 ++ new2)%list. split; [now rewrite app_assoc|].
      split; [exact Hmap|].
      destruct Hr2 as (pre & -> & Hpre). split; [|reflexivity].
      exists (new1 ++ pre)%list, (YouTubeAttempt name dir link).
      split; [now rewrite app_assoc|]. split; [|reflexivity].
      apply Forall_app. auto.
    + exists (new1 ++ new2)%list. split; [now rewrite app_assoc|].
      split; [exact Hmap|].
      destruct Hr2 as [Hlen2 Hall2].
      split; [rewrite !length_app, !length_map; lia|].
      split; [|reflexivity]. apply Forall_app. auto.
Qed.

Lemma answers_app (l1 l2 : list attempt) :
  forall w,
    answers c (l1 ++ l2) w
    = let '(n1, w1) := answers c l1 w in
      let '(n2, w2) := answers c l2 w1 in
      ((n1 ++ n2)%list, w2).
Proof.
  induction l1 as [|a l1 IH]; intros w; simpl.
  - now destruct (answers c l2 w).
  - destruct (download c a w) as [ok w1]. rewrite IH.
    destruct (answers c l1 w1) as [n1 w2]. now destruct (answers c l2 w2).
Qed.

Lemma answers_length (l : list attempt) :
  forall w, length (fst (answers c l w)) = length l.
Proof.
  induction l as [|a l IH]; intros w; simpl; [reflexivity|].
  destruct (download c a w) as [ok w1]. specialize (IH w1).
  destruct (answers c l w1). simpl in *. now rewrite IH.
Qed.

(** The log that a loop adds is what the downloader answered, call by
    call, and the state it ends in is the downloader's. *)
Lemma try_links_answers
    (dl : option string -> option string -> string -> W -> bool * W)
    (mk : option string -> option string -> string -> attempt)
    (name dir : option string) (links : list string) :
  (forall n d l w, download c (mk n d l) w = dl n d l w) ->
  forall w log r w' log',
    try_links dl mk name dir links w log = (r, w', log') ->
    exists new,
      log' = (log ++ new)%list
      /\ answers c (firstn (length new) (map (mk name dir) links)) w = (new, w')
      /\ (r = None -> length new = length links).
Proof.
  intros Hmk.
  induction links as [|link rest IH]; intros w log r w' log'; simpl.
  - intros [= <- <- <-]. exists []. rewrite app_nil_r. auto.
  - destruct (dl name dir link w) as [ok w1] eqn:Hd. destruct ok.
    + intros [= <- <- <-]. exists [(mk name dir link, true)].
      split; [reflexivity|]. split; [|discriminate].
      simpl. now rewrite Hmk, Hd.
    + intros H. apply IH in H as (new & -> & Ha & Hr).
      exists ((mk name dir link, false) :: new). split.
      { now rewrite <- app_assoc. }
      split; [|intros E; simpl; now rewrite (Hr E)].
      simpl. now rewrite Hmk, Hd, Ha.
Qed.

Lemma try_downloads_answers (self : TrailerTech) (name dir : option string)
    (appleLinks ytLinks : list string) (w : W) (log : list attempted) :
  let res := try_downloads c self name dir appleLinks ytLinks w log in
  exists new,
    attempts (snd res) = (log ++ new)%list
    /\ answers c (firstn (length new) (candidates name dir appleLinks ytLinks)) w
       = (new, world (snd res)).
Proof.
  unfold try_downloads, candidates.
  destruct (try_links (downloadApple c) AppleAttempt name dir appleLinks w log)
    as [[r1 w1] log1] eqn:H1.
  apply try_links_answers in H1 as (new1 & -> & Ha1 & Hr1); [|reflexivity].
  assert (Hle : (length new1 <= length (map (AppleAttempt name dir) appleLinks))%nat).
  { pose proof (answers_length (firstn (length new1)
                  (map (AppleAttempt name dir) appleLinks)) w) as Hl.
    rewrite Ha1 in Hl. simpl in Hl. rewrite length_firstn in Hl. lia. }
  destruct r1 as [link|].
  - simpl. exists new1. split; [reflexivity|].
    rewrite firstn_app.
    replace (length new1 - length (map (AppleAttempt name dir) appleLinks))%nat
      with 0%nat by lia.
    simpl. now rewrite app_nil_r.
  - specialize (Hr1 eq_refl).
    destruct (try_links (downloadYouTube c) YouTubeAttempt name dir ytLinks
                w1 (log ++ new1)) as [[r2 w2] log2] eqn:H2.
    apply try_links_answers in H2 as (new2 & -> & Ha2 & _); [|reflexivity].
    assert (Hres : attempts (snd (match r2 with
                     | Some link =>
                         (Downloaded link,
                          {| app := incr_downloaded self; world := w2;
                             attempts := ((log ++ new1) ++ new2)%list |})
                     | None =>
                         (NotFound, {| app := self; world := w2;
                                       attempts := ((log ++ new1) ++ new2)%list |})
                     end)) = ((log ++ new1) ++ new2)%list
                   /\ world (snd (match r2 with
                     | Some link =>
                         (Downloaded link,
                          {| app := incr_downloaded self; world := w2;
                             attempts := ((log ++ new1) ++ new2)%list |})
                     | None =>
                         (NotFound, {| app := self; world := w2;
                                       attempts := ((log ++ new1) ++ new2)%list |})
                     end)) = w2).
    { destruct r2; auto. }
    destruct Hres as [-> ->].
    exists (new1 ++ new2)%list. split; [now rewrite app_assoc|].
    rewrite length_app, Hr1.
    rewrite <- (length_map (AppleAttempt name dir) appleLinks) at 1.
    rewrite firstn_app_2, answers_app.
    rewrite <- (firstn_all (map (AppleAttempt name dir) appleLinks)) at 1.
    rewrite length_map, <- Hr1, Ha1, Ha2. reflexivity.
Qed.

(** Whether the loops end in "downloaded" is decided by the downloader:
    by whether it accepts one of the candidates when they are offered in
    order. *)
Lemma try_downloads_decided (self : TrailerTech) (name dir : option string)
    (appleLinks ytLinks : list string) (w : W) (log : list attempted) :
  let res := try_downloads c self name dir appleLinks ytLinks w log in
  if existsb snd (fst (answers c (candidates name dir appleLinks ytLinks) w))
  then (exists link, fst res = Downloaded link) /\ app (snd res) = incr_downloaded self
  else fst res = NotFound /\ app (snd res) = self.
Proof.
  intros res.
  destruct (try_downloads_spec self name dir appleLinks ytLinks w log)
    as (new & Hlog & _ & Hr).
  destruct (try_downloads_answers self name dir appleLinks ytLinks w log)
    as (new' & Hlog' & Ha).
  fold res in Hlog, Hr, Hlog', Ha.
  assert (new' = new) as -> by (rewrite Hlog in Hlog'; now apply app_inv_head in Hlog').
  set (all := candidates name dir appleLinks ytLinks) in *.
  pose proof (answers_app (firstn (length new) all) (skipn (length new) all) w) as Hsplit.
  rewrite firstn_skipn, Ha in Hsplit.
  destruct (answers c (skipn (length new) all) (world (snd res))) as [n2 w2].
  rewrite Hsplit. simpl fst.
  destruct (fst res) as [| | |link| | |]; try contradiction.
  - destruct Hr as [(pre & a & -> & _ & _) Happ].
    replace (existsb snd ((pre ++ [(a, true)]) ++ n2)) with true.
    + split; [eauto | exact Happ].
    + symmetry. apply existsb_exists. exists (a, true). split; [|reflexivity].
      apply in_or_app. left. apply in_or_app. right. now left.
  - destruct Hr as (Hlen & Hall & Happ).
    assert (n2 = []) as ->.
    { pose proof (answers_length all w) as Hl. rewrite Hsplit in Hl. simpl in Hl.
      rewrite length_app in Hl. destruct n2; [reflexivity | simpl in Hl; lia]. }
    rewrite app_nil_r.
    replace (existsb snd new) with false; [auto|].
    symmetry. apply not_true_is_false. intros H.
    apply existsb_exists in H as (x & Hin & Hx).
    rewrite List.Forall_forall in Hall. specialize (Hall x Hin).
    unfold failed in Hall. congruence.
Qed.

Lemma try_downloads_counters (self : TrailerTech) (name dir : option string)
    (appleLinks ytLinks : list string) (w : W) (log : list attempted) :
  let res := try_downloads c self name dir appleLinks ytLinks w log in
  (exists link, fst res = Downloaded link /\ app (snd res) = incr_downloaded self)
  \/ (fst res = NotFound /\ app (snd res) = self).
Proof.
  unfold try_downloads.
  destruct (try_links (downloadApple c) _ _ _ _ _ _) as [[[link|] w1] log1]; simpl.
  - left. eauto.
  - destruct (try_links (downloadYouTube c) _ _ _ _ _ _) as [[[link|] w2] log2]; simpl.
    + left. eauto.
    + right. auto.
Qed.

Lemma get_Trailer_counters (os : OS) (movieDir : string)
    (tmdbid imdbid title year : option string) (st : Run W) :
  let res := get_Trailer c os movieDir tmdbid imdbid title year st in
  app (snd res) = counters_after (fst res) (app st).
Proof.
  unfold get_Trailer.
  destruct (negb (isdir os _)); [reflexivity|].
  destruct (MovieFolder.init os movieDir) as [scanned|e]; [|reflexivity].
  destruct (negb (hasMovie _)); [reflexivity|].
  destruct (hasTrailer _); [reflexivity|].
  destruct (fetch_candidates c _ _ _ _ _ _) as [[[appleLinks ytLinks] w]|e];
    [|reflexivity].
  destruct (try_downloads_counters (incr_scanned (app st))
              (trailerName (folder scanned)) (trailerDirectory (folder scanned))
              appleLinks ytLinks w (attempts st)) as [(link & Ho & Ha)|[Ho Ha]];
    simpl in *; rewrite Ho, Ha; reflexivity.
Qed.

Lemma run_counters (calls : list Invocation) :
  forall st,
    app (snd (run c calls st))
    = fold_left (fun self o => counters_after o self) (fst (run c calls st)) (app st)
    /\ length (fst (run c calls st)) = length calls.
Proof.
  induction calls as [|i calls IH]; intros st; simpl; [auto|].
  destruct (invoke c i st) as [o st1] eqn:Hi.
  destruct (run c calls st1) as [outs st2] eqn:Hr. simpl.
  specialize (IH st1). rewrite Hr in IH. simpl in IH. destruct IH as [IH Hlen].
  pose proof (get_Trailer_counters (i_os i) (i_movieDir i) (i_tmdbid i)
                (i_imdbid i) (i_title i) (i_year i) st) as Hc.
  unfold invoke in Hi. rewrite Hi in Hc. simpl in Hc.
  rewrite IH, Hc. auto.
Qed.

End Orchestrator.

Lemma counters_fold (outs : list outcome) :
  forall self,
    let final := fold_left (fun s o => counters_after o s) outs self in
    directoriesScanned final = (directoriesScanned self + tally classified outs)%Z
    /\ trailersDownloaded final = (trailersDownloaded self + tally is_downloaded outs)%Z
    /\ trailersFound final = (trailersFound self + tally is_present outs)%Z.
Proof.
  unfold tally. induction outs as [|o outs IH]; intros self.
  - simpl. lia.
  - simpl fold_left. destruct (IH (counters_after o self)) as (H1 & H2 & H3).
    cbv zeta. rewrite H1, H2, H3.
    destruct o; simpl; lia.
Qed.

(** The loops are reached with the collaborators' lists whenever the
    folder has a movie, has no trailer, and the metadata can be read. *)
Lemma get_Trailer_downloads {W : Type} (c : Collaborators W) (os : OS)
    (movieDir : string) (tmdbid imdbid title year : option string) (st : Run W)
    (scanned : Scan) (appleLinks ytLinks : list string) (w : W) :
  isdir os (abspath os movieDir) = true ->
  MovieFolder.init os movieDir = Ok scanned ->
  hasMovie (folder scanned) = true ->
  hasTrailer (folder scanned) = false ->
  fetch_candidates c (folder scanned) tmdbid imdbid title year (world st)
  = Ok (appleLinks, ytLinks, w) ->
  get_Trailer c os movieDir tmdbid imdbid title year st
  = try_downloads c (incr_scanned (app st)) (trailerName (folder scanned))
      (trailerDirectory (folder scanned)) appleLinks ytLinks w (attempts st).
Proof.
  intros Hd Hi Hm Ht Hf. unfold get_Trailer.
  rewrite Hd, Hi. simpl. rewrite Hm, Ht. simpl. rewrite Hf. reflexivity.
Qed.

(** C7: for any sequence of invocations on one [TrailerTech] object, from
    any counter values.  Each invocation changes the counters as its
    terminal state says ([counters_after]): the invalid-path and no-movie
    ends change nothing; "trailer already present" adds one to scanned and
    one to found; "downloaded" adds one to scanned and one to downloaded;
    "not found" adds one to scanned only.  (An invocation that is left by
    an exception changes nothing when the exception comes from the
    classification, and has added one to scanned when it comes from
    reading the metadata, and calls no collaborator.)  Hence the counters after the sequence are the
    initial ones plus the number of invocations of each kind, and the
    derived missing count of [printStats],
    scanned - (downloaded + found), grows by exactly the number of
    invocations that were classified and ended without a trailer.
    Which terminal state an invocation ends in is decided by the folder
    and by the downloader: a path that is no directory ends as "invalid
    path" and a classified folder without a movie as "no movie", both
    with the object exactly as it was; a folder with a movie and a trailer
    ends as "trailer already present" with scanned and found one higher;
    a folder with a movie and no trailer whose candidates have been
    fetched ends as "downloaded", with scanned and downloaded one higher,
    when the downloader accepts one of the candidates offered in order,
    and as "not found", with scanned one higher, when it accepts none. *)
Theorem counters_account_for_outcomes {W : Type} (c : Collaborators W)
    (calls : list Invocation) (st : Run W) :
  let outs := fst (run c calls st) in
  let final := app (snd (run c calls st)) in
  (forall i s, app (snd (invoke c i s)) = counters_after (fst (invoke c i s)) (app s))
  /\ (forall i s,
        let os := i_os i in
        let res := invoke c i s in
        (isdir os (abspath os (i_movieDir i)) = false -> res = (InvalidPath, s))
        /\ (isdir os (abspath os (i_movieDir i)) = true ->
            (forall e,
               MovieFolder.init os (i_movieDir i) = Raise e ->
               res = (RaisedInClassify e, s))
            /\ forall scanned,
              MovieFolder.init os (i_movieDir i) = Ok scanned ->
              (hasMovie (folder scanned) = false -> res = (NoMovie, s))
              /\ (hasMovie (folder scanned) = true ->
                  hasTrailer (folder scanned) = true ->
                  res = (TrailerPresent,
                         {| app := incr_found (incr_scanned (app s));
                            world := world s; attempts := attempts s |}))
              /\ (hasMovie (folder scanned) = true ->
                  hasTrailer (folder scanned) = false ->
                  (forall e,
                     fetch_candidates c (folder scanned) (i_tmdbid i) (i_imdbid i)
                       (i_title i) (i_year i) (world s)
                     = Raise e ->
                     res = (RaisedInResolve e,
                            {| app := incr_scanned (app s);
                               world := world s; attempts := attempts s |}))
                  /\ forall appleLinks ytLinks w,
                    fetch_candidates c (folder scanned) (i_tmdbid i) (i_imdbid i)
                      (i_title i) (i_year i) (world s)
                    = Ok (appleLinks, ytLinks, w) ->
                    if existsb snd
                         (fst (answers c
                                 (candidates (trailerName (folder scanned))
                                    (trailerDirectory (folder scanned))
                                    appleLinks ytLinks) w))
                    then (exists link, fst res = Downloaded link)
                         /\ app (snd res) = incr_downloaded (incr_scanned (app s))
                    else fst res = NotFound
                         /\ app (snd res) = incr_scanned (app s))))
  /\ length outs = length calls
  /\ final = fold_left (fun self o => counters_after o self) outs (app st)
  /\ directoriesScanned final = (directoriesScanned (app st) + tally classified outs)%Z
  /\ trailersDownloaded final = (trailersDownloaded (app st) + tally is_downloaded outs)%Z
  /\ trailersFound final = (trailersFound (app st) + tally is_present outs)%Z
  /\ missingTrailers final
     = (directoriesScanned final - (trailersDownloaded final + trailersFound final))%Z
  /\ missingTrailers final = (missingTrailers (app st) + tally without_trailer outs)%Z.
Proof.
  intros outs final.
  destruct (run_counters c calls st) as [Hfold Hlen]. fold outs final in Hfold, Hlen.
  destruct (counters_fold outs (app st)) as (Hs & Hd & Hf).
  cbv zeta in Hs, Hd, Hf. rewrite <- Hfold in Hs, Hd, Hf.
  split; [intros i s; apply get_Trailer_counters|].
  split.
  { intros i s os res. subst os res. unfold invoke. split.
    - intros Hdir. unfold get_Trailer. now rewrite Hdir.
    - intros Hdir. split.
      { intros e Hini. unfold get_Trailer. now rewrite Hdir, Hini. }
      intros scanned Hini. split; [|split].
      + intros Hmov. unfold get_Trailer. rewrite Hdir, Hini. simpl. now rewrite Hmov.
      + intros Hmov Htr. unfold get_Trailer. rewrite Hdir, Hini. simpl.
        now rewrite Hmov, Htr.
      + intros Hmov Htr. split.
        { intros e Hfetch. unfold get_Trailer. rewrite Hdir, Hini. simpl.
          rewrite Hmov, Htr. simpl. now rewrite Hfetch. }
        intros appleLinks ytLinks w Hfetch.
        rewrite (get_Trailer_downloads c (i_os i) (i_movieDir i) (i_tmdbid i)
                   (i_imdbid i) (i_title i) (i_year i) s scanned appleLinks ytLinks w
                   Hdir Hini Hmov Htr Hfetch).
        apply try_downloads_decided. }
  split; [exact Hlen|]. split; [exact Hfold|].
  split; [exact Hs|]. split; [exact Hd|]. split; [exact Hf|].
  split; [reflexivity|].
  unfold missingTrailers. rewrite Hs, Hd, Hf.
  assert (Ht : tally classified outs
               = (tally is_downloaded outs + tally is_present outs
                  + tally without_trailer outs)%Z).
  { unfold tally. clear. induction outs as [|o outs IH]; [reflexivity|].
    destruct o; simpl; lia. }
  lia.
Qed.


(** Without overrides and without a kept sidecar record, line 62 reads an
    attribute of [None]. *)
Lemma get_Trailer_without_sidecar {W : Type} (c : Collaborators W) (os : OS)
    (movieDir : string) (st : Run W) (scanned : Scan) :
  isdir os (abspath os movieDir) = true ->
  MovieFolder.init os movieDir = Ok scanned ->
  hasMovie (folder scanned) = true ->
  hasTrailer (folder scanned) = false ->
  nfo (folder scanned) = None ->
  get_Trailer c os movieDir None None None None st
  = (RaisedInResolve AttributeError,
     {| app := incr_scanned (app st); world := world st; attempts := attempts st |}).
Proof.
  intros Hd Hi Hm Ht Hn. unfold get_Trailer.
  rewrite Hd, Hi. simpl. rewrite Hm, Ht. simpl.
  unfold fetch_candidates. rewrite Hn. reflexivity.
Qed.

(* ------------------------------------------------------------------ *)
(** ** The properties on the concrete folders *)
(* ------------------------------------------------------------------ *)

(** C1: the folder of the scenario -- movie.mkv (1800 s) only, no
    sidecar file, no overrides, collaborators that return empty lists.
    The classification finds the movie, no trailer and no sidecar record;
    scanned is incremented; then line 62 evaluates [folder.nfo.tmdb] with
    [folder.nfo] being [None], and [AttributeError] leaves [get_Trailer].
    The invocation does not end in the "not found" state. *)
Theorem movie_only_folder_raises :
  MovieFolder.init os_movie_only "/lib/Film"
  = Ok {| folder := {| rootDir := "/lib/Film";
                       movie := Some {| v_path := "/lib/Film/movie.mkv";
                                        duration := 1800%float |};
                       trailer := None;
                       nfo := None |};
          probed := ["/lib/Film/movie.mkv"] |}
  /\ get_Trailer no_candidates os_movie_only "/lib/Film" None None None None fresh_run
     = (RaisedInResolve AttributeError,
        {| app := {| directoriesScanned := 1; trailersDownloaded := 0;
                     trailersFound := 0 |};
           world := tt; attempts := [] |}).
Proof. split; vm_compute; reflexivity. Qed.

(** With a title and a year given by the caller the same folder is
    processed to the end: here the catalog's first link fails and its
    second one succeeds. *)
Example movie_only_folder_with_overrides :
  get_Trailer two_catalog_links os_movie_only "/lib/Film"
    None None (Some "Film") (Some "1994") fresh_run
  = (Downloaded "yt/second",
     {| app := {| directoriesScanned := 1; trailersDownloaded := 1;
                  trailersFound := 0 |};
        world := tt;
        attempts :=
          [ (YouTubeAttempt (Some "movie-trailer.mp4") (Some "/lib/Film") "yt/first", false);
            (YouTubeAttempt (Some "movie-trailer.mp4") (Some "/lib/Film") "yt/second", true) ] |}).
Proof. vm_compute. reflexivity. Qed.

(** C6: the sidecar of the scenario gives the fifteen digits
    123456789012345 under a generic id tag and the text
    "tt0111161 (1994)" under another.  Both are stored by [__parse_id],
    and both accessors return them: [re.match] looks for the pattern at the
    start of the string and does not ask where it ends.  Neither value is
    a word of its pattern, which allows eleven digits at most for the
    numeric id and nothing after the digits of the textual id.  The
    unique-id fields are let through in the same way: the text "27x" of a
    "uniqueid" element of type tmdb is returned as the numeric id.  (The
    eleven digits 12345678901 and the text "tt0111161" are words of the
    patterns.) *)
Theorem id_accessors_return_unmatched :
  (n <- NFO.init os_long_ids "/lib/Film/movie.nfo" ;; Ok (NFO.tmdb n, NFO.imdb n))
  = Ok (Some "123456789012345", Some "tt0111161 (1994)")
  /\ ~ Re.lang TMDB_ID_PATTERN "123456789012345"
  /\ ~ Re.lang IMDB_ID_PATTERN "tt0111161 (1994)"
  /\ NFO.tmdb (NFO.set_unique_id_tmdb (Some "27x") (NFO.blank "/lib/Film/movie.nfo"))
     = Some "27x"
  /\ ~ Re.lang TMDB_ID_PATTERN "27x"
  /\ matches_whole TMDB_ID_PATTERN "12345678901" = true
  /\ matches_whole IMDB_ID_PATTERN "tt0111161" = true.
Proof.
  split; [vm_compute; reflexivity|].
  split; [|split; [|split; [vm_compute; reflexivity|split;
    [|split; vm_compute; reflexivity]]]].
  - intros H. apply matches_whole_lang in H. vm_compute in H. discriminate H.
  - intros H. apply matches_whole_lang in H. vm_compute in H. discriminate H.
  - intros H. apply matches_whole_lang in H. vm_compute in H. discriminate H.
Qed.

(** C4, counterexample: Film.mkv and Film.MKV have extensions that
    differ in letter case only; the scan step hands the first to ffprobe
    and stores it, and leaves the second alone. *)
Lemma extension_case_counterexample : ~ extension_case_insensitive.
Proof.
  intros H.
  destruct (H os_upper_case (start os_upper_case "/lib/Film")
              "/lib/Film/Film.mkv" "/lib/Film/Film.MKV" eq_refl) as [_ [H1 _]].
  destruct H1 as (st' & Hs & Hp).
  - eexists. split; vm_compute; reflexivity.
  - vm_compute in Hs. injection Hs as <-. vm_compute in Hp. discriminate Hp.
Qed.

(** A folder whose only file is Film.MKV is found to hold no movie. *)
Example upper_case_folder_has_no_movie :
  exists st, MovieFolder.init os_upper_case "/lib/Film" = Ok st
             /\ hasMovie (folder st) = false.
Proof. eexists. split; vm_compute; reflexivity. Qed.

(** Film.MKV: the extension has upper-case letters, the file is ignored
    and the scan step on it changes nothing. *)
Lemma extension_match_is_exact_witness :
  lower (ext_of "/lib/Film/Film.MKV") <> ext_of "/lib/Film/Film.MKV"
  /\ classify "/lib/Film/Film.MKV" = Ignored
  /\ scan_file os_upper_case "/lib/Film/Film.MKV" (start os_upper_case "/lib/Film")
     = Ok (start os_upper_case "/lib/Film").
Proof.
  assert (H : lower (ext_of "/lib/Film/Film.MKV") <> ext_of "/lib/Film/Film.MKV").
  { vm_compute. discriminate. }
  split; [exact H|].
  destruct (proj2 (proj2 (proj2 (proj2
              (extension_match_is_exact "/lib/Film/Film.MKV")))) H) as [Hc Hs].
  split; [exact Hc | apply Hs].
Defined.

(** C9, counterexample: BDMV (with index.bdmv) is listed before
    extras.mkv (1800 s); the movie of the result is extras.mkv. *)
Lemma disc_movie_counterexample : ~ disc_movie_is_result.
Proof.
  intros H.
  destruct (MovieFolder.init os_bluray_then_file "/lib/Film") as [st|e] eqn:Hi;
    [|vm_compute in Hi; discriminate Hi].
  specialize (H os_bluray_then_file "/lib/Film" "BDMV" st Hi).
  vm_compute in Hi. injection Hi as <-.
  specialize (H (or_introl eq_refl) eq_refl eq_refl eq_refl eq_refl).
  vm_compute in H. discriminate H.
Qed.

(** The scenario of the specification: index.bdmv and index-trailer.mp4
    (90 s) give the movie and the trailer, and only the trailer is
    probed. *)
Lemma disc_folder_bdmv_witness :
  exists st',
    scan_item os_bluray (start os_bluray "/lib/Film") "BDMV" = Ok st'
    /\ movie (folder st')
       = Some {| v_path := "/lib/Film/BDMV/index.bdmv"; duration := 601%float |}
    /\ trailer (folder st')
       = Some {| v_path := "/lib/Film/BDMV/index-trailer.mp4"; duration := 90%float |}
    /\ probed st' = ["/lib/Film/BDMV/index-trailer.mp4"].
Proof.
  destruct (disc_folder_bdmv os_bluray (start os_bluray "/lib/Film") "BDMV"
              eq_refl eq_refl eq_refl eq_refl)
    as (st' & H1 & H2 & _ & H4 & _ & H6 & _).
  exists st'. split; [exact H1|]. split; [exact H2|].
  split; [rewrite H6 | rewrite H4]; reflexivity.
Defined.

(** a.nfo (complete, 100 bytes), b.nfo (incomplete, 900 bytes), c.xml
    (complete, 300 bytes): the scan keeps the record of c.xml. *)
Lemma sidecar_selection_witness :
  kept_complete (start os_sidecars "/lib/Film")
  /\ exists st',
      scan_items os_sidecars (start os_sidecars "/lib/Film") ["a.nfo"; "b.nfo"; "c.xml"]
      = Ok st'
      /\ kept_complete st'
      /\ option_map n_path (nfo (folder st')) = Some "/lib/Film/c.xml".
Proof.
  assert (Hk : kept_complete (start os_sidecars "/lib/Film")).
  { intros k Hn. discriminate Hn. }
  split; [exact Hk|].
  destruct (scan_items os_sidecars (start os_sidecars "/lib/Film")
              ["a.nfo"; "b.nfo"; "c.xml"]) as [st'|e] eqn:Hrun;
    [|vm_compute in Hrun; discriminate Hrun].
  exists st'. split; [reflexivity|].
  split.
  - exact (proj1 (proj2 (sidecar_selection os_sidecars _ Hk) _ _ Hrun)).
  - vm_compute in Hrun. injection Hrun as <-. reflexivity.
Defined.

(** The unique-id value "0111161" fails the textual pattern and is
    skipped; the generic-tag value "tt0111161" is returned. *)
Lemma id_accessors_validated_witness :
  NFO.imdb record_with_bad_uniqueid = Some "tt0111161"
  /\ Re.matches_prefix IMDB_ID_PATTERN "tt0111161" = true.
Proof.
  split; [reflexivity|].
  exact (proj1 (proj1 (id_accessors_validated record_with_bad_uniqueid)
                  "tt0111161" eq_refl)).
Defined.

(** <movie><title>Film</title><uniqueid>tt0111161</uniqueid></movie> *)
Lemma uniqueid_without_type_witness :
  NFO.init os_untyped_uniqueid "/lib/Film/movie.nfo" = Raise KeyError.
Proof.
  exact (proj1 (uniqueid_without_type_raises os_untyped_uniqueid "/lib/Film/movie.nfo"
                  [ {| tag := "title"; attrib := ∅; text := Some "Film" |} ] []
                  untyped_uniqueid eq_refl eq_refl eq_refl)).
Defined.

(** The whole invocation on that folder is left by the [KeyError], and
    no counter has changed. *)
Example untyped_uniqueid_invocation :
  get_Trailer no_candidates os_untyped_uniqueid "/lib/Film" None None None None fresh_run
  = (RaisedInClassify KeyError, fresh_run).
Proof. vm_compute. reflexivity. Qed.

(** C7 on two invocations: the Blu-ray folder, which has a movie and a
    trailer, ends as "trailer already present" with scanned and found at
    one; the folder that holds movie.mkv only, called with a title and a
    year, ends as "downloaded" with scanned and downloaded at one, the
    downloader accepting the catalog's second link. *)
Lemma counters_account_for_outcomes_witness :
  invoke no_candidates
    {| i_os := os_bluray; i_movieDir := "/lib/Film";
       i_tmdbid := None; i_imdbid := None; i_title := None; i_year := None |}
    fresh_run
  = (TrailerPresent,
     {| app := {| directoriesScanned := 1; trailersDownloaded := 0;
                  trailersFound := 1 |};
        world := tt; attempts := [] |})
  /\ (exists link,
        fst (invoke two_catalog_links
               {| i_os := os_movie_only; i_movieDir := "/lib/Film";
                  i_tmdbid := None; i_imdbid := None;
                  i_title := Some "Film"; i_year := Some "1994" |}
               fresh_run)
        = Downloaded link)
  /\ app (snd (invoke two_catalog_links
                 {| i_os := os_movie_only; i_movieDir := "/lib/Film";
                    i_tmdbid := None; i_imdbid := None;
                    i_title := Some "Film"; i_year := Some "1994" |}
                 fresh_run))
     = {| directoriesScanned := 1; trailersDownloaded := 1; trailersFound := 0 |}.
Proof.
  split.
  - destruct (MovieFolder.init os_bluray "/lib/Film") as [scanned|e] eqn:Hi;
      [|vm_compute in Hi; discriminate Hi].
    pose proof Hi as Hv. vm_compute in Hv. injection Hv as <-.
    destruct (proj1 (proj2 (counters_account_for_outcomes no_candidates [] fresh_run))
                {| i_os := os_bluray; i_movieDir := "/lib/Film";
                   i_tmdbid := None; i_imdbid := None; i_title := None;
                   i_year := None |} fresh_run) as [_ H].
    destruct (proj2 (H eq_refl) _ Hi) as (_ & Hp & _).
    rewrite (Hp eq_refl eq_refl). reflexivity.
  - destruct (MovieFolder.init os_movie_only "/lib/Film") as [scanned|e] eqn:Hi;
      [|vm_compute in Hi; discriminate Hi].
    pose proof Hi as Hv. vm_compute in Hv. injection Hv as <-.
    destruct (proj1 (proj2 (counters_account_for_outcomes two_catalog_links [] fresh_run))
                {| i_os := os_movie_only; i_movieDir := "/lib/Film";
                   i_tmdbid := None; i_imdbid := None;
                   i_title := Some "Film"; i_year := Some "1994" |} fresh_run)
      as [_ H].
    destruct (proj2 (H eq_refl) _ Hi) as (_ & _ & Hp).
    pose proof (proj2 (Hp eq_refl eq_refl) [] ["yt/first"; "yt/second"] tt eq_refl)
      as Hdl. clear Hp. rename Hdl into Hp.
    match type of Hp with
    | (if ?b then _ else _) => replace b with true in Hp by (vm_compute; reflexivity)
    end.
    destruct Hp as [Hl Ha]. split; [exact Hl|]. rewrite Ha. reflexivity.
Defined.


(* ================================================================== *)
(** * Further properties of the code *)
(* ================================================================== *)

(* ------------------------------------------------------------------ *)
(** ** Further properties of sidecar records *)
(* ------------------------------------------------------------------ *)

Lemma parse_item_raise_inv (self : NFO) (item : Element) (e : exn) :
  NFO.parse_item self item = Raise e -> lacks_type item.
Proof.
  unfold NFO.parse_item, getitem, lacks_type.
  destruct (parse_releaseDate_opt (text item)) as [y Hy]. rewrite Hy.
  destruct (lower (tag item) =? "uniqueid") eqn:Ht.
  - apply String.eqb_eq in Ht.
    destruct (attrib item !! "type") as [ty|]; simpl; [|auto].
    repeat match goal with |- context [if ?b then _ else _] => destruct b end;
      discriminate.
  - repeat (simpl;
            match goal with
            | |- context [if ?b then _ else _] => destruct b
            end); simpl; discriminate.
Qed.

Lemma parse_items_raise_inv (items : list Element) :
  forall self e, NFO.parse_items self items = Raise e -> Exists lacks_type items.
Proof.
  induction items as [|item items IH]; intros self e; simpl; [discriminate|].
  destruct (NFO.parse_item self item) as [self'|e'] eqn:Hi; simpl.
  - intros H. apply Exists_cons_tl. eapply IH; eauto.
  - intros _. apply Exists_cons_hd. eapply parse_item_raise_inv; eauto.
Qed.

(** X1: once [et.parse] has given the root of the file, the loop over
    its children fails in one way only.  The constructor raises exactly
    when one of the children is a "uniqueid" element without a "type"
    attribute, and the exception is then [KeyError]; with any other
    children it returns a record. *)
Theorem constructor_raises_iff (os : OS) (path : string) (items : list Element) :
  et_parse os path = XmlRoot items ->
  (forall e, NFO.init os path = Raise e <-> e = KeyError /\ Exists lacks_type items)
  /\ (~ Exists lacks_type items -> exists n, NFO.init os path = Ok n).
Proof.
  intros Hx.
  assert (Hiff : forall e, NFO.init os path = Raise e
                           <-> e = KeyError /\ Exists lacks_type items).
  { intros e. unfold NFO.init, NFO.__parse_nfo. simpl. rewrite Hx. split.
    - intros H. pose proof (parse_items_raise_inv _ _ _ H) as Hex.
      split; [|exact Hex].
      apply List.Exists_exists in Hex as (item & Hin & Ht & Ha).
      apply in_split in Hin as (pre & post & ->).
      rewrite (parse_items_uniqueid_untyped pre post item Ht Ha) in H.
      now injection H as <-.
    - intros (-> & Hex).
      apply List.Exists_exists in Hex as (item & Hin & Ht & Ha).
      apply in_split in Hin as (pre & post & ->).
      now apply parse_items_uniqueid_untyped. }
  split; [exact Hiff|].
  intros Hno. destruct (NFO.init os path) as [n|e] eqn:Hi; [eauto|].
  exfalso. apply Hno. now apply (Hiff e).
Qed.

Lemma parse_id_ids (t : option string) (self : NFO) :
  ids_parsed self -> ids_parsed (NFO.__parse_id t self).
Proof.
  intros Hall. pose proof Hall as (Hid & Hi & Ht). unfold NFO.__parse_id.
  destruct t as [s|]; [|exact Hall].
  simpl. destruct (s =? "") eqn:He; simpl; [exact Hall|].
  destruct (startswith (lower s) "tt") eqn:Hs.
  - split; [exact Hid|]. split; [|exact Ht].
    simpl. intros s' [= <-]. split; [|exact Hs]. intros ->. discriminate He.
  - destruct (isdigit s) eqn:Hd; [|exact Hall].
    split; [exact Hid|]. split; [exact Hi|].
    simpl. intros s' [= <-]. split; assumption.
Qed.

Lemma parse_item_ids (self self' : NFO) (item : Element) :
  NFO.parse_item self item = Ok self' ->
  ids_parsed self -> n_path self' = n_path self /\ ids_parsed self'.
Proof.
  unfold NFO.parse_item, getitem. intros H Hids.
  destruct (parse_releaseDate_opt (text item)) as [y Hy]. rewrite Hy in H.
  pose proof (parse_id_ids (text item) self Hids) as Hpid.
  assert (Hpath : n_path (NFO.__parse_id (text item) self) = n_path self).
  { unfold NFO.__parse_id.
    repeat match goal with
           | |- context [match ?o with Some _ => _ | None => _ end] => destruct o
           | |- context [if ?b then _ else _] => destruct b
           end; reflexivity. }
  repeat (simpl in H;
          match type of H with
          | context [if ?b then _ else _] => destruct b
          | context [match ?o with Some _ => _ | None => _ end] => destruct o
          end);
    simpl in H; try discriminate H; injection H as <-; auto.
Qed.

Lemma parse_items_ids (items : list Element) :
  forall self self',
    NFO.parse_items self items = Ok self' ->
    ids_parsed self -> n_path self' = n_path self /\ ids_parsed self'.
Proof.
  induction items as [|item items IH]; intros self self'; simpl.
  - intros [= <-]. auto.
  - destruct (NFO.parse_item self item) as [self1|e] eqn:H1; simpl; [|discriminate].
    intros H Hd. destruct (parse_item_ids _ _ _ H1 Hd) as [Hp Hi].
    destruct (IH _ _ H Hi) as [Hp' Hi']. split; [congruence | assumption].
Qed.

Lemma first_valid_none_last (pattern : Re.regex) (a b : option string) :
  first_valid pattern [a; b; None] = first_valid pattern [a; b].
Proof.
  rewrite !first_valid_guard. simpl. reflexivity.
Qed.

(** X2: every record that the constructor returns keeps the path it was
    built from; its "id" field is unset -- no tag is ever stored in it, the
    tag "id" being handled with the other generic id tags -- so each id
    accessor chooses between two sources only; the generic textual field
    holds, if anything, a non-empty text that starts with "tt" in any
    letter case, and the generic numeric field a text of digits that does
    not; and the two date fields hold [None] or four digits. *)
Theorem constructor_record (os : OS) (path : string) (n : NFO) :
  NFO.init os path = Ok n ->
  n_path n = path
  /\ ids_parsed n
  /\ dates_parsed n
  /\ NFO.imdb n = first_valid IMDB_ID_PATTERN [__unique_id_imdb n; __imdb n]
  /\ NFO.tmdb n = first_valid TMDB_ID_PATTERN [__unique_id_tmdb n; __tmdb n].
Proof.
  intros Hi.
  assert (Hb : ids_parsed (NFO.blank path)).
  { split; [reflexivity|]. split; intros s [=]. }
  assert (H : n_path n = path /\ ids_parsed n).
  { unfold NFO.init, NFO.__parse_nfo in Hi. simpl in Hi.
    destruct (et_parse os path) as [| |items].
    - injection Hi as <-. auto.
    - injection Hi as <-. auto.
    - apply (parse_items_ids items (NFO.blank path) n Hi Hb). }
  destruct H as [Hp Hids]. split; [exact Hp|]. split; [exact Hids|].
  split; [eapply init_dates; eauto|].
  destruct Hids as (Hid & _).
  rewrite imdb_first_valid, tmdb_first_valid, Hid, !first_valid_none_last. auto.
Qed.

Lemma year_raises_type_error (self : NFO) (e : exn) :
  NFO.year self = Raise e -> e = TypeError.
Proof.
  unfold NFO.year, NFO.or_else, Re.re_match, truthy_opt.
  destruct (parse_releaseDate_opt (__premiered self)) as [y Hy]. rewrite Hy.
  rewrite parse_releaseDate_method.
  destruct y as [y|], (__premiered self) as [p|], (__releasedate self) as [r|],
    (__year self) as [a|], (__productionyear self) as [q|]; simpl;
    repeat (match goal with
            | |- context [if ?b then _ else _] => destruct b
            end; simpl); congruence.
Qed.

Lemma is_complete_raises_type_error (self : NFO) (e : exn) :
  NFO.is_complete self = Raise e -> e = TypeError.
Proof.
  unfold NFO.is_complete.
  destruct (truthy_opt (NFO.imdb self) || truthy_opt (NFO.tmdb self)); [discriminate|].
  destruct (truthy_opt (NFO.title self)); [|discriminate].
  destruct (NFO.year self) as [y|e'] eqn:Hy; simpl; [discriminate|].
  intros [= <-]. eapply year_raises_type_error; eauto.
Qed.

(** X3: the completeness test on every record with parsed dates, hence
    on every record the constructor returns.  A valid textual or numeric
    id makes the record complete whatever else it holds.  Without one and
    without a non-empty title it is incomplete.  With a non-empty title and
    no valid id it is complete when the premiered year is valid; otherwise
    the test raises [TypeError] as soon as a release date is stored;
    otherwise it is complete exactly when the raw "year" or the raw
    "productionyear" is valid. *)
Theorem is_complete_of_parsed (self : NFO) :
  dates_parsed self ->
  NFO.is_complete self
  = if truthy_opt (NFO.imdb self) || truthy_opt (NFO.tmdb self) then Ok true
    else if truthy_opt (NFO.title self) then
      if NFO.guard YEAR_PATTERN (__premiered self) then Ok true
      else if truthy_opt (__releasedate self) then Raise TypeError
      else Ok (NFO.guard YEAR_PATTERN (__year self)
               || NFO.guard YEAR_PATTERN (__productionyear self))
    else Ok false.
Proof.
  intros Hd. unfold NFO.is_complete. rewrite (year_of_parsed _ Hd).
  destruct (truthy_opt (NFO.imdb self) || truthy_opt (NFO.tmdb self)); [reflexivity|].
  destruct (truthy_opt (NFO.title self)); [|reflexivity].
  destruct (NFO.guard YEAR_PATTERN (__premiered self)) eqn:Hp.
  { apply guard_true in Hp as (s & -> & Hne & _). simpl. unfold truthy_opt. simpl.
    destruct (s =? "") eqn:He; [apply String.eqb_eq in He; contradiction | reflexivity]. }
  destruct (truthy_opt (__releasedate self)); [reflexivity|]. simpl.
  destruct (NFO.guard YEAR_PATTERN (__year self)) eqn:Hy.
  { apply guard_true in Hy as (s & -> & Hne & _). unfold truthy_opt. simpl.
    destruct (s =? "") eqn:He; [apply String.eqb_eq in He; contradiction | reflexivity]. }
  destruct (NFO.guard YEAR_PATTERN (__productionyear self)) eqn:Hq; [|reflexivity].
  apply guard_true in Hq as (s & -> & Hne & _). unfold truthy_opt. simpl.
  destruct (s =? "") eqn:He; [apply String.eqb_eq in He; contradiction | reflexivity].
Qed.

(** Inversion of a word of a pattern built from [Cat], [Alt], [Cls] and
    [Eps]. *)
Ltac invert_lang :=
  repeat match goal with
         | H : Re.lang (Re.Cat _ _) _ |- _ => inversion H; subst; clear H
         | H : Re.lang (Re.Alt _ _) _ |- _ => inversion H; subst; clear H
         | H : Re.lang (Re.Cls _) _ |- _ => inversion H; subst; clear H
         | H : Re.lang Re.Eps _ |- _ => inversion H; subst; clear H
         | H : Re.lang Re.Void _ |- _ => inversion H
         | H : Ascii.eqb _ _ = true |- _ => apply Ascii.eqb_eq in H; subst
         end.

Lemma lang_times_cons (p : ascii -> bool) (n : nat) (c : ascii) (t : string) :
  p c = true ->
  Re.lang (Re.times n (Re.Cls p)) t ->
  Re.lang (Re.times (S n) (Re.Cls p)) (String c t).
Proof.
  intros Hc Ht. simpl. change (String c t) with (String c "" ++ t).
  constructor; [now constructor | exact Ht].
Qed.

Ltac digits_hold :=
  repeat (apply lang_times_cons; [assumption|]); apply Re.L_eps.

Lemma tmdb_pattern_shape (v : string) :
  Re.matches_prefix TMDB_ID_PATTERN v = true ->
  exists a b rest,
    v = String a (String b rest)
    /\ Re.lang (Re.range "1" "9") (String a "")
    /\ Re.lang Re.digit (String b "").
Proof.
  intros H. apply matches_prefix_lang in H as (u & w & -> & Hu).
  cbv [TMDB_ID_PATTERN Re.between Re.times Re.upto Re.opt Re.range Re.digit Nat.sub] in Hu.
  inversion Hu as [| |r s u1 u2 H1 H2| |]; subst; clear Hu.
  inversion H1; subst; clear H1.
  inversion H2 as [| |r s u3 u4 H3 H4| |]; subst; clear H2.
  inversion H3 as [| |r s u5 u6 H5 H6| |]; subst; clear H3.
  inversion H5; subst; clear H5.
  simpl. eexists _, _, _. split; [reflexivity|].
  split; apply Re.L_cls; assumption.
Qed.

Lemma imdb_pattern_shape (v : string) :
  Re.matches_prefix IMDB_ID_PATTERN v = true ->
  exists p ds rest,
    v = p ++ ds ++ rest
    /\ In p ["ch"; "co"; "ev"; "nm"; "tt"]
    /\ Re.lang (Re.times 7 Re.digit) ds.
Proof.
  intros H. apply matches_prefix_lang in H as (u & w & -> & Hu).
  cbv [IMDB_ID_PATTERN Re.lit Re.between Re.times Re.upto Re.opt Re.chr Re.digit
       Nat.sub] in Hu.
  invert_lang;
    cbv [String.append];
    match goal with
    | |- exists p ds rest, String ?a (String ?b ?t) = _ /\ _ =>
        exists (String a (String b ""))
    end;
    match goal with
    | |- exists ds rest,
        String _ (String _ (String ?d1 (String ?d2 (String ?d3 (String ?d4
                 (String ?d5 (String ?d6 (String ?d7 ?t)))))))) = _ /\ _ =>
        exists (String d1 (String d2 (String d3 (String d4
                 (String d5 (String d6 (String d7 ""))))))), t
    end;
    (split; [reflexivity|]); (split; [simpl; tauto|]);
    digits_hold.
Qed.

(** X4: what the validation gives a caller, in terms of the patterns'
    own character classes.  A value returned by the numeric-id accessor
    has at least two characters, the first one of the class [[1-9]] and
    the second one of the class [\d]: a one-character id, or one with a
    leading zero, is never returned.  A value returned by the textual-id
    accessor starts with one of the five two-letter prefixes ch, co, ev,
    nm, tt, in lower case, followed by a word of [\d{7}].  Nothing is said
    of what follows. *)
Theorem id_accessor_shapes (self : NFO) :
  (forall v, NFO.tmdb self = Some v ->
     exists a b rest,
       v = String a (String b rest)
       /\ Re.lang (Re.range "1" "9") (String a "")
       /\ Re.lang Re.digit (String b ""))
  /\ (forall v, NFO.imdb self = Some v ->
     exists p ds rest,
       v = p ++ ds ++ rest
       /\ In p ["ch"; "co"; "ev"; "nm"; "tt"]
       /\ Re.lang (Re.times 7 Re.digit) ds).
Proof.
  split; intros v H.
  - rewrite tmdb_first_valid in H. apply first_valid_sound in H as (_ & _ & Hm).
    now apply tmdb_pattern_shape.
  - rewrite imdb_first_valid in H. apply first_valid_sound in H as (_ & _ & Hm).
    now apply imdb_pattern_shape.
Qed.

(* ------------------------------------------------------------------ *)
(** ** Further properties of the classification *)
(* ------------------------------------------------------------------ *)

Lemma scan_disc_result (os : OS) (dir index_file marker : string) (st : Scan) :
  let st' := scan_disc os dir index_file marker st in
  if isfile os (OsPath.join dir index_file) then
    movie (folder st')
    = Some {| v_path := OsPath.join dir index_file; duration := 601%float |}
    /\ trailer (folder st') = or_kept (last (disc_trailers os dir marker)) (trailer (folder st))
    /\ probed st' = (probed st ++ map (OsPath.join dir) (marked_children os dir marker))%list
  else st' = st.
Proof.
  unfold scan_disc. destruct (isfile os (OsPath.join dir index_file)); [|reflexivity].
  simpl.
  match goal with
  | |- context [fold_left ?f ?l ?s] =>
      destruct (scan_disc_entries_spec os dir marker l s) as [Hp Ht];
      destruct (scan_disc_entries_frame os dir marker l s) as (_ & _ & Hmv)
  end.
  simpl in Hp, Ht, Hmv. split; [exact Hmv|]. split; [exact Ht | exact Hp].
Qed.

Lemma scan_file_sidecar_frame (os : OS) (path : string) (st st' : Scan) :
  classify path = SidecarFile ->
  scan_file os path st = Ok st' ->
  movie (folder st') = movie (folder st)
  /\ trailer (folder st') = trailer (folder st)
  /\ probed st' = probed st.
Proof.
  unfold classify, scan_file. fold (ext_of path).
  destruct (in_list (ext_of path) VIDEO_EXTENSIONS); [discriminate|].
  destruct (in_list (ext_of path) NFO_EXTENSIONS); [|discriminate].
  intros _. destruct (NFO.init os path); simpl; [|discriminate].
  destruct (nfo_condition os _ _) as [[|]|]; simpl; try discriminate;
    intros [= <-]; auto.
Qed.

(** One step of the scan, seen from the movie and the trailer. *)
Lemma scan_item_result (os : OS) (st st' : Scan) (name : string) :
  scan_item os st name = Ok st' ->
  movie (folder st')
  = or_kept (entry_movie os (rootDir (folder st)) name) (movie (folder st))
  /\ trailer (folder st')
     = or_kept (last (entry_trailers os (rootDir (folder st)) name)) (trailer (folder st)).
Proof.
  unfold scan_item, entry_movie, entry_trailers, disc_movie.
  set (path := OsPath.join (rootDir (folder st)) name).
  destruct (isfile os path).
  - destruct (classify path) eqn:Hc.
    + rewrite (scan_file_video _ _ _ Hc). fold (probe os path). cbv zeta.
      unfold classify in Hc. destruct (in_list (ext_of path) VIDEO_EXTENSIONS).
      2:{ destruct (in_list (ext_of path) NFO_EXTENSIONS); discriminate. }
      intros [= <-]. destruct (Video.isMovie (probe os path)); simpl; auto.
    + intros H. destruct (scan_file_sidecar_frame _ _ _ _ Hc H) as (Hm & Ht & _).
      unfold classify in Hc. destruct (in_list (ext_of path) VIDEO_EXTENSIONS);
        [discriminate|]. simpl. auto.
    + rewrite (scan_file_ignored _ _ _ Hc). intros [= <-].
      unfold classify in Hc. destruct (in_list (ext_of path) VIDEO_EXTENSIONS);
        [discriminate|]. simpl. auto.
  - destruct (isdir os path); [|intros [= <-]; auto].
    destruct (contains "bdmv" (lower path)); simpl.
    + intros [= <-].
      pose proof (scan_disc_result os path "index.bdmv" "index-trailer" st) as Hr.
      cbv zeta in Hr. destruct (isfile os (OsPath.join path "index.bdmv")).
      * destruct Hr as (Hm & Ht & _). rewrite Hm, Ht. auto.
      * rewrite Hr. auto.
    + destruct (contains "video_ts" (lower path)); simpl; intros [= <-]; [|auto].
      pose proof (scan_disc_result os path "VIDEO_TS.IFO" "video_ts-trailer" st) as Hr.
      cbv zeta in Hr. destruct (isfile os (OsPath.join path "VIDEO_TS.IFO")).
      * destruct Hr as (Hm & Ht & _). rewrite Hm, Ht. auto.
      * rewrite Hr. auto.
Qed.

Lemma or_kept_last_app {A : Type} (l1 l2 : list A) (old : option A) :
  or_kept (last (l1 ++ l2)) old = or_kept (last l2) (or_kept (last l1) old).
Proof.
  rewrite last_app. destruct (last l2); reflexivity.
Qed.

Lemma scan_items_result (os : OS) (names : list string) :
  forall st st',
    scan_items os st names = Ok st' ->
    movie (folder st')
    = or_kept (last (listed_movies os (rootDir (folder st)) names)) (movie (folder st))
    /\ trailer (folder st')
       = or_kept (last (listed_trailers os (rootDir (folder st)) names))
           (trailer (folder st)).
Proof.
  unfold listed_movies, listed_trailers.
  induction names as [|name names IH]; intros st st'; simpl.
  - intros [= <-]. auto.
  - destruct (scan_item os st name) as [st1|e] eqn:H1; simpl; [|discriminate].
    intros H. destruct (IH _ _ H) as [Hm Ht].
    destruct (scan_item_result _ _ _ _ H1) as [Hm1 Ht1].
    pose proof (scan_item_kept _ _ _ _ H1) as [Hr _].
    rewrite Hr in Hm, Ht. rewrite Hm, Ht, Hm1, Ht1, !or_kept_last_app.
    split; [|reflexivity].
    destruct (entry_movie os (rootDir (folder st)) name); reflexivity.
Qed.

Lemma init_result (os : OS) (directory : string) (st' : Scan) :
  MovieFolder.init os directory = Ok st' ->
  movie (folder st')
  = last (listed_movies os (abspath os directory) (listdir os (abspath os directory)))
  /\ trailer (folder st')
     = last (listed_trailers os (abspath os directory) (listdir os (abspath os directory))).
Proof.
  intros Hi. unfold MovieFolder.init, scan in Hi. simpl in Hi.
  destruct (scan_items_result _ _ _ _ Hi) as [Hm Ht]. simpl in Hm, Ht.
  rewrite Hm, Ht. split.
  - destruct (last (listed_movies os _ _)); reflexivity.
  - destruct (last (listed_trailers os _ _)); reflexivity.
Qed.

(** X5: the movie and the trailer of a classification that returns.  The
    movie is the one stored by the last entry of the listing that stores a
    movie -- a video file probed at 600 s or more, or a disc-image
    directory that holds its index file -- and [None] when no entry does;
    the trailer is the last Video that any entry stored as a trailer -- a
    video file probed below 600 s, or a marked child of a disc-image
    directory probed below 600 s -- and [None] when there is none.
    Sidecar files and all other entries have no part in either. *)
Theorem classification_last_wins (os : OS) (directory : string) (st' : Scan) :
  MovieFolder.init os directory = Ok st' ->
  let root := abspath os directory in
  rootDir (folder st') = root
  /\ movie (folder st') = last (listed_movies os root (listdir os root))
  /\ trailer (folder st') = last (listed_trailers os root (listdir os root)).
Proof.
  intros Hi root. split; [|exact (init_result os directory st' Hi)].
  unfold MovieFolder.init, scan in Hi. simpl in Hi.
  exact (scan_items_root _ _ _ _ Hi).
Qed.

Lemma entry_movie_isMovie (os : OS) (root name : string) (v : Video) :
  entry_movie os root name = Some v -> Video.isMovie v = true.
Proof.
  unfold entry_movie, disc_movie.
  repeat match goal with
         | |- context [if ?b then _ else _] => destruct b eqn:?
         end; try discriminate; intros [= <-]; try reflexivity.
  match goal with H : _ && _ = true |- _ => apply andb_true_iff in H as [_ H]; exact H end.
Qed.

Lemma entry_trailers_not_movie (os : OS) (root name : string) (v : Video) :
  In v (entry_trailers os root name) -> Video.isMovie v = false.
Proof.
  unfold entry_trailers, disc_trailers.
  repeat match goal with
         | |- context [if ?b then _ else _] => destruct b eqn:?
         end; simpl; try tauto.
  - intros [<-|[]].
    match goal with H : _ && _ = true |- _ => apply andb_true_iff in H as [_ H] end.
    now apply negb_true_iff.
  - intros H. apply filter_In in H as [_ H]. now apply negb_true_iff.
  - intros H. apply filter_In in H as [_ H]. now apply negb_true_iff.
Qed.

Lemma last_In {A : Type} (l : list A) (x : A) : last l = Some x -> In x l.
Proof.
  intros H. apply last_Some in H as [l' ->]. apply in_or_app. right. now left.
Qed.

(** X6: in the result of a classification the movie, if any, has a
    duration of at least 600 s and the trailer, if any, a duration below
    600 s (or none that compares); so the movie and the trailer of one
    result are never the same Video. *)
Theorem movie_and_trailer_differ (os : OS) (directory : string) (st' : Scan) :
  MovieFolder.init os directory = Ok st' ->
  (forall m, movie (folder st') = Some m -> Video.isMovie m = true)
  /\ (forall t, trailer (folder st') = Some t -> Video.isMovie t = false)
  /\ (forall m t, movie (folder st') = Some m -> trailer (folder st') = Some t -> m <> t).
Proof.
  intros Hi. destruct (init_result os directory st' Hi) as (Hm & Ht).
  assert (HM : forall m, movie (folder st') = Some m -> Video.isMovie m = true).
  { intros m H. rewrite Hm in H. apply last_In in H.
    unfold listed_movies in H. apply in_flat_map in H as (name & _ & Hin).
    destruct (entry_movie os _ name) as [v|] eqn:He; [|destruct Hin].
    destruct Hin as [<-|[]]. eapply entry_movie_isMovie; eauto. }
  assert (HT : forall t, trailer (folder st') = Some t -> Video.isMovie t = false).
  { intros t H. rewrite Ht in H. apply last_In in H.
    unfold listed_trailers in H. apply in_flat_map in H as (name & _ & Hin).
    eapply entry_trailers_not_movie; eauto. }
  split; [exact HM|]. split; [exact HT|].
  intros m t H1 H2 ->. specialize (HM _ H1). specialize (HT _ H2). congruence.
Qed.

Lemma sidecar_file_classify (os : OS) (root name : string) :
  sidecar_file os root name = true
  <-> isfile os (OsPath.join root name) = true
      /\ classify (OsPath.join root name) = SidecarFile.
Proof.
  unfold sidecar_file, classify. rewrite andb_true_iff. split.
  - intros [Hf He]. split; [exact Hf|].
    rewrite (nfo_ext_not_video _ He). unfold ext_of in *. now rewrite He.
  - intros [Hf Hc]. split; [exact Hf|].
    destruct (in_list (ext_of _) VIDEO_EXTENSIONS); [discriminate|].
    destruct (in_list (ext_of _) NFO_EXTENSIONS); [reflexivity | discriminate].
Qed.

(** One step of the scan raises exactly on a sidecar file that raises. *)
Lemma scan_item_raises_iff (os : OS) (st : Scan) (name : string) :
  (exists e, scan_item os st name = Raise e)
  <-> sidecar_raises os (rootDir (folder st)) name.
Proof.
  unfold sidecar_raises. rewrite sidecar_file_classify.
  unfold scan_item. set (path := OsPath.join (rootDir (folder st)) name).
  destruct (isfile os path).
  2:{ split.
      - intros [e H]. destruct (isdir os path); [|discriminate].
        destruct (contains "bdmv" (lower path) && true); [discriminate|].
        destruct (contains "video_ts" (lower path) && true); discriminate.
      - intros [[H _] _]. discriminate. }
  destruct (classify path) eqn:Hc.
  - rewrite (scan_file_video _ _ _ Hc). split; [intros [e H]; discriminate|].
    intros [[_ H] _]. discriminate.
  - unfold scan_file. unfold classify in Hc. fold (ext_of path).
    destruct (in_list (ext_of path) VIDEO_EXTENSIONS); [discriminate|].
    destruct (in_list (ext_of path) NFO_EXTENSIONS); [|discriminate].
    destruct (NFO.init os path) as [n|e0] eqn:Hn; simpl.
    + destruct (NFO.is_complete n) as [c|e1] eqn:Hcn.
      * rewrite (nfo_condition_eq _ _ _ _ Hcn). simpl. split.
        -- intros [e H]. destruct (c && _); discriminate.
        -- intros [_ [e [H|(n' & [= <-] & H)]]]; [discriminate | congruence].
      * rewrite (nfo_condition_raises _ _ _ _ Hcn). simpl. split.
        -- intros _. split; [auto|]. exists e1. right. eauto.
        -- intros _. eauto.
    + split.
      * intros _. split; [auto|]. exists e0. now left.
      * intros _. eauto.
  - rewrite (scan_file_ignored _ _ _ Hc). split; [intros [e H]; discriminate|].
    intros [[_ H] _]. discriminate.
Qed.

Lemma scan_items_raises_iff (os : OS) (names : list string) :
  forall st,
    (exists e, scan_items os st names = Raise e)
    <-> Exists (sidecar_raises os (rootDir (folder st))) names.
Proof.
  induction names as [|name names IH]; intros st; simpl.
  - split; [intros [e H]; discriminate | inversion 1].
  - rewrite List.Exists_cons, <- scan_item_raises_iff.
    destruct (scan_item os st name) as [st1|e1] eqn:H1; simpl.
    + rewrite IH. destruct (scan_item_kept _ _ _ _ H1) as [-> _].
      split; [auto|]. intros [[e H]|H]; [discriminate | exact H].
    + split; eauto.
Qed.

Lemma scan_item_raises_with (os : OS) (st : Scan) (name : string) (e : exn) :
  scan_item os st name = Raise e ->
  sidecar_raises_with os (rootDir (folder st)) name e.
Proof.
  unfold sidecar_raises_with. rewrite sidecar_file_classify.
  unfold scan_item. set (path := OsPath.join (rootDir (folder st)) name).
  destruct (isfile os path).
  - destruct (classify path) eqn:Hc.
    + rewrite (scan_file_video _ _ _ Hc). discriminate.
    + rewrite (scan_file_sidecar_eq _ _ _ Hc).
      destruct (NFO.init os path) as [n|e0]; simpl.
      * destruct (NFO.is_complete n) as [k|e1] eqn:Hk; simpl; [discriminate|].
        intros [= <-]. split; [auto|]. right. eauto.
      * intros [= <-]. auto.
    + rewrite (scan_file_ignored _ _ _ Hc). discriminate.
  - destruct (isdir os path); [|discriminate].
    destruct (contains "bdmv" (lower path) && true); [discriminate|].
    destruct (contains "video_ts" (lower path) && true); discriminate.
Qed.

Lemma scan_items_raises_with (os : OS) (names : list string) :
  forall st e,
    scan_items os st names = Raise e ->
    Exists (fun name => sidecar_raises_with os (rootDir (folder st)) name e) names.
Proof.
  induction names as [|name names IH]; intros st e; simpl; [discriminate|].
  destruct (scan_item os st name) as [st1|e1] eqn:H1; simpl.
  - intros H. apply List.Exists_cons_tl.
    destruct (scan_item_kept _ _ _ _ H1) as [<- _]. now apply IH.
  - intros [= <-]. apply List.Exists_cons_hd. now apply scan_item_raises_with.
Qed.

(** X7: when the classification of a directory fails.
    [MovieFolder(directory)] raises exactly when the listing holds a file
    with a sidecar extension whose record constructor raises or whose
    completeness test raises, and the exception that leaves is the one
    raised there.  Video files, disc-image directories and all other
    entries never make it fail; in particular a directory without .nfo and
    .xml files is always classified. *)
Theorem classification_raises_iff (os : OS) (directory : string) :
  let root := abspath os directory in
  isdir os root = true ->
  ((exists e, MovieFolder.init os directory = Raise e)
   <-> Exists (sidecar_raises os root) (listdir os root))
  /\ (forall e,
        MovieFolder.init os directory = Raise e ->
        Exists (fun name => sidecar_raises_with os root name e) (listdir os root))
  /\ (Forall (fun name => sidecar_file os root name = false) (listdir os root) ->
      exists st', MovieFolder.init os directory = Ok st').
Proof.
  intros root _. unfold MovieFolder.init, scan. simpl. fold root.
  pose proof (scan_items_raises_iff os (listdir os root)
                {| folder := {| rootDir := root; movie := None; trailer := None;
                                nfo := None |}; probed := [] |}) as Hiff.
  simpl in Hiff. split; [exact Hiff|].
  split.
  { intros e H.
    exact (scan_items_raises_with os (listdir os root)
             {| folder := {| rootDir := root; movie := None; trailer := None;
                             nfo := None |}; probed := [] |} e H). }
  intros Hall.
  destruct (scan_items os _ (listdir os root)) as [st'|e] eqn:Hs; [eauto|].
  exfalso. destruct Hiff as [Hiff _].
  specialize (Hiff (ex_intro _ e eq_refl)).
  apply List.Exists_exists in Hiff as (name & Hin & Hsf & _).
  rewrite List.Forall_forall in Hall. specialize (Hall _ Hin). congruence.
Qed.

(** X8: the DVD block (lines 272-285).  When the scan comes to a
    subdirectory whose path contains "video_ts" and not "bdmv" (both
    compared in lower case) and that holds the file VIDEO_TS.IFO, the step
    sets the movie to a Video of that file with duration 601, probes the
    children whose lower-cased name contains "video_ts-trailer" and no
    other file, and sets the trailer to the last such child that is probed
    as a non-movie, leaving the trailer as it was when there is none; the
    kept sidecar record is not touched. *)
Theorem disc_folder_video_ts (os : OS) (st : Scan) (name : string) :
  let sub := OsPath.join (rootDir (folder st)) name in
  let index := {| v_path := OsPath.join sub "VIDEO_TS.IFO"; duration := 601%float |} in
  isfile os sub = false ->
  isdir os sub = true ->
  contains "bdmv" (lower sub) = false ->
  contains "video_ts" (lower sub) = true ->
  isfile os (OsPath.join sub "VIDEO_TS.IFO") = true ->
  exists st',
    scan_item os st name = Ok st'
    /\ movie (folder st') = Some index
    /\ Video.isMovie index = true
    /\ probed st'
       = (probed st ++ map (OsPath.join sub) (marked_children os sub "video_ts-trailer"))%list
    /\ trailer (folder st')
       = or_kept (last (disc_trailers os sub "video_ts-trailer")) (trailer (folder st))
    /\ nfo (folder st') = nfo (folder st).
Proof.
  intros sub index Hf Hd Hb Hv Hi.
  exists (scan_disc os sub "VIDEO_TS.IFO" "video_ts-trailer" st).
  split.
  { unfold scan_item. fold sub. rewrite Hf, Hd, Hb, Hv. reflexivity. }
  pose proof (scan_disc_result os sub "VIDEO_TS.IFO" "video_ts-trailer" st) as Hr.
  cbv zeta in Hr. rewrite Hi in Hr. destruct Hr as (Hm & Ht & Hp).
  split; [exact Hm|]. split; [reflexivity|]. split; [exact Hp|]. split; [exact Ht|].
  apply scan_disc_frame.
Qed.

Lemma lower_app (a b : string) : lower (a ++ b) = lower a ++ lower b.
Proof.
  induction a as [|c a IH]; [reflexivity|].
  change (lower (String c (a ++ b)) = String (chr_lower c) (lower a) ++ lower b).
  simpl. now rewrite IH.
Qed.

Lemma prefix_app (n a b : string) :
  String.prefix n a = true -> String.prefix n (a ++ b) = true.
Proof.
  revert a. induction n as [|c n IH]; intros a.
  - intros _. destruct (a ++ b); reflexivity.
  - destruct a as [|d a]; simpl; [discriminate|].
    destruct (ascii_dec c d); [apply IH | discriminate].
Qed.

Lemma contains_unfold (needle hay : string) :
  contains needle hay
  = String.prefix needle hay
    || match hay with
       | EmptyString => false
       | String _ t => contains needle t
       end.
Proof. destruct hay; reflexivity. Qed.

Lemma contains_app_l (n a b : string) :
  contains n a = true -> contains n (a ++ b) = true.
Proof.
  induction a as [|c a IH]; intros H; rewrite contains_unfold in H.
  - rewrite orb_false_r in H. rewrite contains_unfold.
    rewrite (prefix_app n "" b H). reflexivity.
  - apply orb_true_iff in H as [H|H].
    + rewrite contains_unfold, (prefix_app _ _ b H). reflexivity.
    + change (String c a ++ b) with (String c (a ++ b)).
      rewrite contains_unfold, (IH H). apply orb_true_r.
Qed.

Lemma join_relative_app (root name : string) :
  startswith name "/" = false -> exists x, OsPath.join root name = root ++ x.
Proof.
  intros H. unfold OsPath.join. rewrite H.
  destruct ((root =? "") || endswith root "/"); eauto.
Qed.

(** X9: the disc-image markers are looked for in the whole path of the
    sub-entry, the scanned directory's own path included, and "bdmv" is
    looked for first.  So when the path of the scanned directory contains
    "bdmv" in any letter case, each of its subdirectories is taken for a
    Blu-ray directory: one without index.bdmv is skipped, nothing
    of the scan state changes, whether or not it is a VIDEO_TS directory
    holding VIDEO_TS.IFO. *)
Theorem root_marker_masks_dvd (os : OS) (st : Scan) (name : string) :
  let sub := OsPath.join (rootDir (folder st)) name in
  contains "bdmv" (lower (rootDir (folder st))) = true ->
  startswith name "/" = false ->
  isfile os sub = false ->
  isfile os (OsPath.join sub "index.bdmv") = false ->
  scan_item os st name = Ok st
  /\ entry_movie os (rootDir (folder st)) name = None.
Proof.
  intros sub Hr Hn Hf Hi.
  assert (Hb : contains "bdmv" (lower sub) = true).
  { destruct (join_relative_app (rootDir (folder st)) name Hn) as [x Hx].
    unfold sub. rewrite Hx, lower_app. now apply contains_app_l. }
  unfold scan_item, entry_movie, disc_movie. fold sub. rewrite Hf, Hb.
  destruct (isdir os sub); simpl; [|auto].
  unfold scan_disc. rewrite Hi. auto.
Qed.

(** X10: a video file whose duration ffprobe cannot give is classified by
    its name.  For a file entry with a video extension and an ffprobe
    output that is no number, the scan step probes the file once and then
    stores it as the trailer, with duration 1, when the file name without
    its extension ends in "-trailer", and as the movie, with duration 601,
    otherwise. *)
Theorem unprobed_video_by_name (os : OS) (st : Scan) (name : string) :
  let path := OsPath.join (rootDir (folder st)) name in
  isfile os path = true ->
  classify path = VideoFile ->
  ffprobe os path = None ->
  scan_item os st name
  = Ok {| folder :=
            (if endswith (fst (OsPath.splitext (OsPath.basename path))) "-trailer"
             then set_trailer {| v_path := path; duration := 1%float |}
             else set_movie {| v_path := path; duration := 601%float |}) (folder st);
          probed := (probed st ++ [path])%list |}.
Proof.
  intros path Hf Hc Hp. unfold scan_item. fold path. rewrite Hf.
  rewrite (scan_file_video _ _ _ Hc). cbv zeta.
  unfold Video.get_duration. rewrite Hp.
  destruct (endswith _ "-trailer"); reflexivity.
Qed.

(** *** The name of the trailer to download *)

Lemma string_app_cons (x : ascii) (a b : string) :
  String x a ++ b = String x (a ++ b).
Proof. reflexivity. Qed.

Lemma string_app_nil_l (b : string) : "" ++ b = b.
Proof. reflexivity. Qed.

Lemma string_app_assoc (a b c : string) : (a ++ b) ++ c = a ++ (b ++ c).
Proof.
  induction a as [|x a IH]; [reflexivity|].
  now rewrite !string_app_cons, IH.
Qed.

Lemma string_length_app (a b : string) :
  String.length (a ++ b) = (String.length a + String.length b)%nat.
Proof.
  induction a as [|x a IH]; [reflexivity|].
  rewrite string_app_cons. simpl. now rewrite IH.
Qed.

Lemma substring_all (s : string) : substring 0 (String.length s) s = s.
Proof. induction s as [|c s IH]; simpl; [reflexivity | now rewrite IH]. Qed.

Lemma substring_skip (a s : string) (m : nat) :
  substring (String.length a) m (a ++ s) = substring 0 m s.
Proof.
  induction a as [|c a IH]; [reflexivity|].
  rewrite string_app_cons. simpl. exact IH.
Qed.

Lemma endswith_app (a s : string) : endswith (a ++ s) s = true.
Proof.
  unfold endswith. rewrite string_length_app.
  replace (String.length a + String.length s - String.length s)%nat
    with (String.length a) by lia.
  rewrite substring_skip, substring_all, String.eqb_refl, andb_true_r.
  apply Nat.leb_le. lia.
Qed.

Lemma rsplit_after_free (c : ascii) (t : string) :
  free_of c t -> OsPath.rsplit_after c t = None.
Proof.
  unfold free_of. induction t as [|a t IH]; simpl; [reflexivity|].
  intros H. apply andb_true_iff in H as [Ha Ht]. rewrite (IH Ht).
  apply negb_true_iff in Ha. now rewrite Ha.
Qed.

Lemma rsplit_after_tail_free (c : ascii) (p : string) :
  match OsPath.rsplit_after c p with
  | Some (_, b) => free_of c b
  | None => free_of c p
  end.
Proof.
  unfold free_of. induction p as [|a p IH]; simpl; [reflexivity|].
  destruct (OsPath.rsplit_after c p) as [[h b]|]; [exact IH|].
  destruct (Ascii.eqb a c) eqn:Ha; [exact IH|]. simpl. now rewrite IH.
Qed.

Lemma rsplit_after_app (c : ascii) (x t : string) :
  free_of c t ->
  OsPath.rsplit_after c (x ++ t)
  = match OsPath.rsplit_after c x with
    | Some (h, b) => Some (h, b ++ t)
    | None => None
    end.
Proof.
  intros Ht. induction x as [|a x IH].
  - rewrite string_app_nil_l. now apply rsplit_after_free.
  - rewrite string_app_cons. simpl. rewrite IH.
    destruct (OsPath.rsplit_after c x) as [[h b]|]; [reflexivity|].
    destruct (Ascii.eqb a c); reflexivity.
Qed.

Lemma split_raw_app (x t : string) :
  free_of OsPath.sep t ->
  OsPath.split_raw (x ++ t)
  = (fst (OsPath.split_raw x), snd (OsPath.split_raw x) ++ t).
Proof.
  intros Ht. unfold OsPath.split_raw. rewrite (rsplit_after_app _ _ _ Ht).
  destruct (OsPath.rsplit_after OsPath.sep x) as [[h b]|]; reflexivity.
Qed.

Lemma basename_free (p : string) : free_of OsPath.sep (OsPath.basename p).
Proof.
  unfold OsPath.basename, OsPath.split_raw.
  pose proof (rsplit_after_tail_free OsPath.sep p) as H.
  destruct (OsPath.rsplit_after OsPath.sep p) as [[h b]|]; exact H.
Qed.

Lemma rsplit_before_free (c : ascii) (t : string) :
  free_of c t -> OsPath.rsplit_before c t = None.
Proof.
  unfold free_of. induction t as [|a t IH]; simpl; [reflexivity|].
  intros H. apply andb_true_iff in H as [Ha Ht]. rewrite (IH Ht).
  apply negb_true_iff in Ha. now rewrite Ha.
Qed.

Lemma rsplit_before_last (c : ascii) (a t : string) :
  free_of c t ->
  OsPath.rsplit_before c (a ++ String c t) = Some (a, String c t).
Proof.
  intros Ht. induction a as [|x a IH].
  - rewrite string_app_nil_l. simpl.
    rewrite (rsplit_before_free _ _ Ht), Ascii.eqb_refl. reflexivity.
  - rewrite string_app_cons. simpl. now rewrite IH.
Qed.

Lemma all_chars_app (p : ascii -> bool) (a b : string) :
  all_chars p (a ++ b) = all_chars p a && all_chars p b.
Proof.
  induction a as [|x a IH]; [reflexivity|].
  rewrite string_app_cons. simpl. now rewrite IH, andb_assoc.
Qed.

(** A path that ends in "-trailer.mp4" has the extension ".mp4", and the
    name of its file without the extension ends in "-trailer". *)
Lemma trailer_path (x : string) :
  ext_of (x ++ "-trailer.mp4") = ".mp4"
  /\ endswith (fst (OsPath.splitext (OsPath.basename (x ++ "-trailer.mp4"))))
       "-trailer" = true.
Proof.
  assert (Hfree : free_of OsPath.sep "-trailer.mp4") by reflexivity.
  assert (Hdot : forall b,
             OsPath.rsplit_before OsPath.extsep (b ++ "-trailer.mp4")
             = Some (b ++ "-trailer", ".mp4")).
  { intros b. change "-trailer.mp4" with ("-trailer" ++ String OsPath.extsep "mp4").
    rewrite <- string_app_assoc. now apply rsplit_before_last. }
  assert (Hnd : forall b, all_chars (Ascii.eqb OsPath.extsep) (b ++ "-trailer") = false).
  { intros b. rewrite all_chars_app. apply andb_false_r. }
  split.
  - unfold ext_of, OsPath.splitext. rewrite (split_raw_app _ _ Hfree).
    simpl fst. simpl snd. cbv iota beta. rewrite Hdot, Hnd. reflexivity.
  - unfold OsPath.basename at 1. rewrite (split_raw_app _ _ Hfree). simpl snd.
    fold (OsPath.basename x).
    unfold OsPath.splitext, OsPath.split_raw.
    rewrite (rsplit_after_app _ _ _ Hfree).
    rewrite (rsplit_after_free _ _ (basename_free x)).
    rewrite Hdot, Hnd. simpl fst. rewrite string_app_nil_l. apply endswith_app.
Qed.

Lemma join_app_suffix (dir s t : string) :
  exists x, OsPath.join dir (s ++ t) = x ++ t.
Proof.
  unfold OsPath.join.
  destruct (startswith (s ++ t) "/"); [now exists s|].
  destruct ((dir =? "") || endswith dir "/").
  - exists (dir ++ s). now rewrite string_app_assoc.
  - exists (dir ++ "/" ++ s). now rewrite !string_app_assoc.
Qed.

(** X11: the file that the orchestrator asks the downloader to create is
    one that the next classification takes for a trailer.  Whatever the
    movie of a folder is, the trailer name derived from it, placed in any
    directory, has a recognized video extension (".mp4"), and when ffprobe
    cannot give its duration the name alone classifies it as a non-movie.
    For a Blu-ray movie (index.bdmv) the name contains the marker
    "index-trailer", and for a DVD movie (VIDEO_TS.IFO) its lower-case form
    contains "video_ts-trailer", which is what the disc-image blocks of
    the scan look for. *)
Theorem trailer_name_round_trip (self : MovieFolder) (tn : string) :
  trailerName self = Some tn ->
  (forall (os : OS) (dir : string),
      classify (OsPath.join dir tn) = VideoFile
      /\ (ffprobe os (OsPath.join dir tn) = None ->
          Video.isMovie (probe os (OsPath.join dir tn)) = false))
  /\ (forall m, movie self = Some m -> Video.fileName m = "index.bdmv" ->
                contains "index-trailer" (lower tn) = true)
  /\ (forall m, movie self = Some m -> Video.fileName m = "VIDEO_TS.IFO" ->
                contains "video_ts-trailer" (lower tn) = true).
Proof.
  unfold trailerName. destruct (movie self) as [m|]; [|discriminate].
  intros [= <-]. split; [|split].
  - intros os dir.
    destruct (join_app_suffix dir (fst (OsPath.splitext (Video.fileName m)))
                "-trailer.mp4") as [x ->].
    destruct (trailer_path x) as [He Hs]. split.
    + unfold classify. rewrite He. reflexivity.
    + intros Hp. unfold probe, Video.get_duration. rewrite Hp, Hs. reflexivity.
  - intros m' [= <-] ->. reflexivity.
  - intros m' [= <-] ->. reflexivity.
Qed.

(* ------------------------------------------------------------------ *)
(** ** Further properties of the orchestrator *)
(* ------------------------------------------------------------------ *)

Lemma fetch_with_overrides {W : Type} (c : Collaborators W) (folder : MovieFolder)
    (tmdbid imdbid title year : option string) (w : W) :
  overrides_given tmdbid imdbid title year = true ->
  exists r, fetch_candidates c folder tmdbid imdbid title year w = Ok r.
Proof.
  unfold overrides_given, fetch_candidates. intros ->.
  destruct (getLinks c title year _) as [a w2].
  destruct (get_trailer_links c w2) as [y w3]. eauto.
Qed.

Lemma fetch_without_overrides {W : Type} (c : Collaborators W) (folder : MovieFolder)
    (tmdbid imdbid title year : option string) (w : W) :
  overrides_given tmdbid imdbid title year = false ->
  fetch_candidates c folder tmdbid imdbid title year w
  = fetch_candidates c folder None None None None w.
Proof.
  unfold overrides_given, fetch_candidates. intros ->. reflexivity.
Qed.

Lemma try_downloads_tried {W : Type} (c : Collaborators W) (self : TrailerTech)
    (name dir : option string) (appleLinks ytLinks : list string) (w : W)
    (log : list attempted) :
  tried_downloads (fst (try_downloads c self name dir appleLinks ytLinks w log)) = true.
Proof.
  destruct (try_downloads_counters c self name dir appleLinks ytLinks w log)
    as [(link & -> & _)|[-> _]]; reflexivity.
Qed.

(** X12: the four optional arguments count as a group.  When a numeric
    id, a textual id, or both a title and a year are given (non-empty), the
    sidecar record is not read and the invocation is never left by an
    exception raised while the metadata is read.  When the group is not
    given -- for instance a title without a year -- the arguments are
    dropped altogether: the invocation is the one made with no
    argument. *)
Theorem override_group {W : Type} (c : Collaborators W) (os : OS) (movieDir : string)
    (tmdbid imdbid title year : option string) (st : Run W) :
  (overrides_given tmdbid imdbid title year = true ->
   forall e, fst (get_Trailer c os movieDir tmdbid imdbid title year st)
             <> RaisedInResolve e)
  /\ (overrides_given tmdbid imdbid title year = false ->
      get_Trailer c os movieDir tmdbid imdbid title year st
      = get_Trailer c os movieDir None None None None st).
Proof.
  split; intros Hg.
  - intros e. unfold get_Trailer.
    destruct (negb (isdir os _)); [discriminate|].
    destruct (MovieFolder.init os movieDir) as [scanned|e']; [|discriminate].
    destruct (negb (hasMovie _)); [discriminate|].
    destruct (hasTrailer _); [discriminate|].
    destruct (fetch_with_overrides c (folder scanned) tmdbid imdbid title year
                (world st) Hg) as [[[a y] w] ->].
    intros H.
    pose proof (try_downloads_tried c (incr_scanned (app st))
                  (trailerName (folder scanned)) (trailerDirectory (folder scanned))
                  a y w (attempts st)) as Ht.
    simpl in H. rewrite H in Ht. discriminate.
  - unfold get_Trailer.
    destruct (negb (isdir os _)); [reflexivity|].
    destruct (MovieFolder.init os movieDir) as [scanned|e']; [|reflexivity].
    destruct (negb (hasMovie _)); [reflexivity|].
    destruct (hasTrailer _); [reflexivity|].
    now rewrite (fetch_without_overrides c _ _ _ _ _ _ Hg).
Qed.

(** X13: the collaborators are used by an invocation that comes to the
    download loops and by no other.  When the invocation ends on an
    invalid path, on a folder without a movie, on a trailer that is already
    there, or by an exception, the state of the collaborators is the one
    before the call and no downloader call has been made. *)
Theorem collaborators_untouched {W : Type} (c : Collaborators W) (os : OS)
    (movieDir : string) (tmdbid imdbid title year : option string) (st : Run W) :
  let res := get_Trailer c os movieDir tmdbid imdbid title year st in
  tried_downloads (fst res) = false ->
  world (snd res) = world st /\ attempts (snd res) = attempts st.
Proof.
  unfold get_Trailer.
  destruct (negb (isdir os _)); [auto|].
  destruct (MovieFolder.init os movieDir) as [scanned|e']; [|auto].
  destruct (negb (hasMovie _)); [auto|].
  destruct (hasTrailer _); [auto|].
  destruct (fetch_candidates c _ _ _ _ _ _) as [[[a y] w]|e]; [|auto].
  cbv zeta. rewrite try_downloads_tried. discriminate.
Qed.

(** X14: without the override group, the download loops are reached only
    for a folder whose classification kept a sidecar record, and that
    record passed the completeness test and has a year accessor that
    returns.  A folder with a movie and no trailer but without such a
    sidecar file can get a trailer only through the overrides. *)
Theorem downloads_need_sidecar {W : Type} (c : Collaborators W) (os : OS)
    (movieDir : string) (tmdbid imdbid title year : option string) (st : Run W) :
  overrides_given tmdbid imdbid title year = false ->
  tried_downloads (fst (get_Trailer c os movieDir tmdbid imdbid title year st)) = true ->
  exists scanned n y,
    MovieFolder.init os movieDir = Ok scanned
    /\ hasMovie (folder scanned) = true
    /\ hasTrailer (folder scanned) = false
    /\ nfo (folder scanned) = Some n
    /\ NFO.is_complete n = Ok true
    /\ NFO.year n = Ok y.
Proof.
  intros Hg. unfold get_Trailer.
  destruct (negb (isdir os _)); [discriminate|].
  destruct (MovieFolder.init os movieDir) as [scanned|e'] eqn:Hi; [|discriminate].
  destruct (hasMovie (folder scanned)) eqn:Hm; [|discriminate].
  destruct (hasTrailer (folder scanned)) eqn:Ht; [discriminate|]. simpl.
  unfold fetch_candidates. fold (overrides_given tmdbid imdbid title year).
  rewrite Hg.
  destruct (nfo (folder scanned)) as [n|] eqn:Hn; [|discriminate].
  destruct (NFO.year n) as [y|e] eqn:Hy; [|discriminate].
  intros _. exists scanned, n, y.
  repeat split; try assumption.
  destruct (classification_keeps_complete_sidecar os movieDir scanned Hi) as [Hk _].
  now apply Hk.
Qed.

Lemma counters_after_sane (o : outcome) (self : TrailerTech) :
  sane self ->
  sane (counters_after o self)
  /\ (directoriesScanned self <= directoriesScanned (counters_after o self))%Z.
Proof.
  unfold sane. intros (Hd & Hf & Hs).
  destruct o; simpl; repeat split; lia.
Qed.

Lemma counters_fold_sane (outs : list outcome) :
  forall self,
    sane self ->
    sane (fold_left (fun s o => counters_after o s) outs self)
    /\ (directoriesScanned self
        <= directoriesScanned (fold_left (fun s o => counters_after o s) outs self))%Z.
Proof.
  induction outs as [|o outs IH]; intros self Hs; simpl.
  - split; [exact Hs | lia].
  - destruct (counters_after_sane o self Hs) as [Hs1 Hle1].
    destruct (IH _ Hs1) as [Hs2 Hle2]. split; [exact Hs2 | lia].
Qed.

(** X15: the counters of a run.  From counters that are sane -- as the
    zeros of a new [TrailerTech] object are: downloaded and found not
    negative and together not above scanned -- every sequence of
    invocations leads to sane counters again: the missing count that
    [printStats] prints is never negative, and no counter ever
    decreases. *)
Theorem counters_stay_sane {W : Type} (c : Collaborators W)
    (calls : list Invocation) (st : Run W) :
  sane (app st) ->
  let final := app (snd (run c calls st)) in
  sane final
  /\ (0 <= missingTrailers final)%Z
  /\ (directoriesScanned (app st) <= directoriesScanned final)%Z.
Proof.
  intros Hs final. destruct (run_counters c calls st) as [Hfold _].
  fold final in Hfold.
  destruct (counters_fold_sane (fst (run c calls st)) (app st) Hs) as [Hsane Hle].
  rewrite <- Hfold in Hsane, Hle.
  split; [exact Hsane|]. split; [|exact Hle].
  unfold missingTrailers. destruct Hsane as (_ & _ & H). lia.
Qed.

Section Library.

Context {W : Type} (c : Collaborators W) (view : W -> OS).

Lemma scan_entries_spec (libraryDir : string) (items : list string) :
  forall st,
    let res := scan_entries c view libraryDir items st in
    (length (fst res) <= length items)%nat
    /\ Forall (fun o => raised o = false) (removelast (fst res))
    /\ app (snd res)
       = fold_left (fun self o => counters_after o self) (fst res) (app st).
Proof.
  induction items as [|item items IH]; intros st; simpl.
  - split; [lia|]. split; [constructor | reflexivity].
  - destruct (isdir (view (world st)) _).
    + destruct (get_Trailer c (view (world st)) _ None None None None st)
        as [o st1] eqn:Hg.
      pose proof (get_Trailer_counters c (view (world st))
                    (abspath (view (world st)) (OsPath.join libraryDir item))
                    None None None None st) as Hc.
      rewrite Hg in Hc. simpl in Hc.
      destruct (raised o) eqn:Hr.
      * simpl. split; [lia|]. split; [constructor | exact Hc].
      * destruct (IH st1) as (Hlen & Hall & Happ).
        destruct (scan_entries c view libraryDir items st1) as [outs st2].
        simpl in *. split; [lia|]. split.
        -- destruct outs as [|o' outs]; [constructor|].
           constructor; [exact Hr | exact Hall].
        -- now rewrite Happ, Hc.
    + destruct (IH st) as (Hlen & Hall & Happ).
      split; [lia|]. split; assumption.
Qed.

Lemma scan_entries_all (os : OS) (libraryDir : string) (items : list string) :
  (forall w, view w = os) ->
  forall st,
    Forall (fun o => raised o = false) (fst (scan_entries c view libraryDir items st)) ->
    length (fst (scan_entries c view libraryDir items st))
    = length (List.filter (fun item => isdir os (abspath os (OsPath.join libraryDir item)))
                items).
Proof.
  intros Hv. induction items as [|item items IH]; intros st; simpl; [reflexivity|].
  rewrite Hv.
  destruct (isdir os (abspath os (OsPath.join libraryDir item))); [|apply IH].
  destruct (get_Trailer c os _ None None None None st) as [o st1].
  destruct (raised o) eqn:Hr; simpl.
  - intros H. inversion H; subst. congruence.
  - specialize (IH st1).
    destruct (scan_entries c view libraryDir items st1) as [outs st2]. simpl in *.
    intros H. inversion H; subst. now rewrite IH.
Qed.

Lemma scan_entries_run (os : OS) (libraryDir : string) (items : list string) :
  (forall w, view w = os) ->
  forall st,
    let calls :=
      map (library_call os libraryDir)
        (List.filter (fun item => isdir os (abspath os (OsPath.join libraryDir item)))
           items) in
    let res := scan_entries c view libraryDir items st in
    fst res = until_raised (fst (run c calls st))
    /\ snd res = snd (run c (firstn (length (fst res)) calls) st).
Proof.
  intros Hv. induction items as [|item items IH]; intros st; simpl; [auto|].
  rewrite Hv.
  destruct (isdir os (abspath os (OsPath.join libraryDir item))); [|apply IH].
  simpl. unfold invoke at 1. simpl.
  destruct (get_Trailer c os (abspath os (OsPath.join libraryDir item))
              None None None None st) as [o st1] eqn:Hg.
  specialize (IH st1). cbv zeta in IH. destruct IH as [IH1 IH2].
  destruct (run c (map (library_call os libraryDir)
                     (List.filter
                        (fun item => isdir os (abspath os (OsPath.join libraryDir item)))
                        items)) st1) as [outs st2] eqn:Hrun.
  simpl in IH1. simpl.
  destruct (raised o) eqn:Hr; simpl.
  - unfold invoke. simpl. rewrite Hg. auto.
  - destruct (scan_entries c view libraryDir items st1) as [outs' st2'].
    simpl in *. unfold invoke at 1. simpl. rewrite Hg.
    split; [now rewrite IH1|].
    rewrite IH2.
    now destruct (run c (firstn (length outs') _) st1).
Qed.

(** X16: a library scan.  With a root that is no directory nothing is
    invoked and nothing changes.  Otherwise there is at most one
    invocation per listed name; an invocation that ends on an invalid path
    or without a movie does not stop the scan, but an exception that
    leaves [get_Trailer] does: it is the last outcome, and the entries
    listed after that folder are not visited.  The counters after the scan
    are the ones before it changed by each outcome in turn, and sane
    counters stay sane.  On a file system that the downloads of the scan
    do not change, the scan is the run of [get_Trailer], without optional
    arguments, on the absolute paths of the listed entries that are
    directories, one invocation for each, in listing order, cut after the
    first invocation that raises: its outcomes are the outcomes of that
    run up to the first exception, and it leaves the object as that part
    of the run does; a scan without an exception has exactly one outcome
    per subdirectory. *)
Theorem scanLibrary_outcomes (directory : string) (st : Run W) :
  let os := view (world st) in
  let res := scanLibrary c view directory st in
  (isdir os (abspath os directory) = false -> res = ([], st))
  /\ (length (fst res) <= length (listdir os (abspath os directory)))%nat
  /\ Forall (fun o => raised o = false) (removelast (fst res))
  /\ app (snd res) = fold_left (fun self o => counters_after o self) (fst res) (app st)
  /\ (sane (app st) -> sane (app (snd res)))
  /\ ((forall w, view w = os) ->
      isdir os (abspath os directory) = true ->
      Forall (fun o => raised o = false) (fst res) ->
      length (fst res)
      = length (List.filter
                  (fun item => isdir os (abspath os (OsPath.join (abspath os directory) item)))
                  (listdir os (abspath os directory))))
  /\ ((forall w, view w = os) ->
      isdir os (abspath os directory) = true ->
      let calls := library_calls os (abspath os directory) in
      fst res = until_raised (fst (run c calls st))
      /\ snd res = snd (run c (firstn (length (fst res)) calls) st)).
Proof.
  intros os res. subst res. unfold scanLibrary. fold os.
  destruct (isdir os (abspath os directory)) eqn:Hd; simpl.
  - destruct (scan_entries_spec (abspath os directory)
                (listdir os (abspath os directory)) st) as (Hlen & Hall & Happ).
    split; [discriminate|]. split; [exact Hlen|]. split; [exact Hall|].
    split; [exact Happ|]. split.
    + intros Hs. rewrite Happ. now apply counters_fold_sane.
    + split.
      * intros Hv _ Hno. now apply scan_entries_all.
      * intros Hv _. now apply scan_entries_run.
  - split; [reflexivity|]. split; [lia|]. split; [constructor|].
    split; [reflexivity|]. split; [auto|]. split; discriminate.
Qed.

End Library.

(* ------------------------------------------------------------------ *)
(** ** Further properties: raw fields, probes, and where the trailer goes *)
(* ------------------------------------------------------------------ *)

Lemma parse_id_field (f : raw_field) (t : option string) (self : NFO) :
  field_of f (NFO.__parse_id t self) = field_of f self.
Proof.
  unfold NFO.__parse_id.
  repeat match goal with
         | |- context [match ?o with Some _ => _ | None => _ end] => destruct o
         | |- context [if ?b then _ else _] => destruct b
         end; destruct f; reflexivity.
Qed.

Lemma parse_item_field (f : raw_field) (self self' : NFO) (item : Element) :
  NFO.parse_item self item = Ok self' ->
  field_of f self'
  = if lower (tag item) =? field_tag f then text item else field_of f self.
Proof.
  unfold NFO.parse_item, getitem. intros H.
  destruct (parse_releaseDate_opt (text item)) as [y Hy]. rewrite Hy in H.
  simpl in H. set (t := lower (tag item)) in *.
  destruct (t =? "uniqueid") eqn:E1.
  { apply String.eqb_eq in E1. rewrite E1.
    destruct (attrib item !! "type") as [ty|]; simpl in H; [|discriminate].
    destruct (lower ty =? "tmdb"); [injection H as <-; destruct f; reflexivity|].
    destruct (lower ty =? "imdb"); injection H as <-; destruct f; reflexivity. }
  destruct (in_list t ID_TAGS) eqn:E2.
  { injection H as <-. rewrite parse_id_field.
    apply in_list_In in E2. simpl in E2.
    destruct E2 as [<-|[<-|[<-|[<-|[<-|[<-|[<-|[]]]]]]]]; destruct f; reflexivity. }
  destruct (t =? "premiered") eqn:E3.
  { apply String.eqb_eq in E3. rewrite E3. injection H as <-. destruct f; reflexivity. }
  destruct (t =? "release_date") eqn:E4.
  { apply String.eqb_eq in E4. rewrite E4. injection H as <-. destruct f; reflexivity. }
  destruct (t =? "year") eqn:E5.
  { apply String.eqb_eq in E5. rewrite E5. injection H as <-. destruct f; reflexivity. }
  destruct (t =? "productionyear") eqn:E6.
  { apply String.eqb_eq in E6. rewrite E6. injection H as <-. destruct f; reflexivity. }
  destruct (t =? "title") eqn:E7.
  { apply String.eqb_eq in E7. rewrite E7. injection H as <-. destruct f; reflexivity. }
  destruct (t =? "originaltitle") eqn:E8.
  { apply String.eqb_eq in E8. rewrite E8. injection H as <-. destruct f; reflexivity. }
  destruct (t =? "localtitle") eqn:E9.
  { apply String.eqb_eq in E9. rewrite E9. injection H as <-. destruct f; reflexivity. }
  injection H as <-.
  destruct f; simpl; rewrite ?E5, ?E6, ?E7, ?E8, ?E9; reflexivity.
Qed.

(** X17: the five raw fields of a record.  After the constructor's loop
    over the root's children, each of the fields for "year",
    "productionyear", "title", "originaltitle" and "localtitle" holds the
    text of the last child whose tag is that word in any letter case -- so
    a later element without text unsets the field again -- and is left as
    it was when there is no such child. *)
Theorem raw_field_last_element (f : raw_field) (items : list Element) :
  forall self n,
    NFO.parse_items self items = Ok n ->
    field_of f n
    = match last (tagged f items) with
      | Some item => text item
      | None => field_of f self
      end.
Proof.
  unfold tagged. induction items as [|item items IH]; intros self n; simpl.
  - now intros [= <-].
  - destruct (NFO.parse_item self item) as [self1|e] eqn:H1; simpl; [|discriminate].
    intros H. rewrite (IH _ _ H), (parse_item_field f _ _ _ H1).
    destruct (lower (tag item) =? field_tag f).
    + rewrite last_cons. destruct (last _); reflexivity.
    + reflexivity.
Qed.

Lemma scan_item_probed (os : OS) (st st' : Scan) (name : string) :
  scan_item os st name = Ok st' ->
  probed st' = (probed st ++ entry_probes os (rootDir (folder st)) name)%list.
Proof.
  unfold scan_item, entry_probes.
  set (path := OsPath.join (rootDir (folder st)) name).
  destruct (isfile os path).
  - destruct (classify path) eqn:Hc.
    + rewrite (scan_file_video _ _ _ Hc). cbv zeta.
      unfold classify in Hc. destruct (in_list (ext_of path) VIDEO_EXTENSIONS).
      2:{ destruct (in_list (ext_of path) NFO_EXTENSIONS); discriminate. }
      now intros [= <-].
    + intros H. destruct (scan_file_sidecar_frame _ _ _ _ Hc H) as (_ & _ & Hp).
      unfold classify in Hc. destruct (in_list (ext_of path) VIDEO_EXTENSIONS);
        [discriminate|]. now rewrite app_nil_r.
    + rewrite (scan_file_ignored _ _ _ Hc). intros [= <-].
      unfold classify in Hc. destruct (in_list (ext_of path) VIDEO_EXTENSIONS);
        [discriminate|]. now rewrite app_nil_r.
  - destruct (isdir os path); [|intros [= <-]; now rewrite app_nil_r].
    destruct (contains "bdmv" (lower path)); simpl.
    + intros [= <-].
      pose proof (scan_disc_result os path "index.bdmv" "index-trailer" st) as Hr.
      cbv zeta in Hr. destruct (isfile os (OsPath.join path "index.bdmv")).
      * now destruct Hr as (_ & _ & Hp).
      * rewrite Hr. now rewrite app_nil_r.
    + destruct (contains "video_ts" (lower path)); simpl; intros [= <-];
        [|now rewrite app_nil_r].
      pose proof (scan_disc_result os path "VIDEO_TS.IFO" "video_ts-trailer" st) as Hr.
      cbv zeta in Hr. destruct (isfile os (OsPath.join path "VIDEO_TS.IFO")).
      * now destruct Hr as (_ & _ & Hp).
      * rewrite Hr. now rewrite app_nil_r.
Qed.

Lemma scan_items_probed (os : OS) (names : list string) :
  forall st st',
    scan_items os st names = Ok st' ->
    probed st' = (probed st ++ flat_map (entry_probes os (rootDir (folder st))) names)%list.
Proof.
  induction names as [|name names IH]; intros st st'; simpl.
  - intros [= <-]. now rewrite app_nil_r.
  - destruct (scan_item os st name) as [st1|e] eqn:H1; simpl; [|discriminate].
    intros H. rewrite (IH _ _ H), (scan_item_probed _ _ _ _ H1).
    destruct (scan_item_kept _ _ _ _ H1) as [-> _]. now rewrite app_assoc.
Qed.

(** X18: which files a classification hands to ffprobe.  They are, in
    listing order and each once per listing entry: every file entry with a
    video extension, and for every disc-image directory that holds its
    index file the children whose name carries that shape's trailer
    marker.  Sidecar files, files with other extensions and the index
    files themselves are never probed. *)
Theorem classification_probes (os : OS) (directory : string) (st' : Scan) :
  MovieFolder.init os directory = Ok st' ->
  let root := abspath os directory in
  probed st' = flat_map (entry_probes os root) (listdir os root)
  /\ forall name,
      isfile os (OsPath.join root name) = true ->
      classify (OsPath.join root name) <> VideoFile ->
      entry_probes os root name = [].
Proof.
  intros Hi root. split.
  - unfold MovieFolder.init, scan in Hi. simpl in Hi.
    now rewrite (scan_items_probed _ _ _ _ Hi).
  - intros name Hf Hc. unfold entry_probes. rewrite Hf.
    unfold classify in Hc.
    destruct (in_list (ext_of (OsPath.join root name)) VIDEO_EXTENSIONS);
      [contradiction | reflexivity].
Qed.

(** *** Where the trailer is put *)

Lemma free_startswith (n : string) :
  free_of OsPath.sep n -> startswith n "/" = false.
Proof.
  unfold free_of, startswith. destruct n as [|c t]; [reflexivity|].
  intros H. simpl in H. apply andb_true_iff in H as [H _]. apply negb_true_iff in H.
  apply Ascii.eqb_neq in H.
  change (String.prefix "/" (String c t))
    with (if ascii_dec "/" c then String.prefix "" t else false).
  destruct (ascii_dec "/" c) as [<-|]; [now contradiction H | reflexivity].
Qed.

Lemma rsplit_after_last (c : ascii) (x t : string) :
  free_of c t ->
  OsPath.rsplit_after c (x ++ String c t) = Some (x ++ String c "", t).
Proof.
  intros Ht. induction x as [|a x IH].
  - rewrite !string_app_nil_l. simpl.
    rewrite (rsplit_after_free _ _ Ht), Ascii.eqb_refl. reflexivity.
  - rewrite !string_app_cons. simpl. now rewrite IH.
Qed.

Lemma rstrip_sep_last (x : string) (a : ascii) (t : string) :
  a <> OsPath.sep ->
  OsPath.rstrip_sep t = "" ->
  OsPath.rstrip_sep (x ++ String a t) = x ++ String a "".
Proof.
  intros Ha Ht. induction x as [|c x IH].
  - rewrite !string_app_nil_l. simpl. rewrite Ht.
    apply Ascii.eqb_neq in Ha. now rewrite Ha.
  - rewrite !string_app_cons. simpl. rewrite IH.
    destruct x; reflexivity.
Qed.

Lemma endswith_last (r : string) (a : ascii) :
  a <> OsPath.sep -> endswith (r ++ String a "") "/" = false.
Proof.
  intros Ha. unfold endswith. rewrite string_length_app. simpl.
  replace (String.length r + 1 - 1)%nat with (String.length r) by lia.
  rewrite substring_skip. simpl.
  apply Ascii.eqb_neq in Ha. unfold OsPath.sep in Ha.
  rewrite Ha. apply andb_false_r.
Qed.

(** [os.path.join] followed by [os.path.dirname] and [os.path.basename]:
    for a directory path that ends in a character other than "/" and an
    entry name without "/". *)
Lemma join_split (r : string) (a : ascii) (n : string) :
  a <> OsPath.sep ->
  free_of OsPath.sep n ->
  let d := r ++ String a "" in
  OsPath.dirname (OsPath.join d n) = d /\ OsPath.basename (OsPath.join d n) = n.
Proof.
  intros Ha Hn d.
  assert (Hj : OsPath.join d n = d ++ String OsPath.sep n).
  { unfold OsPath.join. rewrite (free_startswith _ Hn).
    unfold d. rewrite (endswith_last r a Ha), orb_false_r.
    destruct r; reflexivity. }
  rewrite Hj. unfold OsPath.dirname, OsPath.basename, OsPath.split_raw.
  rewrite (rsplit_after_last _ _ _ Hn). simpl fst. simpl snd.
  split; [|reflexivity].
  assert (Hne : (d ++ String OsPath.sep "" =? "") = false).
  { unfold d. destruct r; reflexivity. }
  assert (Hall : all_chars (Ascii.eqb OsPath.sep) (d ++ String OsPath.sep "") = false).
  { unfold d. rewrite string_app_assoc, all_chars_app.
    assert (He : Ascii.eqb OsPath.sep a = false).
    { apply Ascii.eqb_neq. intros H. now apply Ha. }
    rewrite string_app_cons. cbn [all_chars]. rewrite He. apply andb_false_r. }
  rewrite Hne, Hall. simpl.
  unfold d. rewrite string_app_assoc.
  change (String a "" ++ String OsPath.sep "") with (String a (String OsPath.sep "")).
  now apply rstrip_sep_last.
Qed.

(** X19: where the trailer of a movie is put, and under which name.
    When the movie of a folder is the entry [n] of the directory [d] -- a
    file of the scanned directory, or the index file of a disc-image
    subdirectory -- the trailer directory is [d] itself and the trailer
    name is [n] without its extension followed by "-trailer.mp4" ([d]
    ending in a character other than "/", as an absolute path other than
    the root does, and [n] being a name without "/"). *)
Theorem trailer_location (self : MovieFolder) (m : Video) (r : string) (a : ascii)
    (n : string) :
  a <> OsPath.sep ->
  free_of OsPath.sep n ->
  movie self = Some m ->
  v_path m = OsPath.join (r ++ String a "") n ->
  trailerDirectory self = Some (r ++ String a "")
  /\ trailerName self = Some (fst (OsPath.splitext n) ++ "-trailer.mp4").
Proof.
  intros Ha Hn Hm Hp. unfold trailerDirectory, trailerName, Video.fileName.
  rewrite Hm, Hp. destruct (join_split r a n Ha Hn) as [-> ->]. auto.
Qed.

(** ** The properties at concrete inputs *)

Lemma constructor_raises_iff_witness :
  et_parse os_untyped_uniqueid "/lib/Film/movie.nfo"
  = XmlRoot [ {| tag := "title"; attrib := ∅; text := Some "Film" |}; untyped_uniqueid ]
  /\ NFO.init os_untyped_uniqueid "/lib/Film/movie.nfo" = Raise KeyError.
Proof.
  split; [reflexivity|].
  apply (proj1 (constructor_raises_iff os_untyped_uniqueid "/lib/Film/movie.nfo"
                  [ {| tag := "title"; attrib := ∅; text := Some "Film" |};
                    untyped_uniqueid ] eq_refl) KeyError).
  split; [reflexivity|].
  apply List.Exists_cons_tl, List.Exists_cons_hd. split; reflexivity.
Defined.

Lemma constructor_record_witness :
  exists n,
    NFO.init os_sidecars "/lib/Film/c.xml" = Ok n
    /\ n_path n = "/lib/Film/c.xml"
    /\ ids_parsed n
    /\ NFO.tmdb n = Some "278".
Proof.
  destruct (NFO.init os_sidecars "/lib/Film/c.xml") as [n|e] eqn:Hi;
    [|vm_compute in Hi; discriminate Hi].
  exists n. split; [reflexivity|].
  destruct (constructor_record _ _ _ Hi) as (H1 & H2 & _ & _ & _).
  split; [exact H1|]. split; [exact H2|].
  vm_compute in Hi. injection Hi as <-. reflexivity.
Defined.

Lemma is_complete_of_parsed_witness :
  dates_parsed record_with_release_date
  /\ NFO.is_complete record_with_release_date = Raise TypeError.
Proof.
  assert (H : dates_parsed record_with_release_date).
  { split; [exact I | split; reflexivity]. }
  split; [exact H|].
  rewrite (is_complete_of_parsed record_with_release_date H). reflexivity.
Defined.

Lemma id_accessor_shapes_witness :
  NFO.imdb record_with_bad_uniqueid = Some "tt0111161"
  /\ exists p ds rest,
      "tt0111161" = p ++ ds ++ rest
      /\ In p ["ch"; "co"; "ev"; "nm"; "tt"]
      /\ Re.lang (Re.times 7 Re.digit) ds.
Proof.
  split; [reflexivity|].
  exact (proj2 (id_accessor_shapes record_with_bad_uniqueid) "tt0111161" eq_refl).
Defined.

Lemma classification_last_wins_witness :
  exists st',
    MovieFolder.init os_bluray_then_file "/lib/Film" = Ok st'
    /\ movie (folder st')
       = last (listed_movies os_bluray_then_file "/lib/Film" ["BDMV"; "extras.mkv"])
    /\ movie (folder st')
       = Some {| v_path := "/lib/Film/extras.mkv"; duration := 1800%float |}.
Proof.
  destruct (MovieFolder.init os_bluray_then_file "/lib/Film") as [st'|e] eqn:Hi;
    [|vm_compute in Hi; discriminate Hi].
  exists st'. split; [reflexivity|].
  destruct (classification_last_wins _ _ _ Hi) as (_ & Hm & _).
  split; [exact Hm|]. rewrite Hm. vm_compute. reflexivity.
Defined.

Lemma movie_and_trailer_differ_witness :
  exists st',
    MovieFolder.init os_bluray "/lib/Film" = Ok st'
    /\ hasMovie (folder st') = true
    /\ hasTrailer (folder st') = true
    /\ forall m t, movie (folder st') = Some m -> trailer (folder st') = Some t -> m <> t.
Proof.
  destruct (MovieFolder.init os_bluray "/lib/Film") as [st'|e] eqn:Hi;
    [|vm_compute in Hi; discriminate Hi].
  exists st'. split; [reflexivity|].
  pose proof (proj2 (proj2 (movie_and_trailer_differ _ _ _ Hi))) as Hd.
  vm_compute in Hi. injection Hi as <-.
  split; [reflexivity|]. split; [reflexivity | exact Hd].
Defined.

Lemma classification_raises_iff_witness :
  Exists (fun name => sidecar_raises_with os_untyped_uniqueid "/lib/Film" name KeyError)
    ["movie.nfo"]
  /\ exists st', MovieFolder.init os_movie_only "/lib/Film" = Ok st'.
Proof.
  split.
  - apply (proj1 (proj2 (classification_raises_iff os_untyped_uniqueid "/lib/Film"
                           eq_refl)) KeyError).
    vm_compute. reflexivity.
  - apply (proj2 (proj2 (classification_raises_iff os_movie_only "/lib/Film" eq_refl))).
    constructor; [reflexivity | constructor].
Defined.

Lemma disc_folder_video_ts_witness :
  exists st',
    scan_item os_dvd (start os_dvd "/lib/Film") "VIDEO_TS" = Ok st'
    /\ movie (folder st')
       = Some {| v_path := "/lib/Film/VIDEO_TS/VIDEO_TS.IFO"; duration := 601%float |}
    /\ trailer (folder st')
       = Some {| v_path := "/lib/Film/VIDEO_TS/video_ts-trailer.mp4";
                 duration := 90%float |}
    /\ probed st' = ["/lib/Film/VIDEO_TS/video_ts-trailer.mp4"].
Proof.
  destruct (disc_folder_video_ts os_dvd (start os_dvd "/lib/Film") "VIDEO_TS"
              eq_refl eq_refl eq_refl eq_refl eq_refl)
    as (st' & H1 & H2 & _ & H4 & H5 & _).
  exists st'. split; [exact H1|]. split; [exact H2|].
  split; [rewrite H5 | rewrite H4]; reflexivity.
Defined.

Lemma root_marker_masks_dvd_witness :
  isfile os_dvd_under_bdmv "/bdmv/Film/VIDEO_TS/VIDEO_TS.IFO" = true
  /\ scan_item os_dvd_under_bdmv (start os_dvd_under_bdmv "/bdmv/Film") "VIDEO_TS"
     = Ok (start os_dvd_under_bdmv "/bdmv/Film")
  /\ entry_movie os_dvd_under_bdmv "/bdmv/Film" "VIDEO_TS" = None.
Proof.
  split; [reflexivity|].
  exact (root_marker_masks_dvd os_dvd_under_bdmv (start os_dvd_under_bdmv "/bdmv/Film")
           "VIDEO_TS" eq_refl eq_refl eq_refl eq_refl).
Defined.

Lemma unprobed_video_by_name_witness :
  scan_item os_unprobed (start os_unprobed "/lib/Film") "Film.mkv"
  = Ok {| folder :=
            set_movie {| v_path := "/lib/Film/Film.mkv"; duration := 601%float |}
              (folder (start os_unprobed "/lib/Film"));
          probed := ["/lib/Film/Film.mkv"] |}.
Proof.
  exact (unprobed_video_by_name os_unprobed (start os_unprobed "/lib/Film") "Film.mkv"
           eq_refl eq_refl eq_refl).
Defined.

Lemma trailer_name_round_trip_witness :
  trailerName bluray_folder = Some "index-trailer.mp4"
  /\ classify (OsPath.join "/lib/Film/BDMV" "index-trailer.mp4") = VideoFile
  /\ contains "index-trailer" (lower "index-trailer.mp4") = true.
Proof.
  destruct (trailer_name_round_trip bluray_folder "index-trailer.mp4" eq_refl)
    as (H1 & H2 & _).
  split; [reflexivity|]. split.
  - exact (proj1 (H1 os_bluray "/lib/Film/BDMV")).
  - exact (H2 _ eq_refl eq_refl).
Defined.

Lemma override_group_witness :
  fst (get_Trailer two_catalog_links os_movie_only "/lib/Film"
         None None (Some "Film") (Some "1994") fresh_run)
  <> RaisedInResolve AttributeError
  /\ get_Trailer no_candidates os_movie_only "/lib/Film" None None (Some "Film") None
       fresh_run
     = get_Trailer no_candidates os_movie_only "/lib/Film" None None None None fresh_run.
Proof.
  split.
  - exact (proj1 (override_group two_catalog_links os_movie_only "/lib/Film"
                    None None (Some "Film") (Some "1994") fresh_run) eq_refl
             AttributeError).
  - exact (proj2 (override_group no_candidates os_movie_only "/lib/Film"
                    None None (Some "Film") None fresh_run) eq_refl).
Defined.

Lemma collaborators_untouched_witness :
  fst (get_Trailer two_catalog_links os_movie_only "/lib/Film" None None None None
         fresh_run)
  = RaisedInResolve AttributeError
  /\ attempts (snd (get_Trailer two_catalog_links os_movie_only "/lib/Film"
                      None None None None fresh_run))
     = [].
Proof.
  split; [vm_compute; reflexivity|].
  exact (proj2 (collaborators_untouched two_catalog_links os_movie_only "/lib/Film"
                  None None None None fresh_run eq_refl)).
Defined.

Lemma downloads_need_sidecar_witness :
  fst (get_Trailer two_catalog_links os_library "/lib/Film" None None None None
         fresh_run)
  = Downloaded "yt/second"
  /\ exists scanned n,
      MovieFolder.init os_library "/lib/Film" = Ok scanned
      /\ nfo (folder scanned) = Some n
      /\ NFO.is_complete n = Ok true.
Proof.
  split; [vm_compute; reflexivity|].
  destruct (downloads_need_sidecar two_catalog_links os_library "/lib/Film"
              None None None None fresh_run eq_refl eq_refl)
    as (scanned & n & y & H1 & _ & _ & H4 & H5 & _).
  exists scanned, n. split; [exact H1|]. split; [exact H4 | exact H5].
Defined.

Lemma counters_stay_sane_witness :
  sane (app (fresh_run))
  /\ sane (app (snd (run no_candidates [call_movie_only; call_movie_only] fresh_run))).
Proof.
  assert (H : sane (app fresh_run)).
  { unfold sane. simpl. lia. }
  split; [exact H|].
  exact (proj1 (counters_stay_sane no_candidates [call_movie_only; call_movie_only]
                  fresh_run H)).
Defined.

Lemma scanLibrary_outcomes_witness :
  library_calls os_library "/lib" = [library_call os_library "/lib" "Film"]
  /\ fst (scanLibrary two_catalog_links (fun _ => os_library) "/lib" fresh_run)
     = until_raised
         (fst (run two_catalog_links [library_call os_library "/lib" "Film"] fresh_run))
  /\ fst (scanLibrary two_catalog_links (fun _ => os_library) "/lib" fresh_run)
     = [Downloaded "yt/second"].
Proof.
  split; [reflexivity|].
  split; [|vm_compute; reflexivity].
  apply (proj2 (proj2 (proj2 (proj2 (proj2 (proj2
           (scanLibrary_outcomes two_catalog_links (fun _ => os_library) "/lib"
              fresh_run))))))).
  - intros w. reflexivity.
  - reflexivity.
Defined.

Lemma raw_field_last_element_witness :
  exists n,
    NFO.parse_items (NFO.blank "/lib/Film/movie.nfo") two_titles = Ok n
    /\ __title n = Some "Film (1994)".
Proof.
  destruct (NFO.parse_items (NFO.blank "/lib/Film/movie.nfo") two_titles)
    as [n|e] eqn:Hp; [|vm_compute in Hp; discriminate Hp].
  exists n. split; [reflexivity|].
  exact (raw_field_last_element FTitle two_titles _ _ Hp).
Defined.

Lemma classification_probes_witness :
  exists st',
    MovieFolder.init os_bluray_then_file "/lib/Film" = Ok st'
    /\ probed st' = ["/lib/Film/BDMV/index-trailer.mp4"; "/lib/Film/extras.mkv"].
Proof.
  destruct (MovieFolder.init os_bluray_then_file "/lib/Film") as [st'|e] eqn:Hi;
    [|vm_compute in Hi; discriminate Hi].
  exists st'. split; [reflexivity|].
  rewrite (proj1 (classification_probes _ _ _ Hi)). vm_compute. reflexivity.
Defined.

Lemma trailer_location_witness :
  trailerDirectory file_folder = Some "/lib/Film"
  /\ trailerName file_folder = Some "movie-trailer.mp4".
Proof.
  refine (trailer_location file_folder
            {| v_path := "/lib/Film/movie.mkv"; duration := 1800%float |}
            "/lib/Fil" "m" "movie.mkv" _ eq_refl eq_refl eq_refl).
  discriminate.
Defined.
